(** * The Sketch Garden: growth engine, layer compositing and drag control

    A shallow embedding of [components/GardenCanvas.tsx], [types.ts] and the
    genome-editing part of [App.tsx].

    Conventions of the embedding.
    - A JavaScript [number] is an exact rational ([Q]); counters that the
      code only ever initialises with [0] and increments ([life],
      [generation]) are [nat] and injected into [Q] where they meet other
      numbers.  Rounding, infinities and NaN are outside the model.
    - Objects that are shared by reference and compared by identity live in
      explicit stores: settings objects in [World.heap] (a [Ref] is an
      address), offscreen canvases in [World.offscreen] (a rendering context
      is named by [Ctx]).
    - [useRef] cells and React state are the fields of [World]; every
      function of the component is a computation in the state monad [M].
    - Host functions that are not code of the component ([Math.random],
      [Math.cos], [Math.sin], [parseInt], [Number.prototype.toString], the
      noise generator of [utils/noise]) are the fields of the class [Host].
    - A canvas is its display list: the sequence of drawing requests made
      on it since it was last cleared over its full area. *)

From Stdlib Require Import QArith Qround Qminmax Qabs ZArith List String Ascii
  DecimalString Bool Lia Lqa.
Import ListNotations.
Open Scope Q_scope.

Set Implicit Arguments.

(** ** Numbers *)

Definition Qltb (a b : Q) : bool := negb (Qle_bool b a).

Definition Qnat (n : nat) : Q := inject_Z (Z.of_nat n).

(** [Math.PI], the double nearest to pi, is itself a rational. *)
Definition Math_PI : Q := 884279719003555 # 281474976710656.

(** [Math.round(v)] *)
Definition Math_round (v : Q) : Z := Qfloor (v + 0.5).

(** ** types.ts *)

Inductive PlantType := VINE | PALM | GEOMETRIC | UMBRELLA | BERRY.

Module PlantSettings.
Record t := mk {
  type : PlantType;
  stemColorStart : string;
  stemColorEnd : string;
  baseWidth : Q;
  growthSpeed : Q;
  maxLife : Q;
  curlFactor : Q;
  straightness : Q;
  leafColorStart : string;
  leafColorEnd : string;
  leafFrequency : Q;
  leafSize : Q;
  flowerColorStart : string;
  flowerColorEnd : string;
  flowerProbability : Q;
  flowerSize : Q;
  petalCount : Q
}.
End PlantSettings.

(** Address of a settings object in the heap. *)
Definition Ref := nat.

(** Identity of a 2d rendering context: the one of the outside canvas, or
    the one of the offscreen canvas stored at an index of
    [World.offscreen]. *)
Inductive Ctx := CtxOutside | CtxOff (canvas : nat).

Definition Ctx_eqb (a b : Ctx) : bool :=
  match a, b with
  | CtxOutside, CtxOutside => true
  | CtxOff i, CtxOff j => Nat.eqb i j
  | _, _ => false
  end.

Module Grower.
Record t := mk {
  id : string;
  x : Q;
  y : Q;
  angle : Q;
  life : nat;
  maxLife : Q;
  width : Q;
  speed : Q;
  color : string;
  settings : Ref;
  noiseOffset : Q;
  generation : nat;
  ctx : Ctx;
  hasAttemptedFlower : option bool   (* optional field: [None] is undefined *)
}.

Definition set_angle (v : Q) (g : t) : t :=
  mk (id g) (x g) (y g) v (life g) (maxLife g) (width g) (speed g)
     (color g) (settings g) (noiseOffset g) (generation g) (ctx g)
     (hasAttemptedFlower g).

Definition set_xy (vx vy : Q) (g : t) : t :=
  mk (id g) vx vy (angle g) (life g) (maxLife g) (width g) (speed g)
     (color g) (settings g) (noiseOffset g) (generation g) (ctx g)
     (hasAttemptedFlower g).

(** [grower.life++] *)
Definition incr_life (g : t) : t :=
  mk (id g) (x g) (y g) (angle g) (S (life g)) (maxLife g) (width g)
     (speed g) (color g) (settings g) (noiseOffset g) (generation g)
     (ctx g) (hasAttemptedFlower g).

Definition set_hasAttemptedFlower (v : option bool) (g : t) : t :=
  mk (id g) (x g) (y g) (angle g) (life g) (maxLife g) (width g)
     (speed g) (color g) (settings g) (noiseOffset g) (generation g)
     (ctx g) v.
End Grower.

(** Truthiness of an optional boolean. *)
Definition truthy (v : option bool) : bool :=
  match v with Some true => true | _ => false end.

(** ** GardenCanvas.tsx: local interfaces *)

Module BottlePlant.
Record t := mk {
  id : string;
  originX : Q;
  currentX : Q;
  y : Q;
  canvas : nat;        (* index of the offscreen canvas it owns *)
  ctx : Ctx;
  settings : Ref
}.

Definition set_currentX (v : Q) (p : t) : t :=
  mk (id p) (originX p) v (y p) (canvas p) (ctx p) (settings p).
End BottlePlant.

Module DragState.
Record t := mk { plantId : string; startX : Q; plantStartX : Q }.
End DragState.

Module PlantHistoryItem.
Record t := mk { x : Q; y : Q; settings : Ref; timestamp : Z }.
End PlantHistoryItem.

Module DOMRect.
Record t := mk { left : Q; top : Q; right : Q; bottom : Q }.
End DOMRect.

Module Dimensions.
Record t := mk { width : Z; height : Z }.
End Dimensions.

Module PointerEvent.
Record t := mk { button : Z; buttons : Z; clientX : Q; clientY : Q }.
End PointerEvent.

(** ** Canvases as display lists *)

(** A colour channel is [None] when [parseInt] produced NaN.  The path
    geometry of a leaf or a flower is one entry that carries what
    determines it: the arguments of the drawing function and its random
    draws.  [drawImage] copies what its source shows at that moment. *)
Inductive Color :=
| Hex (c : string)
| Rgb (r g b : option Z).

#[local] Unset Elimination Schemes.
Inductive DrawOp :=
| OpFillRect (fillStyle : Color) (x y w h : Q)
| OpClearRect (x y w h : Q)
| OpStroke (x0 y0 x1 y1 lineWidth : Q) (strokeStyle : Color) (globalAlpha : Q)
| OpLeaf (x y angle size : Q) (fillStyle : Color) (type : PlantType)
| OpFlower (x y size : Q) (startColor endColor : string) (petals : Q)
           (type : PlantType) (draws : list Q)
| OpImage (canvas : nat) (content : list DrawOp) (dx dy : Q).
#[local] Set Elimination Schemes.

Module Canvas.
Record t := mk { width : Z; height : Z; ops : list DrawOp }.

Definition draw (op : DrawOp) (c : t) : t :=
  mk (width c) (height c) (ops c ++ [op]).

(** Does the rectangle contain the whole canvas area? *)
Definition covers (x y w h : Q) (c : t) : bool :=
  Qle_bool x 0 && Qle_bool y 0
  && Qle_bool (inject_Z (width c)) (x + w)
  && Qle_bool (inject_Z (height c)) (y + h).

(** [ctx.clearRect(x, y, w, h)]: erasing the whole area empties the
    display list; a smaller rectangle is recorded as a request. *)
Definition clearRect (x y w h : Q) (c : t) : t :=
  if covers x y w h c then mk (width c) (height c) []
  else draw (OpClearRect x y w h) c.

(** [document.createElement('canvas')] with width and height assigned. *)
Definition create (w h : Z) : t := mk w h [].
End Canvas.

(** ** The host environment *)

Class Host := {
  (** result of the n-th call of [Math.random()] *)
  Math_random : nat -> Q;
  Math_cos : Q -> Q;
  Math_sin : Q -> Q;
  (** [noiseGenerator.noise(x, y, z)] of utils/noise *)
  noise : Q -> Q -> Q -> Q;
  (** [n.toString(36)] *)
  toString36 : Q -> string;
  (** [parseInt(s, 16)], [None] for NaN *)
  parseInt16 : string -> option Z
}.

(** ** The state of the application *)

Module World.
Record t := mk {
  (** settings objects, by address *)
  heap : list PlantSettings.t;
  (** App: [useState] cells *)
  settings : Ref;
  clearTrigger : nat;
  (** GardenCanvas: [useState] and [useRef] cells *)
  dimensions : Dimensions.t;
  canvasOutside : option Canvas.t;
  canvasInside : option Canvas.t;
  offscreen : list Canvas.t;
  growers : list Grower.t;
  bottlePlants : list BottlePlant.t;
  plantHistory : list PlantHistoryItem.t;
  bottleRect : option DOMRect.t;
  dragState : option DragState.t;
  (** number of calls of [Math.random()] made so far *)
  randomCalls : nat
}.

Definition set_heap v (w : t) : t :=
  mk v (settings w) (clearTrigger w) (dimensions w) (canvasOutside w)
     (canvasInside w) (offscreen w) (growers w) (bottlePlants w)
     (plantHistory w) (bottleRect w) (dragState w) (randomCalls w).
Definition set_settings v (w : t) : t :=
  mk (heap w) v (clearTrigger w) (dimensions w) (canvasOutside w)
     (canvasInside w) (offscreen w) (growers w) (bottlePlants w)
     (plantHistory w) (bottleRect w) (dragState w) (randomCalls w).
Definition set_clearTrigger v (w : t) : t :=
  mk (heap w) (settings w) v (dimensions w) (canvasOutside w)
     (canvasInside w) (offscreen w) (growers w) (bottlePlants w)
     (plantHistory w) (bottleRect w) (dragState w) (randomCalls w).
Definition set_dimensions v (w : t) : t :=
  mk (heap w) (settings w) (clearTrigger w) v (canvasOutside w)
     (canvasInside w) (offscreen w) (growers w) (bottlePlants w)
     (plantHistory w) (bottleRect w) (dragState w) (randomCalls w).
Definition set_canvasOutside v (w : t) : t :=
  mk (heap w) (settings w) (clearTrigger w) (dimensions w) v
     (canvasInside w) (offscreen w) (growers w) (bottlePlants w)
     (plantHistory w) (bottleRect w) (dragState w) (randomCalls w).
Definition set_canvasInside v (w : t) : t :=
  mk (heap w) (settings w) (clearTrigger w) (dimensions w)
     (canvasOutside w) v (offscreen w) (growers w) (bottlePlants w)
     (plantHistory w) (bottleRect w) (dragState w) (randomCalls w).
Definition set_offscreen v (w : t) : t :=
  mk (heap w) (settings w) (clearTrigger w) (dimensions w)
     (canvasOutside w) (canvasInside w) v (growers w) (bottlePlants w)
     (plantHistory w) (bottleRect w) (dragState w) (randomCalls w).
Definition set_growers v (w : t) : t :=
  mk (heap w) (settings w) (clearTrigger w) (dimensions w)
     (canvasOutside w) (canvasInside w) (offscreen w) v (bottlePlants w)
     (plantHistory w) (bottleRect w) (dragState w) (randomCalls w).
Definition set_bottlePlants v (w : t) : t :=
  mk (heap w) (settings w) (clearTrigger w) (dimensions w)
     (canvasOutside w) (canvasInside w) (offscreen w) (growers w) v
     (plantHistory w) (bottleRect w) (dragState w) (randomCalls w).
Definition set_plantHistory v (w : t) : t :=
  mk (heap w) (settings w) (clearTrigger w) (dimensions w)
     (canvasOutside w) (canvasInside w) (offscreen w) (growers w)
     (bottlePlants w) v (bottleRect w) (dragState w) (randomCalls w).
Definition set_bottleRect v (w : t) : t :=
  mk (heap w) (settings w) (clearTrigger w) (dimensions w)
     (canvasOutside w) (canvasInside w) (offscreen w) (growers w)
     (bottlePlants w) (plantHistory w) v (dragState w) (randomCalls w).
Definition set_dragState v (w : t) : t :=
  mk (heap w) (settings w) (clearTrigger w) (dimensions w)
     (canvasOutside w) (canvasInside w) (offscreen w) (growers w)
     (bottlePlants w) (plantHistory w) (bottleRect w) v (randomCalls w).
Definition set_randomCalls v (w : t) : t :=
  mk (heap w) (settings w) (clearTrigger w) (dimensions w)
     (canvasOutside w) (canvasInside w) (offscreen w) (growers w)
     (bottlePlants w) (plantHistory w) (bottleRect w) (dragState w) v.
End World.

(** ** The state monad of the component *)

Definition M (A : Type) : Type := World.t -> A * World.t.

Definition ret {A} (a : A) : M A := fun w => (a, w).

Definition bind {A B} (m : M A) (k : A -> M B) : M B :=
  fun w => let (a, w1) := m w in k a w1.

Definition get {A} (f : World.t -> A) : M A := fun w => (f w, w).

Definition modify (f : World.t -> World.t) : M unit := fun w => (tt, f w).

Definition exec {A} (m : M A) (w : World.t) : World.t := snd (m w).

Definition eval {A} (m : M A) (w : World.t) : A := fst (m w).

Declare Scope monad_scope.
Delimit Scope monad_scope with monad.
Notation "x <- m ;; k" := (bind m (fun x => k))
  (at level 61, m at next level, right associativity) : monad_scope.
Notation "m ;;; k" := (bind m (fun _ => k))
  (at level 61, right associativity) : monad_scope.
Open Scope monad_scope.

Definition when (b : bool) (m : M unit) : M unit :=
  if b then m else ret tt.

(** ** App.tsx: presets *)

Definition PRESET_VINE : PlantSettings.t :=
  PlantSettings.mk VINE "#86efac" "#2dd4bf" 6 3 280 0.08 0.4
    "#bef264" "#10b981" 0.1 12 "#fca5a5" "#c4b5fd" 0.7 20 7.

Definition PRESET_PALM : PlantSettings.t :=
  PlantSettings.mk PALM "#78716c" "#65a30d" 10 2.5 350 0.05 0.7
    "#d9f99d" "#14532d" 0.05 35 "#fdba74" "#fcd34d" 0.4 25 5.

Definition PRESET_GEOMETRIC : PlantSettings.t :=
  PlantSettings.mk GEOMETRIC "#475569" "#94a3b8" 4 4 300 0 0.9
    "#e2e8f0" "#64748b" 0.15 10 "#e0f2fe" "#0ea5e9" 0.6 15 9.

Definition PRESET_UMBRELLA : PlantSettings.t :=
  PlantSettings.mk UMBRELLA "#064e3b" "#34d399" 8 3 400 0.03 0.8
    "#047857" "#6ee7b7" 0.01 45 "#fef3c7" "#fffbeb" 0.9 40 1.

Definition PRESET_BERRY : PlantSettings.t :=
  PlantSettings.mk BERRY "#422006" "#a8a29e" 3 3.5 250 0.15 0.3
    "#3f6212" "#166534" 0.05 8 "#dc2626" "#f97316" 0.8 12 5.

(** The five preset objects are module-level constants: they occupy the
    first five addresses of every heap. *)
Definition presetHeap : list PlantSettings.t :=
  [PRESET_VINE; PRESET_PALM; PRESET_GEOMETRIC; PRESET_UMBRELLA; PRESET_BERRY].

Definition presetRef (type : PlantType) : Ref :=
  match type with
  | VINE => 0 | PALM => 1 | GEOMETRIC => 2 | UMBRELLA => 3 | BERRY => 4
  end%nat.

(** ** Heap of settings objects *)

(** Reading through a reference.  Every reference the program holds is
    the address of an allocated object; the filler is never read. *)
Definition deref (r : Ref) : M PlantSettings.t :=
  get (fun w => nth r (World.heap w) PRESET_VINE).

(** Allocation of a fresh object, as by an object literal. *)
Definition alloc (s : PlantSettings.t) : M Ref :=
  fun w => (List.length (World.heap w),
            World.set_heap (World.heap w ++ [s]) w).

(** ** Small list utilities standing for array methods *)

Fixpoint updateAt {A} (i : nat) (f : A -> A) (l : list A) : list A :=
  match l, i with
  | [], _ => []
  | a :: r, O => f a :: r
  | a :: r, S j => a :: updateAt j f r
  end.

(** [array.pop()] *)
Definition pop {A} (l : list A) : option A * list A :=
  match rev l with
  | [] => (None, l)
  | a :: r => (Some a, rev r)
  end.

(** [array.shift()] when the array is longer than 50 *)
Definition capHistory {A} (l : list A) : list A :=
  if (50 <? List.length l)%nat then tl l else l.

(** [c.replace('#', '')]: the first occurrence is removed. *)
Fixpoint replaceHash (c : string) : string :=
  match c with
  | EmptyString => EmptyString
  | String a r => if Ascii.eqb a "#" then r else String a (replaceHash r)
  end.

Section Component.
Context {host : Host}.

(** [Math.random()] *)
Definition random : M Q :=
  fun w => (Math_random (World.randomCalls w),
            World.set_randomCalls (S (World.randomCalls w)) w).

Fixpoint randoms (n : nat) : M (list Q) :=
  match n with
  | O => ret []
  | S k => r <- random ;; rs <- randoms k ;; ret (r :: rs)
  end.

Definition uuid : M string :=
  r <- random ;; ret (substring 2 9 (toString36 r)).

(** *** lerpColor *)

Definition parse (c : string) : option Z * option Z * option Z :=
  let hex := replaceHash c in
  (parseInt16 (substring 0 2 hex),
   parseInt16 (substring 2 2 hex),
   parseInt16 (substring 4 2 hex)).

Definition lerpChannel (s e : option Z) (t : Q) : option Z :=
  match s, e with
  | Some a, Some b =>
      Some (Math_round (inject_Z a + (inject_Z b - inject_Z a) * t))
  | _, _ => None
  end.

Definition lerpColor (start end_ : string) (t : Q) : Color :=
  let t := Qmax 0 (Qmin 1 t) in
  let '(sr, sg, sb) := parse start in
  let '(er, eg, eb) := parse end_ in
  Rgb (lerpChannel sr er t) (lerpChannel sg eg t) (lerpChannel sb eb t).

(** *** Drawing *)

Definition drawOn (c : Ctx) (op : DrawOp) : M unit :=
  modify (fun w =>
    match c with
    | CtxOutside =>
        World.set_canvasOutside
          (option_map (Canvas.draw op) (World.canvasOutside w)) w
    | CtxOff i =>
        World.set_offscreen
          (updateAt i (Canvas.draw op) (World.offscreen w)) w
    end).

Definition drawLeaf (ctx : Ctx) (x y angle baseSize : Q) (color : Color)
    (type : PlantType) : M unit :=
  r <- random ;;
  let size := baseSize * (0.8 + r * 0.4) in
  drawOn ctx (OpLeaf x y angle size color type).

(** [Math.floor(petals) || 3] *)
Definition berryCount (petals : Q) : Z :=
  let f := Qfloor petals in if (f =? 0)%Z then 3%Z else f.

Definition drawFlower (ctx : Ctx) (x y baseSize : Q)
    (startColor endColor : string) (petals : Q) (type : PlantType)
    : M unit :=
  r <- random ;;
  let size := baseSize * (0.85 + r * 0.3) in
  draws <- match type with
           | GEOMETRIC => ret []
           | BERRY => randoms (3 * Z.to_nat (berryCount petals))
           | UMBRELLA => randoms 1
           | _ => ret []
           end ;;
  drawOn ctx (OpFlower x y size startColor endColor petals type draws).

(** *** createGrower *)

Definition baseAngle : Q := - Math_PI / 2.

Definition createGrower (x y : Q) (plantSettings : Ref) (ctx : Ctx)
    (generation : nat) (initialAngle : option Q) : M Grower.t :=
  startAngle <- match initialAngle with
                | Some a => ret a
                | None => r <- random ;; ret (baseAngle + (r * 0.2 - 0.1))
                end ;;
  id <- uuid ;;
  s <- deref plantSettings ;;
  noiseOffset <- random ;;
  ret (Grower.mk id x y startAngle 0
         (PlantSettings.maxLife s / Qnat (generation + 1))
         (PlantSettings.baseWidth s / Qnat (generation + 1))
         (PlantSettings.growthSpeed s)
         (PlantSettings.stemColorStart s)
         plantSettings
         (noiseOffset * 1000)
         generation
         ctx
         None).

(** *** spawnPlant

    [now] is the value of [Date.now()]; [offCtx] tells whether
    [offCanvas.getContext('2d')] returned a context. *)

Definition pushGrower (g : Grower.t) : M unit :=
  modify (fun w => World.set_growers (World.growers w ++ [g]) w).

Definition createOffscreen : M nat :=
  fun w =>
    let d := World.dimensions w in
    (List.length (World.offscreen w),
     World.set_offscreen
       (World.offscreen w
          ++ [Canvas.create (Dimensions.width d) (Dimensions.height d)]) w).

(** Save to history (for copying): the item holds a copy [{ ...s }] of
    the settings; the array is capped at 50 items. *)
Definition saveHistory (x y : Q) (s : Ref) (now : Z) : M unit :=
  sv <- deref s ;;
  copy <- alloc sv ;;
  modify (fun w =>
    World.set_plantHistory
      (capHistory
         (World.plantHistory w ++ [PlantHistoryItem.mk x y copy now])) w).

Definition spawnPlant (x y : Q) (overrideSettings : option Ref)
    (isInsideBottle : bool) (now : Z) (offCtx : bool) : M unit :=
  settings <- get World.settings ;;
  let s := match overrideSettings with Some o => o | None => settings end in
  saveHistory x y s now ;;;
  if isInsideBottle then
    (* Create an offscreen canvas for this plant *)
    offCanvas <- createOffscreen ;;
    if offCtx then
      plantId <- uuid ;;
      let newBottlePlant :=
        BottlePlant.mk plantId x x y offCanvas (CtxOff offCanvas) s in
      modify (fun w =>
        World.set_bottlePlants
          (World.bottlePlants w ++ [newBottlePlant]) w) ;;;
      g <- createGrower x y s (CtxOff offCanvas) 0 None ;;
      pushGrower g
    else ret tt
  else
    (* Spawn on the outside canvas *)
    out <- get World.canvasOutside ;;
    match out with
    | Some _ =>
        g <- createGrower x y s CtxOutside 0 None ;;
        pushGrower g
    | None => ret tt
    end.

(** *** undoLastBottlePlant *)

Definition undoLastBottlePlant : M unit :=
  plants <- get World.bottlePlants ;;
  match pop plants with
  | (Some popped, rest) =>
      modify (World.set_bottlePlants rest) ;;;
      modify (fun w =>
        World.set_growers
          (filter (fun g =>
                     negb (Ctx_eqb (Grower.ctx g) (BottlePlant.ctx popped)))
                  (World.growers w)) w)
  | (None, rest) => modify (World.set_bottlePlants rest)
  end.

Definition updateBottleRect (rect : DOMRect.t) : M unit :=
  modify (World.set_bottleRect (Some rect)).

(** *** Effects *)

Definition paper : Color := Hex "#fdfbf7".

Definition fullWidth (w : World.t) : Q :=
  inject_Z (Dimensions.width (World.dimensions w)).
Definition fullHeight (w : World.t) : Q :=
  inject_Z (Dimensions.height (World.dimensions w)).

(** [canvas.width = dimensions.width; canvas.height = dimensions.height]
    on both canvases.  Assigning the width of a canvas resets it. *)
Definition resetCanvases : M unit :=
  modify (fun w =>
    let d := World.dimensions w in
    let blank (c : Canvas.t) :=
      Canvas.create (Dimensions.width d) (Dimensions.height d) in
    World.set_canvasInside (option_map blank (World.canvasInside w))
      (World.set_canvasOutside (option_map blank (World.canvasOutside w)) w)).

(** [ctxOut.fillStyle = '#fdfbf7'; ctxOut.fillRect(0, 0, width, height)]
    when the context exists. *)
Definition fillOutside : M unit :=
  modify (fun w =>
    World.set_canvasOutside
      (option_map
         (Canvas.draw (OpFillRect paper 0 0 (fullWidth w) (fullHeight w)))
         (World.canvasOutside w)) w).

(** [ctxIn.clearRect(0, 0, width, height)] when the context exists. *)
Definition clearInside : M unit :=
  modify (fun w =>
    World.set_canvasInside
      (option_map (Canvas.clearRect 0 0 (fullWidth w) (fullHeight w))
                  (World.canvasInside w)) w).

(** Initialization and resize logic (effect on [dimensions]). *)
Definition resizeEffect : M unit :=
  resetCanvases ;;;
  fillOutside ;;;
  clearInside ;;;
  (* On resize, we lose the offscreen canvases: clear everything. *)
  modify (World.set_growers []) ;;;
  modify (World.set_plantHistory []) ;;;
  modify (World.set_bottlePlants []).

(** Handle clear trigger, outside only (effect on [clearTrigger] and
    [dimensions]). *)
Definition clearEffect : M unit :=
  fillOutside ;;;
  (* Remove growers that target the outside canvas *)
  modify (fun w =>
    match World.canvasOutside w with
    | Some _ =>
        World.set_growers
          (filter (fun g => negb (Ctx_eqb (Grower.ctx g) CtxOutside))
                  (World.growers w)) w
    | None => w
    end).

(** [setDimensions] followed by the effects that depend on it. *)
Definition handleResize (d : Dimensions.t) : M unit :=
  modify (World.set_dimensions d) ;;;
  resizeEffect ;;;
  clearEffect.

(** *** update: one step of a grower *)

(** [life >= maxLife || grower.width < 0.1] *)
Definition isTerminal (g : Grower.t) : bool :=
  Qle_bool (Grower.maxLife g) (Qnat (Grower.life g))
  || Qltb (Grower.width g) 0.1.

(** [if (grower.generation < 2 && Math.random() < settings.flowerProbability)
    drawFlower(...)]: the random number is drawn only for generations
    below 2. *)
Definition attemptFlower (settings : PlantSettings.t) (g : Grower.t)
    : M unit :=
  if (Grower.generation g <? 2)%nat then
    r <- random ;;
    when (Qltb r (PlantSettings.flowerProbability settings))
      (drawFlower (Grower.ctx g) (Grower.x g) (Grower.y g)
         (PlantSettings.flowerSize settings)
         (PlantSettings.flowerColorStart settings)
         (PlantSettings.flowerColorEnd settings)
         (PlantSettings.petalCount settings)
         (PlantSettings.type settings))
  else ret tt.

(** The branch taken by a grower whose life is over: one flower attempt,
    then only ageing. *)
Definition stepTerminal (settings : PlantSettings.t) (g : Grower.t)
    : M (Grower.t * list Grower.t) :=
  g1 <- (if negb (truthy (Grower.hasAttemptedFlower g)) then
           attemptFlower settings g ;;;
           ret (Grower.set_hasAttemptedFlower (Some true) g)
         else ret g) ;;
  (* Increment so it eventually gets filtered out *)
  ret (Grower.incr_life g1, []).

Definition targetAngle : Q := - Math_PI / 2.

(** Heading update; returns the new [grower.angle]. *)
Definition steer (settings : PlantSettings.t) (progress : Q) (g : Grower.t)
    : M Q :=
  let life := Qnat (Grower.life g) in
  let angle := Grower.angle g in
  match PlantSettings.type settings with
  | GEOMETRIC =>
      r <- random ;;
      angle <- (if Qltb r 0.05 then
                  r2 <- random ;;
                  ret (angle + (if Qltb 0.5 r2 then 1 else -1) * (Math_PI / 6))
                else ret angle) ;;
      ret (angle + (targetAngle - angle) * 0.02)
  | BERRY =>
      let n := noise (Grower.x g * 0.02) (Grower.y g * 0.02)
                     (Grower.noiseOffset g + life * 0.05) in
      let angleChange := n * (PlantSettings.curlFactor settings * 2) in
      let angle := angle + angleChange in
      ret (angle + (targetAngle - angle) * 0.02)
  | _ =>
      if Qltb progress (PlantSettings.straightness settings) then
        let correction := (targetAngle - angle) * 0.1 in
        r <- random ;;
        let wobble := (r - 0.5) * 0.05 in
        ret (angle + (correction + wobble))
      else
        let n := noise (Grower.x g * 0.01) (Grower.y g * 0.01)
                       (Grower.noiseOffset g + life * 0.02) in
        let angleChange := n * PlantSettings.curlFactor settings in
        ret (angle + angleChange)
  end.

(** Leaf trial of a growing tick; [g] already carries the new heading and
    still the old position. *)
Definition leafTrial (settings : PlantSettings.t) (progress : Q)
    (g : Grower.t) : M unit :=
  r <- random ;;
  if Qltb r (PlantSettings.leafFrequency settings) then
    leafAngle <-
      match PlantSettings.type settings with
      | PALM =>
          r1 <- random ;;
          ret (Grower.angle g
               + (if Qltb 0.5 r1 then Math_PI / 3 else - Math_PI / 3))
      | GEOMETRIC =>
          r1 <- random ;;
          ret (Grower.angle g
               + (if Qltb 0.5 r1 then Math_PI / 2 else - Math_PI / 2))
      | UMBRELLA =>
          r1 <- random ;;
          ret (Grower.angle g + (r1 - 0.5))
      | _ =>
          r1 <- random ;;
          r2 <- random ;;
          ret (Grower.angle g
               + ((if Qltb 0.5 r1 then Math_PI / 2 else - Math_PI / 2)
                  + (r2 * 0.5 - 0.25)))
      end ;;
    let leafColor := lerpColor (PlantSettings.leafColorStart settings)
                               (PlantSettings.leafColorEnd settings)
                               progress in
    drawLeaf (Grower.ctx g) (Grower.x g) (Grower.y g) leafAngle
             (PlantSettings.leafSize settings) leafColor
             (PlantSettings.type settings)
  else ret tt.

Definition branchChance (type : PlantType) : Q :=
  match type with
  | VINE => 0.015
  | PALM => 0.005
  | GEOMETRIC => 0.04
  | UMBRELLA => 0.002
  | BERRY => 0.04
  end.

Definition branchAngleOffset (type : PlantType) : Q :=
  match type with
  | GEOMETRIC => 0.8
  | BERRY => 0.9
  | _ => 0.6
  end.

(** Branch trial of a growing tick; returns the growers it pushes. *)
Definition branchTrial (settings : PlantSettings.t) (g : Grower.t)
    : M (list Grower.t) :=
  if (Grower.generation g <? 2)%nat then
    r <- random ;;
    if Qltb r (branchChance (PlantSettings.type settings)) then
      let off := branchAngleOffset (PlantSettings.type settings) in
      r1 <- random ;;
      let branchAngle := Grower.angle g + (if Qltb 0.5 r1 then off else - off) in
      child <- createGrower (Grower.x g) (Grower.y g) (Grower.settings g)
                 (Grower.ctx g) (Grower.generation g + 1) (Some branchAngle) ;;
      ret [child]
    else ret []
  else ret [].

Definition stepGrowing (settings : PlantSettings.t) (g : Grower.t)
    : M (Grower.t * list Grower.t) :=
  let progress := Qnat (Grower.life g) / Grower.maxLife g in
  angle <- steer settings progress g ;;
  let g := Grower.set_angle angle g in
  let nextX := Grower.x g + Math_cos (Grower.angle g) * Grower.speed g in
  let nextY := Grower.y g + Math_sin (Grower.angle g) * Grower.speed g in
  let stemColor := lerpColor (PlantSettings.stemColorStart settings)
                             (PlantSettings.stemColorEnd settings)
                             progress in
  let currentWidth := Grower.width g * (1 - progress) in
  drawOn (Grower.ctx g)
    (OpStroke (Grower.x g) (Grower.y g) nextX nextY
       (Qmax 0.5 currentWidth) stemColor 0.9) ;;;
  leafTrial settings progress g ;;;
  pushed <- branchTrial settings g ;;
  ret (Grower.incr_life (Grower.set_xy nextX nextY g), pushed).

(** The callback of [growersRef.current.forEach]: the grower as the
    callback leaves it, and the growers it pushed onto the array. *)
Definition stepGrower (g : Grower.t) : M (Grower.t * list Grower.t) :=
  settings <- deref (Grower.settings g) ;;
  if isTerminal g then stepTerminal settings g
  else stepGrowing settings g.

(** [forEach] visits the elements the array had when the loop started;
    what the callbacks push is appended behind them and not visited. *)
Fixpoint forEachGrower (gs : list Grower.t)
    : M (list Grower.t * list Grower.t) :=
  match gs with
  | [] => ret ([], [])
  | g :: rest =>
      r <- stepGrower g ;;
      rs <- forEachGrower rest ;;
      ret (fst r :: fst rs, snd r ++ snd rs)
  end.

(** [g.life < g.maxLife + 50] *)
Definition keep (g : Grower.t) : bool :=
  Qltb (Qnat (Grower.life g)) (Grower.maxLife g + 50).

(** 1. Process growers, then remove dead growers. *)
Definition processGrowers : M unit :=
  gs <- get World.growers ;;
  r <- forEachGrower gs ;;
  modify (World.set_growers (filter keep (fst r ++ snd r))).

(** 2. Composite bottle plants. *)
Definition canvasOps (w : World.t) (canvas : nat) : list DrawOp :=
  match nth_error (World.offscreen w) canvas with
  | Some c => Canvas.ops c
  | None => []
  end.

Definition compositeOp (w : World.t) (plant : BottlePlant.t) : DrawOp :=
  (* Determine offset based on drag *)
  let dx := BottlePlant.currentX plant - BottlePlant.originX plant in
  OpImage (BottlePlant.canvas plant) (canvasOps w (BottlePlant.canvas plant))
          dx 0.

Definition compositeBottlePlants : M unit :=
  modify (fun w =>
    match World.canvasInside w with
    | Some ctxIn =>
        let cleared := Canvas.clearRect 0 0 (fullWidth w) (fullHeight w) ctxIn in
        World.set_canvasInside
          (Some (fold_left (fun c plant => Canvas.draw (compositeOp w plant) c)
                           (World.bottlePlants w) cleared)) w
    | None => w
    end).

(** One animation frame. *)
Definition update : M unit :=
  processGrowers ;;;
  compositeBottlePlants.

(** *** Pointer handlers

    [rect] is the result of [containerRef.current?.getBoundingClientRect()]
    and [now] the value [Date.now()] would return. *)

Definition hitTest (x y : Q) (p : BottlePlant.t) : bool :=
  Qltb (Qabs (x - BottlePlant.currentX p)) 40
  && Qltb y (BottlePlant.y p)
  && Qltb (BottlePlant.y p - 400) y.

Definition handlePointerDown (e : PointerEvent.t) (rect : option DOMRect.t)
    (now : Z) : M unit :=
  if negb (PointerEvent.button e =? 0)%Z then ret tt else
  match rect with
  | None => ret tt
  | Some rect =>
      let x := PointerEvent.clientX e - DOMRect.left rect in
      let y := PointerEvent.clientY e - DOMRect.top rect in
      plants <- get World.bottlePlants ;;
      match find (hitTest x y) plants with
      | Some clickedPlant =>
          modify (World.set_dragState
                    (Some (DragState.mk (BottlePlant.id clickedPlant) x
                             (BottlePlant.currentX clickedPlant))))
      | None =>
          (* Paint outside *)
          spawnPlant x y None false now false
      end
  end.

(** [plant.currentX = newX] on the object [find] returned: the first
    plant of the array with that id. *)
Fixpoint setCurrentX (plantId : string) (newX : Q) (ps : list BottlePlant.t)
    : list BottlePlant.t :=
  match ps with
  | [] => []
  | p :: rest =>
      if String.eqb (BottlePlant.id p) plantId
      then BottlePlant.set_currentX newX p :: rest
      else p :: setCurrentX plantId newX rest
  end.

(** The position a drag writes: the pointer offset applied to the
    position at the start of the drag, constrained to the bottle when its
    rectangle is known. *)
Definition dragTarget (d : DragState.t) (x : Q) (bottleRect : option DOMRect.t)
    (canvasRect : DOMRect.t) : Q :=
  let newX := DragState.plantStartX d + (x - DragState.startX d) in
  match bottleRect with
  | Some bRect =>
      (* Convert bottle global rect to canvas relative coords *)
      let bottleLeft := DOMRect.left bRect - DOMRect.left canvasRect in
      let bottleRight := DOMRect.right bRect - DOMRect.left canvasRect in
      (* Clamp *)
      Qmax (bottleLeft + 20) (Qmin (bottleRight - 20) newX)
  | None => newX
  end.

Definition handlePointerMove (e : PointerEvent.t) (rect : option DOMRect.t)
    (now : Z) : M unit :=
  match rect with
  | None => ret tt
  | Some rect =>
      let x := PointerEvent.clientX e - DOMRect.left rect in
      let y := PointerEvent.clientY e - DOMRect.top rect in
      drag <- get World.dragState ;;
      match drag with
      | Some d =>
          plants <- get World.bottlePlants ;;
          match find (fun p => String.eqb (BottlePlant.id p)
                                          (DragState.plantId d)) plants with
          | Some plant =>
              bottleRect <- get World.bottleRect ;;
              let newX := dragTarget d x bottleRect rect in
              modify (fun w =>
                World.set_bottlePlants
                  (setCurrentX (DragState.plantId d) newX
                               (World.bottlePlants w)) w)
          | None => ret tt
          end
          (* Don't paint if dragging *)
      | None =>
          if (PointerEvent.buttons e =? 1)%Z then
            r <- random ;;
            if Qltb 0.6 r then spawnPlant x y None false now false
            else ret tt
          else ret tt
      end
  end.

Definition handlePointerUp : M unit :=
  modify (World.set_dragState None).

End Component.

(** ** App.tsx: editing the live genome *)

Module PartialSettings.
Record t := mk {
  type : option PlantType;
  stemColorStart : option string;
  stemColorEnd : option string;
  baseWidth : option Q;
  growthSpeed : option Q;
  maxLife : option Q;
  curlFactor : option Q;
  straightness : option Q;
  leafColorStart : option string;
  leafColorEnd : option string;
  leafFrequency : option Q;
  leafSize : option Q;
  flowerColorStart : option string;
  flowerColorEnd : option string;
  flowerProbability : option Q;
  flowerSize : option Q;
  petalCount : option Q
}.
End PartialSettings.

Definition pick {A} (new : option A) (prev : A) : A :=
  match new with Some v => v | None => prev end.

(** The object literal [{ ...prev, ...newSettings }]. *)
Definition spread (prev : PlantSettings.t) (n : PartialSettings.t)
    : PlantSettings.t :=
  PlantSettings.mk
    (pick (PartialSettings.type n) (PlantSettings.type prev))
    (pick (PartialSettings.stemColorStart n) (PlantSettings.stemColorStart prev))
    (pick (PartialSettings.stemColorEnd n) (PlantSettings.stemColorEnd prev))
    (pick (PartialSettings.baseWidth n) (PlantSettings.baseWidth prev))
    (pick (PartialSettings.growthSpeed n) (PlantSettings.growthSpeed prev))
    (pick (PartialSettings.maxLife n) (PlantSettings.maxLife prev))
    (pick (PartialSettings.curlFactor n) (PlantSettings.curlFactor prev))
    (pick (PartialSettings.straightness n) (PlantSettings.straightness prev))
    (pick (PartialSettings.leafColorStart n) (PlantSettings.leafColorStart prev))
    (pick (PartialSettings.leafColorEnd n) (PlantSettings.leafColorEnd prev))
    (pick (PartialSettings.leafFrequency n) (PlantSettings.leafFrequency prev))
    (pick (PartialSettings.leafSize n) (PlantSettings.leafSize prev))
    (pick (PartialSettings.flowerColorStart n)
          (PlantSettings.flowerColorStart prev))
    (pick (PartialSettings.flowerColorEnd n) (PlantSettings.flowerColorEnd prev))
    (pick (PartialSettings.flowerProbability n)
          (PlantSettings.flowerProbability prev))
    (pick (PartialSettings.flowerSize n) (PlantSettings.flowerSize prev))
    (pick (PartialSettings.petalCount n) (PlantSettings.petalCount prev)).

(** [setSettings(prev => ({ ...prev, ...newSettings }))] *)
Definition updateSettings (newSettings : PartialSettings.t) : M unit :=
  live <- get World.settings ;;
  prev <- deref live ;;
  r <- alloc (spread prev newSettings) ;;
  modify (World.set_settings r).

Definition applyPreset (type : PlantType) : M unit :=
  modify (World.set_settings (presetRef type)).

(** The value [JSON.parse(decoded) as PlantSettings].  The cast checks
    nothing: the two fields the validation tests may be missing, [None],
    which for [type] also stands for the empty string. *)
Module Parsed.
Record t := mk {
  type : option PlantType;
  stemColorStart : option string;
  stemColorEnd : string;
  baseWidth : Q;
  growthSpeed : Q;
  maxLife : Q;
  curlFactor : Q;
  straightness : Q;
  leafColorStart : string;
  leafColorEnd : string;
  leafFrequency : Q;
  leafSize : Q;
  flowerColorStart : string;
  flowerColorEnd : string;
  flowerProbability : Q;
  flowerSize : Q;
  petalCount : Q
}.

(** The object read as settings.  The fillers are read only when a field
    the validation found is missing, that is never. *)
Definition settings (p : t) : PlantSettings.t :=
  PlantSettings.mk
    (match type p with Some v => v | None => VINE end)
    (match stemColorStart p with Some c => c | None => EmptyString end)
    (stemColorEnd p) (baseWidth p) (growthSpeed p) (maxLife p)
    (curlFactor p) (straightness p) (leafColorStart p) (leafColorEnd p)
    (leafFrequency p) (leafSize p) (flowerColorStart p) (flowerColorEnd p)
    (flowerProbability p) (flowerSize p) (petalCount p).

(** What decoding gives back for the string [handleSettingsCopied] made
    of a settings object. *)
Definition ofSettings (s : PlantSettings.t) : t :=
  mk (Some (PlantSettings.type s)) (Some (PlantSettings.stemColorStart s))
     (PlantSettings.stemColorEnd s) (PlantSettings.baseWidth s)
     (PlantSettings.growthSpeed s) (PlantSettings.maxLife s)
     (PlantSettings.curlFactor s) (PlantSettings.straightness s)
     (PlantSettings.leafColorStart s) (PlantSettings.leafColorEnd s)
     (PlantSettings.leafFrequency s) (PlantSettings.leafSize s)
     (PlantSettings.flowerColorStart s) (PlantSettings.flowerColorEnd s)
     (PlantSettings.flowerProbability s) (PlantSettings.flowerSize s)
     (PlantSettings.petalCount s).
End Parsed.

(** A string field in a condition: present and not empty. *)
Definition truthyString (o : option string) : bool :=
  match o with
  | Some c => negb (String.eqb c "")
  | None => false
  end.

(** An enumerated field in a condition. *)
Definition present {A} (o : option A) : bool :=
  match o with Some _ => true | None => false end.

Section App.
Context {host : Host}.

(** [setClearTrigger(prev => prev + 1)] and the effect it triggers. *)
Definition handleClear : M unit :=
  modify (fun w => World.set_clearTrigger (S (World.clearTrigger w)) w) ;;;
  clearEffect.

Definition handleUndo : M unit := undoLastBottlePlant.

(** [handleImport] on a value that decoded to [parsed]; [bottle] is the
    spawn point computed from the bottle element when it and the canvas
    are mounted. *)
Definition handleImport (parsed : Parsed.t) (bottle : option (Q * Q))
    (now : Z) (offCtx : bool) : M unit :=
  (* Validate minimally *)
  if truthyString (Parsed.stemColorStart parsed)
     && present (Parsed.type parsed) then
    r <- alloc (Parsed.settings parsed) ;;
    modify (World.set_settings r) ;;;
    match bottle with
    | Some (x, y) =>
        (* Spawn INSIDE bottle *)
        spawnPlant x y (Some r) true now offCtx
    | None => ret tt
    end
  else ret tt.

(** Every edit of the live genome the interface offers. *)
Inductive Edit :=
| EditFields (newSettings : PartialSettings.t)
| EditPreset (type : PlantType)
| EditImport (parsed : Parsed.t).

Definition applyEdit (e : Edit) : M unit :=
  match e with
  | EditFields n => updateSettings n
  | EditPreset t => applyPreset t
  | EditImport parsed => handleImport parsed None 0%Z false
  end.

(** *** Running the application *)

Inductive Action :=
| Frame
| PointerDown (e : PointerEvent.t) (rect : option DOMRect.t) (now : Z)
| PointerMove (e : PointerEvent.t) (rect : option DOMRect.t) (now : Z)
| PointerUp
| Undo
| Clear
| Resize (d : Dimensions.t)
| BottleRect (rect : DOMRect.t)
| UpdateSettings (newSettings : PartialSettings.t)
| ApplyPreset (type : PlantType)
| Import (parsed : Parsed.t) (bottle : option (Q * Q)) (now : Z)
         (offCtx : bool).

Definition act (a : Action) : M unit :=
  match a with
  | Frame => update
  | PointerDown e rect now => handlePointerDown e rect now
  | PointerMove e rect now => handlePointerMove e rect now
  | PointerUp => handlePointerUp
  | Undo => handleUndo
  | Clear => handleClear
  | Resize d => handleResize d
  | BottleRect rect => updateBottleRect rect
  | UpdateSettings n => updateSettings n
  | ApplyPreset t => applyPreset t
  | Import parsed bottle now offCtx => handleImport parsed bottle now offCtx
  end.

Fixpoint run (actions : list Action) (w : World.t) : World.t :=
  match actions with
  | [] => w
  | a :: rest => run rest (exec (act a) w)
  end.

(** The state at the first render: both canvas elements mounted with the
    default size of a canvas, all collections empty. *)
Definition initialWorld : World.t :=
  World.mk presetHeap 0%nat 0%nat (Dimensions.mk 0 0)
    (Some (Canvas.create 300 150)) (Some (Canvas.create 300 150))
    [] [] [] [] None None 0%nat.

(** Mounting runs the effects once with the initial dimensions and once
    more with the measured size of the container. *)
Definition mount (d : Dimensions.t) : World.t :=
  exec (resizeEffect ;;; clearEffect ;;; handleResize d) initialWorld.

End App.

(** ** GardenCanvas.tsx: handleContextMenu

    Right click copies the settings of the closest plant of the history.
    [Math.sqrt] is a host function; it is a parameter of this section. *)

Section ContextMenu.
Variable Math_sqrt : Q -> Q.

(** [Math.sqrt(dx*dx + dy*dy)] for one item of the history. *)
Definition distanceTo (clientX clientY : Q) (item : PlantHistoryItem.t) : Q :=
  let dx := PlantHistoryItem.x item - clientX in
  let dy := PlantHistoryItem.y item - clientY in
  Math_sqrt (dx * dx + dy * dy).

(** The loop [for (const item of plantHistoryRef.current)], started with
    the current values of [closest] and [minDist]. *)
Fixpoint closestFrom (clientX clientY : Q) (items : list PlantHistoryItem.t)
    (closest : option PlantHistoryItem.t) (minDist : Q)
    : option PlantHistoryItem.t :=
  match items with
  | [] => closest
  | item :: rest =>
      let dist := distanceTo clientX clientY item in
      if Qltb dist minDist
      then closestFrom clientX clientY rest (Some item) dist
      else closestFrom clientX clientY rest closest minDist
  end.

(** The handler; its result is the settings object it hands to
    [onSettingsCopied], [None] when it returns before calling it. *)
Definition handleContextMenu (e : PointerEvent.t) (rect : option DOMRect.t)
    : M (option Ref) :=
  match rect with
  | None => ret None
  | Some rect =>
      let clientX := PointerEvent.clientX e - DOMRect.left rect in
      let clientY := PointerEvent.clientY e - DOMRect.top rect in
      history <- get World.plantHistory ;;
      settings <- get World.settings ;;
      match closestFrom clientX clientY history None 100 with
      | Some closest => ret (Some (PlantHistoryItem.settings closest))
      | None => ret (Some settings)
      end
  end.

End ContextMenu.

(** ** Sample hosts and states

    Concrete environments on which the statements below are exercised. *)

Definition digits (q : Q) : string :=
  NilZero.string_of_uint (N.to_uint (Z.to_N (Qnum q))).

(** A host whose random source is [rnd]; ids are the decimal digits of the
    numerator of the draw, after the two characters [substr] skips. *)
Definition hostWith (rnd : nat -> Q) : Host :=
  {| Math_random := rnd;
     Math_cos := fun _ => 0;
     Math_sin := fun _ => -1;
     noise := fun _ _ _ => 0;
     toString36 := fun q => ("0." ++ digits q)%string;
     parseInt16 := fun _ => Some 128%Z |}.

(** Every trial succeeds. *)
Definition eagerHost : Host := hostWith (fun n => Z.of_nat n # 1000).

(** No trial succeeds. *)
Definition idleHost : Host := hostWith (fun _ => 0.99).

Definition sampleDimensions : Dimensions.t := Dimensions.mk 800 600.

(** A mounted garden with the bottle rectangle registered. *)
Definition sampleWorld : World.t :=
  exec (updateBottleRect (DOMRect.mk 0 0 300 280)) (mount sampleDimensions).

Definition origin : DOMRect.t := DOMRect.mk 0 0 800 600.

Definition press (x y : Q) : PointerEvent.t := PointerEvent.mk 0 1 x y.

(** Units and a contained plant at chosen points of their life. *)

(** A generation-0 unit one tick before the end of its grace period. *)
Definition elder : Grower.t :=
  Grower.mk "elder" 10 20 0 329 280 6 3 "#86efac" 0%nat 0 0 (CtxOff 0)
    (Some true).

(** A young unit on the outside canvas. *)
Definition sprout : Grower.t :=
  Grower.mk "sprout" 100 100 (-1.5) 5 280 6 3 "#86efac" 0%nat 0 0 CtxOutside
    None.

(** A unit of the last generation. *)
Definition twig : Grower.t :=
  Grower.mk "twig" 100 100 (-1.5) 5 (280 / 3) 2 3 "#86efac" 0%nat 0 2
    CtxOutside None.

Definition pot : BottlePlant.t :=
  BottlePlant.mk "pot" 50 50 100 0 (CtxOff 0) 0%nat.

Definition gardenWorld : World.t :=
  World.set_growers [elder; sprout; twig]
    (World.set_bottlePlants [pot]
       (World.set_offscreen [Canvas.create 800 600] sampleWorld)).

(** A unit whose life ends after two ticks. *)
Definition bud : Grower.t :=
  Grower.mk "bud" 100 100 (-1.5) 0 2 6 3 "#86efac" 0%nat 0 0 CtxOutside None.

(** A drag session on the contained plant, started at x = 50. *)
Definition dragWorld : World.t :=
  World.set_dragState (Some (DragState.mk "pot" 50 50)) gardenWorld.

(** The same session after the plant was undone. *)
Definition staleWorld : World.t := exec undoLastBottlePlant dragWorld.




(** A short session: a plant painted outside, a frame, a plant imported
    into the bottle, another frame. *)
Definition sampleSession : list Action :=
  [PointerDown (press 100 100) (Some origin) 5%Z;
   Frame;
   Import (Parsed.ofSettings PRESET_PALM) (Some (150, 280)) 6%Z true;
   Frame].

Definition shorterLife : PartialSettings.t :=
  PartialSettings.mk None None None None None (Some 50) None None None None
    None None None None None None None.

(** A host that reads hexadecimal digits as [parseInt(s, 16)] does: the
    longest prefix of digits, and NaN when there is none. *)
Definition hexDigit (a : ascii) : option Z :=
  let n := Z.of_nat (nat_of_ascii a) in
  if ((48 <=? n) && (n <=? 57))%Z then Some (n - 48)%Z
  else if ((97 <=? n) && (n <=? 102))%Z then Some (n - 87)%Z
  else if ((65 <=? n) && (n <=? 70))%Z then Some (n - 55)%Z
  else None.

Fixpoint hexValue (acc : option Z) (s : string) : option Z :=
  match s with
  | EmptyString => acc
  | String a r =>
      match hexDigit a with
      | Some d =>
          hexValue
            (Some (16 * match acc with Some v => v | None => 0 end + d)%Z) r
      | None => acc
      end
  end.

Definition hexHost : Host :=
  {| Math_random := fun _ => 0.99;
     Math_cos := fun _ => 0;
     Math_sin := fun _ => -1;
     noise := fun _ _ _ => 0;
     toString36 := fun q => ("0." ++ digits q)%string;
     parseInt16 := hexValue None |}.

(** Decoded values that the import rejects: one whose stemColorStart is
    empty, one that has no type. *)
Definition blankGenome : Parsed.t :=
  Parsed.mk (Some VINE) (Some EmptyString) "#2dd4bf" 6 3 280 0.08 0.4
    "#bef264" "#10b981" 0.1 12 "#fca5a5" "#c4b5fd" 0.7 20 7.

Definition untypedGenome : Parsed.t :=
  Parsed.mk None (Some "#86efac"%string) "#2dd4bf" 6 3 280 0.08 0.4
    "#bef264" "#10b981" 0.1 12 "#fca5a5" "#c4b5fd" 0.7 20 7.

(** A plant imported into the bottle and undone: nothing is live. *)
Definition quietSession : list Action :=
  [Import (Parsed.ofSettings PRESET_PALM) (Some (150, 280)) 6%Z true; Frame; Undo].

(** Three pointer-moves of a drag: one across the bottle, one while the
    container has no rectangle, one back. *)
Definition strokes : list (PointerEvent.t * option DOMRect.t * Z) :=
  [(press 100 50, Some origin, 6%Z); (press 500 50, None, 7%Z)].

(** * Vocabulary of the statements *)

Section Vocabulary.
Context {host : Host}.

(** A relation between the state before and after that a computation
    respects, whatever it returns. *)
Definition keeps (R : World.t -> World.t -> Prop) {A} (m : M A) : Prop :=
  forall w, R w (exec m w).

Definition isFlower (op : DrawOp) : bool :=
  match op with OpFlower _ _ _ _ _ _ _ _ => true | _ => false end.

(** Requests a grower makes on its surface. *)
Definition growthOp (op : DrawOp) : bool :=
  match op with
  | OpStroke _ _ _ _ _ _ _ | OpLeaf _ _ _ _ _ _
  | OpFlower _ _ _ _ _ _ _ _ => true
  | _ => false
  end.

(** [extends P c c']: [c'] is [c] with further requests, all in [P]. *)
Definition extends (P : DrawOp -> bool) (c c' : Canvas.t) : Prop :=
  Canvas.width c' = Canvas.width c /\ Canvas.height c' = Canvas.height c
  /\ exists new, Canvas.ops c' = Canvas.ops c ++ new
                 /\ forallb P new = true.

Definition extendsOpt (P : DrawOp -> bool) (c c' : option Canvas.t) : Prop :=
  match c, c' with
  | Some a, Some b => extends P a b
  | None, None => True
  | _, _ => False
  end.

(** [painted P w w']: from [w] to [w'] nothing happened but random draws
    and requests in [P] on the canvases growers draw on. *)
Record painted (P : DrawOp -> bool) (w w' : World.t) : Prop := {
  painted_heap : World.heap w' = World.heap w;
  painted_settings : World.settings w' = World.settings w;
  painted_clearTrigger : World.clearTrigger w' = World.clearTrigger w;
  painted_dimensions : World.dimensions w' = World.dimensions w;
  painted_canvasInside : World.canvasInside w' = World.canvasInside w;
  painted_growers : World.growers w' = World.growers w;
  painted_bottlePlants : World.bottlePlants w' = World.bottlePlants w;
  painted_plantHistory : World.plantHistory w' = World.plantHistory w;
  painted_bottleRect : World.bottleRect w' = World.bottleRect w;
  painted_dragState : World.dragState w' = World.dragState w;
  painted_randomCalls : (World.randomCalls w <= World.randomCalls w')%nat;
  painted_canvasOutside :
    extendsOpt P (World.canvasOutside w) (World.canvasOutside w');
  painted_offscreen :
    Forall2 (extends P) (World.offscreen w) (World.offscreen w')
}.

Definition grew : World.t -> World.t -> Prop := painted growthOp.

(** Strokes and leaves, the requests of a growing tick. *)
Definition stemOp (op : DrawOp) : bool :=
  match op with
  | OpStroke _ _ _ _ _ _ _ | OpLeaf _ _ _ _ _ _ => true
  | _ => false
  end.

(** A unit and what one step makes of it, in some state of the world. *)
Definition steppedFrom (g g' : Grower.t) : Prop :=
  exists w, g' = fst (eval (stepGrower g) w).

(** The result of [createGrower] for a given generation: lifetime and
    width are those of the settings divided by generation + 1. *)
Definition scaled (heap : list PlantSettings.t) (u : Grower.t) : Prop :=
  let s := nth (Grower.settings u) heap PRESET_VINE in
  Grower.maxLife u
  = PlantSettings.maxLife s / Qnat (Grower.generation u + 1)
  /\ Grower.width u
     = PlantSettings.baseWidth s / Qnat (Grower.generation u + 1).

(** The states a unit goes through: [lifeline g0 k g] when [g] is what
    [k] steps, each in some state of the world, made of [g0]. *)
Inductive lifeline (g0 : Grower.t) : nat -> Grower.t -> Prop :=
| lifeline_start : lifeline g0 0 g0
| lifeline_step k g g' :
    lifeline g0 k g -> steppedFrom g g' -> lifeline g0 (S k) g'.

(** Whether the unit that starts as [g0] is terminal at its k-th tick. *)
Definition terminalAt (g0 : Grower.t) (k : nat) : bool :=
  Qle_bool (Grower.maxLife g0) (Qnat (Grower.life g0 + k))
  || Qltb (Grower.width g0) 0.1.

Definition flowersOn (c : Canvas.t) : nat :=
  List.length (filter isFlower (Canvas.ops c)).

(** Number of flowers drawn so far on the canvases growers draw on. *)
Definition flowerCount (w : World.t) : nat :=
  (match World.canvasOutside w with Some c => flowersOn c | None => 0 end
   + list_sum (map flowersOn (World.offscreen w)))%nat.

(** Every reference held by the state is the address of an allocated
    settings object, the presets sit at the first five addresses, and no
    unit is of a generation beyond 2. *)
Record wellFormed (w : World.t) : Prop := {
  wf_presets : firstn 5 (World.heap w) = presetHeap;
  wf_settings : (World.settings w < List.length (World.heap w))%nat;
  wf_growers :
    Forall (fun g => (Grower.settings g < List.length (World.heap w))%nat)
           (World.growers w);
  wf_plantHistory :
    Forall (fun h =>
              (PlantHistoryItem.settings h < List.length (World.heap w))%nat)
           (World.plantHistory w);
  wf_bottlePlants :
    Forall (fun p => (BottlePlant.settings p < List.length (World.heap w))%nat)
           (World.bottlePlants w);
  wf_generation :
    Forall (fun g => (Grower.generation g <= 2)%nat) (World.growers w)
}.

(** The heap only grows: objects are allocated, never written. *)
Definition heapGrows (w w' : World.t) : Prop :=
  exists fresh, World.heap w' = World.heap w ++ fresh.

(** Both canvas elements are mounted and the inside canvas has the size
    of the component. *)
Record mounted (w : World.t) : Prop := {
  mounted_outside : exists c, World.canvasOutside w = Some c;
  mounted_inside :
    exists cv, World.canvasInside w = Some cv
               /\ Canvas.width cv = Dimensions.width (World.dimensions w)
               /\ Canvas.height cv = Dimensions.height (World.dimensions w)
}.

(** Nothing happened to the two canvases of the component. *)
Definition sameCanvases (w w' : World.t) : Prop :=
  World.canvasInside w' = World.canvasInside w
  /\ World.dimensions w' = World.dimensions w
  /\ World.canvasOutside w' = World.canvasOutside w.

(** The history never holds more than 50 items, every unit has the
    lifetime and width [createGrower] gave it for its settings and
    generation, every contained plant owns an allocated canvas of its own,
    and every unit that does not draw outside draws on the canvas of a
    contained plant. *)
Record tidy (w : World.t) : Prop := {
  tidy_history : (List.length (World.plantHistory w) <= 50)%nat;
  tidy_scaled : Forall (scaled (World.heap w)) (World.growers w);
  tidy_plants :
    Forall (fun p =>
              BottlePlant.ctx p = CtxOff (BottlePlant.canvas p)
              /\ (BottlePlant.canvas p < List.length (World.offscreen w))%nat)
           (World.bottlePlants w);
  tidy_canvases : NoDup (map BottlePlant.canvas (World.bottlePlants w));
  tidy_growers :
    Forall (fun g =>
              forall i, Grower.ctx g = CtxOff i ->
                        In i (map BottlePlant.canvas (World.bottlePlants w)))
           (World.growers w)
}.

(** Nothing happened to the drag session, the rectangle of the bottle,
    the live settings and the clear counter. *)
Definition sameSession (w w' : World.t) : Prop :=
  World.dragState w' = World.dragState w
  /\ World.bottleRect w' = World.bottleRect w
  /\ World.settings w' = World.settings w
  /\ World.clearTrigger w' = World.clearTrigger w.

(** A bound on the number of ticks a unit and its descendants can still
    be live, when no settings object has a maxLife above [M]: the ticks
    left to the unit itself, and a full life for each generation that can
    still follow. *)
Definition remaining (M : nat) (g : Grower.t) : nat :=
  ((2 - Grower.generation g) * (M + 50) + (M + 50 - Grower.life g))%nat.

(** [n] animation frames in a row. *)
Definition frames (n : nat) : list Action := repeat Frame n.

(** A pointer-move event as an action: the event, the bounding rectangle
    of the container at that time, and the clock. *)
Definition moveAction (m : PointerEvent.t * option DOMRect.t * Z) : Action :=
  let '(e, rect, now) := m in PointerMove e rect now.

(** No settings object has a maxLife above [M]. *)
Definition boundedLife (M : nat) (w : World.t) : Prop :=
  Forall (fun s => PlantSettings.maxLife s <= Qnat M) (World.heap w).

(** The states the moves of one drag session [d] go through, from the
    state [w1] in which it started: all of [w1] but the position of the
    plant of the session. *)
Definition dragging (d : DragState.t) (w1 w : World.t) : Prop :=
  w = World.set_bottlePlants (World.bottlePlants w) w1
  /\ (forall t, setCurrentX (DragState.plantId d) t (World.bottlePlants w)
                = setCurrentX (DragState.plantId d) t (World.bottlePlants w1))
  /\ exists q,
       find (fun p => String.eqb (BottlePlant.id p) (DragState.plantId d))
            (World.bottlePlants w) = Some q.

(** Every canvas of a plant that existed is still there, at the same
    index and of the same size, and holds what it held followed by
    strokes, leaves and flowers only. *)
Definition keptSurfaces (w w' : World.t) : Prop :=
  forall i c,
    nth_error (World.offscreen w) i = Some c ->
    exists c', nth_error (World.offscreen w') i = Some c'
               /\ extends growthOp c c'.

(** The canvas a context draws on, if it is there. *)
Definition surface (c : Ctx) (w : World.t) : option Canvas.t :=
  match c with
  | CtxOutside => World.canvasOutside w
  | CtxOff i => nth_error (World.offscreen w) i
  end.

(** Nothing is drawn. *)
Definition noOp (op : DrawOp) : bool := false.

End Vocabulary.

(** * Properties *)

Unset Implicit Arguments.

(** ** Comparisons *)

Lemma Qltb_lt (a b : Q) : Qltb a b = true <-> a < b.
Proof.
  unfold Qltb. rewrite negb_true_iff.
  split; intro H.
  - apply Qnot_le_lt. intro L. apply Qle_bool_iff in L. congruence.
  - destruct (Qle_bool b a) eqn:E; [|reflexivity].
    apply Qle_bool_iff in E. exfalso. exact (Qlt_not_le _ _ H E).
Qed.

Lemma Qnat_S (n : nat) : Qnat (S n) == Qnat n + 1.
Proof.
  unfold Qnat. rewrite Nat2Z.inj_succ. unfold Z.succ.
  rewrite inject_Z_plus. reflexivity.
Qed.

Lemma Qnat_pos (n : nat) : 0 < Qnat (n + 1).
Proof.
  unfold Qnat. change 0 with (inject_Z 0). rewrite <- Zlt_Qlt. lia.
Qed.

Lemma Qnat_lt (n m : nat) : (n < m)%nat -> Qnat n < Qnat m.
Proof.
  intro H. unfold Qnat. rewrite <- Zlt_Qlt. lia.
Qed.

Lemma Ctx_eqb_eq (a b : Ctx) : Ctx_eqb a b = true <-> a = b.
Proof.
  destruct a, b; simpl; split; intro H; try congruence.
  - apply Nat.eqb_eq in H. congruence.
  - inversion H. apply Nat.eqb_refl.
Qed.

(** ** Running computations *)

Lemma bind_run {A B} (m : M A) (k : A -> M B) (w : World.t) :
  bind m k w = k (fst (m w)) (snd (m w)).
Proof. unfold bind. destruct (m w). reflexivity. Qed.

Lemma exec_bind {A B} (m : M A) (k : A -> M B) (w : World.t) :
  exec (bind m k) w = exec (k (eval m w)) (exec m w).
Proof. unfold exec, eval. rewrite bind_run. reflexivity. Qed.

Lemma eval_bind {A B} (m : M A) (k : A -> M B) (w : World.t) :
  eval (bind m k) w = eval (k (eval m w)) (exec m w).
Proof. unfold exec, eval. rewrite bind_run. reflexivity. Qed.


Section Keeps.
Variable R : World.t -> World.t -> Prop.
Hypothesis R_refl : forall w, R w w.
Hypothesis R_trans : forall a b c, R a b -> R b c -> R a c.

Lemma keeps_ret {A} (a : A) : keeps R (ret a).
Proof. intro w. apply R_refl. Qed.

Lemma keeps_get {A} (f : World.t -> A) : keeps R (get f).
Proof. intro w. apply R_refl. Qed.

Lemma keeps_bind {A B} (m : M A) (k : A -> M B) :
  keeps R m -> (forall a, keeps R (k a)) -> keeps R (bind m k).
Proof.
  intros Hm Hk w. rewrite exec_bind.
  eapply R_trans; [apply Hm | apply Hk].
Qed.

Lemma keeps_when (b : bool) (m : M unit) : keeps R m -> keeps R (when b m).
Proof. intro H. destruct b; simpl; [exact H | apply keeps_ret]. Qed.

End Keeps.

(** ** createGrower *)

Section Properties.
Context {host : Host}.

Lemma createGrower_fields x y ps ctx generation initialAngle w :
  let u := eval (createGrower x y ps ctx generation initialAngle) w in
  let s := nth ps (World.heap w) PRESET_VINE in
  Grower.x u = x /\ Grower.y u = y /\ Grower.life u = 0%nat
  /\ Grower.maxLife u = PlantSettings.maxLife s / Qnat (generation + 1)
  /\ Grower.width u = PlantSettings.baseWidth s / Qnat (generation + 1)
  /\ Grower.settings u = ps /\ Grower.generation u = generation
  /\ Grower.ctx u = ctx /\ Grower.hasAttemptedFlower u = None.
Proof.
  destruct initialAngle; cbv [createGrower eval uuid random deref get ret bind];
    simpl; repeat split; reflexivity.
Qed.

(** ** What a step of a grower leaves alone

    Stepping growers only draws and consumes random numbers: every cell
    of the state except the canvases a grower draws on and the count of
    random draws stays as it was, and on those canvases requests are only
    added, all of them strokes, leaves or flowers. *)


Section Painted.
Variable P : DrawOp -> bool.

Lemma extends_refl c : extends P c c.
Proof.
  repeat split. exists []. rewrite app_nil_r. split; reflexivity.
Qed.

Lemma extends_trans a b c : extends P a b -> extends P b c -> extends P a c.
Proof.
  intros (W1 & H1 & n1 & E1 & F1) (W2 & H2 & n2 & E2 & F2).
  repeat split; try congruence.
  exists (n1 ++ n2). rewrite E2, E1, app_assoc. split; [reflexivity|].
  rewrite forallb_app, F1, F2. reflexivity.
Qed.

Lemma extends_draw op c : P op = true -> extends P c (Canvas.draw op c).
Proof.
  intro H. repeat split. exists [op]. split; [reflexivity|].
  simpl. rewrite H. reflexivity.
Qed.

Lemma extendsOpt_refl c : extendsOpt P c c.
Proof. destruct c; simpl; [apply extends_refl | exact I]. Qed.

Lemma extendsOpt_trans a b c :
  extendsOpt P a b -> extendsOpt P b c -> extendsOpt P a c.
Proof.
  destruct a, b, c; simpl; try tauto. apply extends_trans.
Qed.

Lemma Forall2_extends_refl l : Forall2 (extends P) l l.
Proof. induction l; constructor; [apply extends_refl | assumption]. Qed.

Lemma Forall2_extends_trans a b c :
  Forall2 (extends P) a b -> Forall2 (extends P) b c ->
  Forall2 (extends P) a c.
Proof.
  intro H. revert c. induction H; intros c0 H2; inversion H2; subst;
    constructor; [eapply extends_trans; eassumption | auto].
Qed.

Lemma Forall2_extends_updateAt op i l :
  P op = true -> Forall2 (extends P) l (updateAt i (Canvas.draw op) l).
Proof.
  intro H. revert i.
  induction l as [|c l IH]; intro i; destruct i; simpl; constructor;
    auto using extends_refl, extends_draw, Forall2_extends_refl.
Qed.

Lemma painted_refl w : painted P w w.
Proof.
  constructor; auto using extendsOpt_refl, Forall2_extends_refl.
Qed.

Lemma painted_trans a b c : painted P a b -> painted P b c -> painted P a c.
Proof.
  intros [] []. constructor; try congruence.
  - lia.
  - eapply extendsOpt_trans; eassumption.
  - eapply Forall2_extends_trans; eassumption.
Qed.

Lemma painted_bind {A B} (m : M A) (k : A -> M B) :
  keeps (painted P) m -> (forall a, keeps (painted P) (k a)) ->
  keeps (painted P) (bind m k).
Proof. apply keeps_bind. exact painted_trans. Qed.

Lemma painted_random : keeps (painted P) random.
Proof.
  intro w. constructor; simpl;
    auto using extendsOpt_refl, Forall2_extends_refl.
Qed.

Lemma painted_deref r : keeps (painted P) (deref r).
Proof. apply keeps_get. apply painted_refl. Qed.

Lemma painted_drawOn c op : P op = true -> keeps (painted P) (drawOn c op).
Proof.
  intros H w. destruct c; constructor; simpl;
    auto using extendsOpt_refl, Forall2_extends_refl,
               Forall2_extends_updateAt.
  destruct (World.canvasOutside w); simpl; auto using extends_draw.
Qed.

Create HintDb frame.
#[local] Hint Resolve painted_random painted_deref painted_drawOn : frame.

(** Decomposes a goal [keeps (painted P) m] along the structure of [m]. *)
Ltac frame :=
  repeat first
    [ apply painted_bind; [|intro]
    | apply keeps_ret; apply painted_refl
    | apply keeps_get; apply painted_refl
    | apply keeps_when; [apply painted_refl|]
    | solve [auto with frame]
    | match goal with
      | |- keeps _ (if ?b then _ else _) => destruct b
      | |- keeps _ (match ?x with _ => _ end) => destruct x
      end ].

Lemma painted_randoms n : keeps (painted P) (randoms n).
Proof. induction n; simpl; frame. Qed.
#[local] Hint Resolve painted_randoms : frame.

Lemma painted_uuid : keeps (painted P) uuid.
Proof. unfold uuid. frame. Qed.
#[local] Hint Resolve painted_uuid : frame.

Lemma painted_createGrower x y ps c g a :
  keeps (painted P) (createGrower x y ps c g a).
Proof. unfold createGrower. frame. Qed.
#[local] Hint Resolve painted_createGrower : frame.

Lemma painted_steer s p g : keeps (painted P) (steer s p g).
Proof. unfold steer. frame. Qed.

Lemma painted_branchTrial s g : keeps (painted P) (branchTrial s g).
Proof. unfold branchTrial. frame. Qed.
#[local] Hint Resolve painted_steer painted_branchTrial : frame.

(** A growing tick requests strokes and leaves. *)
Hypothesis P_stem : forall op, stemOp op = true -> P op = true.

Lemma painted_drawLeaf c x y a b col t :
  keeps (painted P) (drawLeaf c x y a b col t).
Proof. unfold drawLeaf. frame. Qed.
#[local] Hint Resolve painted_drawLeaf : frame.

Lemma painted_leafTrial s p g : keeps (painted P) (leafTrial s p g).
Proof. unfold leafTrial. frame. Qed.
#[local] Hint Resolve painted_leafTrial : frame.

Lemma painted_stepGrowing s g : keeps (painted P) (stepGrowing s g).
Proof. unfold stepGrowing. frame. Qed.
#[local] Hint Resolve painted_stepGrowing : frame.

(** A terminal tick may request a flower. *)
Hypothesis P_flower : forall op, isFlower op = true -> P op = true.

Lemma painted_drawFlower c x y b s e p t :
  keeps (painted P) (drawFlower c x y b s e p t).
Proof. unfold drawFlower. frame. Qed.
#[local] Hint Resolve painted_drawFlower : frame.

Lemma painted_attemptFlower s g : keeps (painted P) (attemptFlower s g).
Proof. unfold attemptFlower. frame. Qed.
#[local] Hint Resolve painted_attemptFlower : frame.

Lemma painted_stepTerminal s g : keeps (painted P) (stepTerminal s g).
Proof. unfold stepTerminal. frame. Qed.
#[local] Hint Resolve painted_stepTerminal : frame.

Lemma painted_stepGrower g : keeps (painted P) (stepGrower g).
Proof. unfold stepGrower. frame. Qed.
#[local] Hint Resolve painted_stepGrower : frame.

Lemma painted_forEachGrower gs : keeps (painted P) (forEachGrower gs).
Proof. induction gs; simpl; frame. Qed.

End Painted.

Lemma growthOp_stem op : stemOp op = true -> growthOp op = true.
Proof. destruct op; simpl; congruence. Qed.

Lemma growthOp_flower op : isFlower op = true -> growthOp op = true.
Proof. destruct op; simpl; congruence. Qed.

Lemma grew_refl w : grew w w.
Proof. apply painted_refl. Qed.

Lemma grew_trans a b c : grew a b -> grew b c -> grew a c.
Proof. apply painted_trans. Qed.

Lemma grew_steer s p g : keeps grew (steer s p g).
Proof. apply painted_steer. Qed.

Lemma grew_drawOn c op : growthOp op = true -> keeps grew (drawOn c op).
Proof. apply painted_drawOn. Qed.

Lemma grew_leafTrial s p g : keeps grew (leafTrial s p g).
Proof. apply painted_leafTrial. exact growthOp_stem. Qed.

Lemma grew_createGrower x y ps c g a : keeps grew (createGrower x y ps c g a).
Proof. apply painted_createGrower. Qed.

Lemma grew_stepGrower g : keeps grew (stepGrower g).
Proof.
  apply painted_stepGrower; [exact growthOp_stem | exact growthOp_flower].
Qed.

Lemma grew_forEachGrower gs : keeps grew (forEachGrower gs).
Proof.
  apply painted_forEachGrower; [exact growthOp_stem | exact growthOp_flower].
Qed.

(** ** What a step of a grower returns *)

Lemma stepTerminal_eval s g w :
  eval (stepTerminal s g) w
  = (Grower.incr_life
       (if truthy (Grower.hasAttemptedFlower g) then g
        else Grower.set_hasAttemptedFlower (Some true) g), []).
Proof.
  unfold stepTerminal. rewrite eval_bind.
  destruct (truthy (Grower.hasAttemptedFlower g)); simpl.
  - reflexivity.
  - rewrite eval_bind. reflexivity.
Qed.

(** The growers a branch trial pushes: none, or one child made by
    [createGrower] from the parent's position, settings and context, one
    generation further. *)
Lemma branchTrial_eval s g w :
  eval (branchTrial s g) w = []
  \/ ((Grower.generation g < 2)%nat
      /\ exists a w1,
           World.heap w1 = World.heap w
           /\ eval (branchTrial s g) w
              = [eval (createGrower (Grower.x g) (Grower.y g)
                         (Grower.settings g) (Grower.ctx g)
                         (Grower.generation g + 1) (Some a)) w1]).
Proof.
  unfold branchTrial.
  destruct (Nat.ltb_spec (Grower.generation g) 2) as [L|L]; [|left; reflexivity].
  rewrite eval_bind.
  destruct (Qltb (eval random w) (branchChance (PlantSettings.type s)));
    [|left; reflexivity].
  right. split; [exact L|].
  rewrite !eval_bind. simpl.
  eexists. eexists. split; [|reflexivity]. reflexivity.
Qed.

Lemma stepGrowing_eval s g w :
  exists a nx ny w3,
    grew w w3
    /\ nx = Grower.x g + Math_cos a * Grower.speed g
    /\ ny = Grower.y g + Math_sin a * Grower.speed g
    /\ eval (stepGrowing s g) w
       = (Grower.incr_life (Grower.set_xy nx ny (Grower.set_angle a g)),
          eval (branchTrial s (Grower.set_angle a g)) w3).
Proof.
  unfold stepGrowing.
  rewrite eval_bind.
  set (a := eval (steer s (Qnat (Grower.life g) / Grower.maxLife g) g) w).
  set (w1 := exec (steer s (Qnat (Grower.life g) / Grower.maxLife g) g) w).
  rewrite eval_bind. set (w2 := exec _ w1).
  rewrite eval_bind. set (w3 := exec _ w2).
  rewrite eval_bind.
  exists a. eexists. eexists. exists w3.
  split; [|split; [reflexivity|split; reflexivity]].
  apply grew_trans with w2; [apply grew_trans with w1|].
  - apply grew_steer.
  - apply grew_drawOn. reflexivity.
  - apply grew_leafTrial.
Qed.



Lemma createGrower_scaled x y ps c generation a w :
  scaled (World.heap w) (eval (createGrower x y ps c generation a) w).
Proof.
  destruct (createGrower_fields x y ps c generation a w)
    as (_ & _ & _ & Hm & Hw & Hs & Hg & _).
  unfold scaled. rewrite Hs, Hg. split; assumption.
Qed.

(** Every step, terminal or not, adds one to the age and leaves the
    identity, the lifetime, the width, the generation, the settings and
    the target surface of the unit alone. *)
Lemma stepGrower_same g g' :
  steppedFrom g g' ->
  Grower.life g' = S (Grower.life g)
  /\ Grower.id g' = Grower.id g
  /\ Grower.maxLife g' = Grower.maxLife g
  /\ Grower.width g' = Grower.width g
  /\ Grower.generation g' = Grower.generation g
  /\ Grower.settings g' = Grower.settings g
  /\ Grower.ctx g' = Grower.ctx g.
Proof.
  intros [w ->]. unfold stepGrower. rewrite eval_bind.
  destruct (isTerminal g).
  - rewrite stepTerminal_eval. simpl.
    destruct (truthy (Grower.hasAttemptedFlower g)); simpl; repeat split.
  - destruct (stepGrowing_eval (eval (deref (Grower.settings g)) w) g
                (exec (deref (Grower.settings g)) w))
      as (a & nx & ny & w3 & _ & _ & _ & ->).
    simpl. repeat split.
Qed.

(** A terminal unit keeps its position and heading and stays terminal. *)
Lemma stepGrower_terminal g g' :
  steppedFrom g g' -> isTerminal g = true ->
  Grower.x g' = Grower.x g /\ Grower.y g' = Grower.y g
  /\ Grower.angle g' = Grower.angle g
  /\ isTerminal g' = true.
Proof.
  intros [w ->] T. unfold stepGrower. rewrite eval_bind, T.
  rewrite stepTerminal_eval. simpl.
  assert (K : forall h : Grower.t,
             Grower.maxLife h = Grower.maxLife g ->
             Grower.width h = Grower.width g ->
             Grower.life h = Grower.life g ->
             isTerminal (Grower.incr_life h) = true).
  { intros h Hm Hw Hl. unfold isTerminal in *. simpl.
    rewrite Hm, Hw, Hl.
    apply orb_true_iff in T. apply orb_true_iff. destruct T as [T|T].
    - left. apply Qle_bool_iff in T. apply Qle_bool_iff.
      rewrite Qnat_S. lra.
    - right. exact T. }
  destruct (truthy (Grower.hasAttemptedFlower g)); simpl;
    repeat split; apply K; reflexivity.
Qed.

(** What a step pushes onto the array. *)
Lemma stepGrower_pushed g w c :
  In c (snd (eval (stepGrower g) w)) ->
  isTerminal g = false
  /\ (Grower.generation g < 2)%nat
  /\ Grower.generation c = (Grower.generation g + 1)%nat
  /\ Grower.settings c = Grower.settings g
  /\ Grower.ctx c = Grower.ctx g
  /\ Grower.life c = 0%nat
  /\ Grower.hasAttemptedFlower c = None
  /\ scaled (World.heap w) c.
Proof.
  unfold stepGrower. rewrite eval_bind.
  destruct (isTerminal g).
  - rewrite stepTerminal_eval. simpl. tauto.
  - destruct (stepGrowing_eval (eval (deref (Grower.settings g)) w) g
                (exec (deref (Grower.settings g)) w))
      as (a & nx & ny & w3 & G & _ & _ & ->).
    simpl snd.
    destruct (branchTrial_eval (eval (deref (Grower.settings g)) w)
                (Grower.set_angle a g) w3) as [->|(L & b & w4 & Hh & ->)].
    + simpl. tauto.
    + simpl. intros [<-|[]].
      pose proof (createGrower_fields (Grower.x g) (Grower.y g)
                    (Grower.settings g) (Grower.ctx g)
                    (Grower.generation g + 1) (Some b) w4)
        as (_ & _ & Hl & _ & _ & Hs & Hg & Hc & Hf).
      pose proof (createGrower_scaled (Grower.x g) (Grower.y g)
                    (Grower.settings g) (Grower.ctx g)
                    (Grower.generation g + 1) (Some b) w4) as Sc.
      rewrite Hh in Sc. simpl in G.
      rewrite (painted_heap G) in Sc.
      repeat split; try assumption; apply Sc.
Qed.

(** ** The loop over the growers *)

Lemma forEachGrower_eval gs w :
  Forall2 steppedFrom gs (fst (eval (forEachGrower gs) w))
  /\ forall c, In c (snd (eval (forEachGrower gs) w)) ->
       exists g w0, In g gs /\ grew w w0
                    /\ In c (snd (eval (stepGrower g) w0)).
Proof.
  revert w. induction gs as [|g gs IH]; intro w; simpl.
  - split; [constructor | intros c []].
  - rewrite !eval_bind. simpl.
    destruct (IH (exec (stepGrower g) w)) as [IH1 IH2].
    split.
    + constructor; [exists w; reflexivity | exact IH1].
    + intros c Hc. apply in_app_or in Hc. destruct Hc as [Hc|Hc].
      * exists g, w. split; [left; reflexivity|].
        split; [apply grew_refl | exact Hc].
      * destruct (IH2 c Hc) as (g0 & w0 & Hin & G & Hp).
        exists g0, w0. split; [right; exact Hin|]. split; [|exact Hp].
        eapply grew_trans; [apply grew_stepGrower | exact G].
Qed.

Lemma processGrowers_growers w :
  World.growers (exec processGrowers w)
  = filter keep (fst (eval (forEachGrower (World.growers w)) w)
                 ++ snd (eval (forEachGrower (World.growers w)) w)).
Proof.
  unfold processGrowers. rewrite !exec_bind. reflexivity.
Qed.

Lemma update_growers w :
  World.growers (exec update w)
  = filter keep (fst (eval (forEachGrower (World.growers w)) w)
                 ++ snd (eval (forEachGrower (World.growers w)) w)).
Proof.
  unfold update. rewrite exec_bind. unfold compositeBottlePlants, modify, exec.
  simpl. fold (exec processGrowers w).
  destruct (World.canvasInside (exec processGrowers w));
    simpl; apply processGrowers_growers.
Qed.

Lemma keep_lt g : keep g = true <-> Qnat (Grower.life g) < Grower.maxLife g + 50.
Proof. apply Qltb_lt. Qed.

(** ** undoLastBottlePlant *)

Lemma pop_app {A} (l : list A) (a : A) : pop (l ++ [a]) = (Some a, l).
Proof.
  unfold pop. rewrite rev_app_distr. simpl. rewrite rev_involutive.
  reflexivity.
Qed.

Lemma pop_spec {A} (l : list A) :
  (l = [] /\ pop l = (None, []))
  \/ exists rest a, l = rest ++ [a] /\ pop l = (Some a, rest).
Proof.
  destruct (rev l) as [|a r] eqn:E.
  - left. apply (f_equal (@rev A)) in E. rewrite rev_involutive in E.
    simpl in E. subst. split; reflexivity.
  - right. exists (rev r), a.
    apply (f_equal (@rev A)) in E. rewrite rev_involutive in E. simpl in E.
    subst. split; [reflexivity | apply pop_app].
Qed.

Lemma undo_spec w rest popped :
  World.bottlePlants w = rest ++ [popped] ->
  World.bottlePlants (exec undoLastBottlePlant w) = rest
  /\ World.growers (exec undoLastBottlePlant w)
     = filter (fun g => negb (Ctx_eqb (Grower.ctx g) (BottlePlant.ctx popped)))
              (World.growers w).
Proof.
  intro E. unfold undoLastBottlePlant. rewrite exec_bind.
  unfold eval, get. simpl. rewrite E, pop_app.
  split; reflexivity.
Qed.

(** ** spawnPlant *)

(** The generation-0 grower a spawn pushes, if it pushes one. *)
Lemma createGrower_push x y s c w2 :
  let w' := exec (g <- createGrower x y s c 0 None ;; pushGrower g) w2 in
  exists u, World.growers w' = World.growers w2 ++ [u]
            /\ Grower.generation u = 0%nat
            /\ Grower.life u = 0%nat
            /\ Grower.hasAttemptedFlower u = None
            /\ Grower.settings u = s
            /\ Grower.ctx u = c
            /\ scaled (World.heap w') u.
Proof.
  cbv zeta. rewrite exec_bind.
  pose proof (createGrower_scaled x y s c 0 None w2) as Sc.
  exists (eval (createGrower x y s c 0 None) w2).
  unfold pushGrower, modify, exec at 1. simpl.
  repeat split; apply Sc.
Qed.

Lemma spawnPlant_growers x y o inside now offCtx w :
  let w' := exec (spawnPlant x y o inside now offCtx) w in
  World.growers w' = World.growers w
  \/ exists u, World.growers w' = World.growers w ++ [u]
               /\ Grower.generation u = 0%nat
               /\ Grower.life u = 0%nat
               /\ Grower.hasAttemptedFlower u = None
               /\ Grower.settings u
                  = match o with Some r => r | None => World.settings w end
               /\ scaled (World.heap w') u.
Proof.
  unfold spawnPlant. rewrite !exec_bind.
  change (eval (get World.settings) w) with (World.settings w).
  change (exec (get World.settings) w) with w.
  set (s := match o with Some r => r | None => World.settings w end).
  set (w1 := exec (saveHistory x y s now) w).
  assert (G1 : World.growers w1 = World.growers w) by reflexivity.
  clearbody w1. clearbody s. rewrite <- G1.
  destruct inside.
  - rewrite exec_bind. destruct offCtx.
    + right. rewrite !exec_bind.
      set (c := CtxOff (eval createOffscreen w1)).
      set (w2 := exec (modify _) _).
      assert (G2 : World.growers w2 = World.growers w1) by reflexivity.
      clearbody w2. rewrite <- G2.
      destruct (createGrower_push x y s c w2) as (u & H). exists u.
      tauto.
    + left. reflexivity.
  - rewrite exec_bind.
    change (eval (get World.canvasOutside) w1) with (World.canvasOutside w1).
    change (exec (get World.canvasOutside) w1) with w1.
    destruct (World.canvasOutside w1).
    + right. destruct (createGrower_push x y s CtxOutside w1) as (u & H).
      exists u. tauto.
    + left. reflexivity.
Qed.

Lemma Forall2_In_r {A B} (P : A -> B -> Prop) l l' y :
  Forall2 P l l' -> In y l' -> exists x, In x l /\ P x y.
Proof.
  induction 1 as [|a b l l' Hab _ IH]; simpl; [tauto|].
  intros [<-|Hy].
  - exists a. auto.
  - destruct (IH Hy) as (x & Hx & Hp). exists x. auto.
Qed.

Lemma Qdiv_Qnat_decreasing (a : Q) (n : nat) :
  0 < a -> a / Qnat (S n + 1) < a / Qnat (n + 1).
Proof.
  intro Ha. unfold Qdiv.
  apply Qmult_lt_l; [exact Ha|].
  apply -> Qinv_lt_contravar; try apply Qnat_pos.
  apply Qnat_lt. lia.
Qed.

Lemma branchTrial_last_generation s g w :
  (2 <= Grower.generation g)%nat -> branchTrial s g w = ([], w).
Proof.
  intro H. unfold branchTrial.
  destruct (Nat.ltb_spec (Grower.generation g) 2); [lia | reflexivity].
Qed.

(** ** The flower attempt *)

Lemma stepGrower_flag g g' :
  steppedFrom g g' ->
  truthy (Grower.hasAttemptedFlower g')
  = truthy (Grower.hasAttemptedFlower g) || isTerminal g.
Proof.
  intros [w ->]. unfold stepGrower. rewrite eval_bind.
  destruct (isTerminal g).
  - rewrite stepTerminal_eval. simpl.
    destruct (truthy (Grower.hasAttemptedFlower g)) eqn:E; simpl.
    + rewrite E. reflexivity.
    + reflexivity.
  - destruct (stepGrowing_eval (eval (deref (Grower.settings g)) w) g
                (exec (deref (Grower.settings g)) w))
      as (a & nx & ny & w3 & _ & _ & _ & ->).
    simpl. rewrite orb_false_r. reflexivity.
Qed.

Lemma lifeline_fields g0 k g :
  lifeline g0 k g ->
  Grower.life g = (Grower.life g0 + k)%nat
  /\ Grower.maxLife g = Grower.maxLife g0
  /\ Grower.width g = Grower.width g0
  /\ Grower.generation g = Grower.generation g0
  /\ Grower.settings g = Grower.settings g0
  /\ Grower.ctx g = Grower.ctx g0.
Proof.
  induction 1 as [|k g g' _ IH S].
  - rewrite Nat.add_0_r. repeat split.
  - destruct IH as (Hl & Hm & Hw & Hg & Hs & Hc).
    destruct (stepGrower_same _ _ S) as (Sl & _ & Sm & Sw & Sg & Ss & Sc).
    repeat split; try congruence. rewrite Sl, Hl. lia.
Qed.

Lemma lifeline_terminal g0 k g :
  lifeline g0 k g -> isTerminal g = terminalAt g0 k.
Proof.
  intro L. destruct (lifeline_fields _ _ _ L) as (Hl & Hm & Hw & _).
  unfold isTerminal, terminalAt. rewrite Hl, Hm, Hw. reflexivity.
Qed.

Lemma terminalAt_mono g0 j k :
  (j <= k)%nat -> terminalAt g0 j = true -> terminalAt g0 k = true.
Proof.
  unfold terminalAt. intros Hjk H.
  apply orb_true_iff in H. apply orb_true_iff. destruct H as [H|H].
  - left. apply Qle_bool_iff in H. apply Qle_bool_iff.
    eapply Qle_trans; [exact H|].
    unfold Qnat. rewrite <- Zle_Qle. lia.
  - right. exact H.
Qed.

(** The flag of a unit that started without it is set exactly when some
    earlier tick found the unit terminal. *)
Lemma lifeline_flag g0 k g :
  truthy (Grower.hasAttemptedFlower g0) = false ->
  lifeline g0 k g ->
  (truthy (Grower.hasAttemptedFlower g) = true
   <-> exists j, (j < k)%nat /\ terminalAt g0 j = true).
Proof.
  intros F0 L. induction L as [|k g g' L IH S].
  - rewrite F0. split; [discriminate|]. intros (j & Hj & _). lia.
  - rewrite (stepGrower_flag _ _ S), orb_true_iff, IH.
    rewrite (lifeline_terminal _ _ _ L).
    split.
    + intros [(j & Hj & T)|T]; [exists j | exists k]; split; auto; lia.
    + intros (j & Hj & T).
      destruct (Nat.eq_dec j k) as [->|N]; [right; exact T|].
      left. exists j. split; [lia | exact T].
Qed.

(** Flowers on the canvases *)

Lemma flowersOn_extends P c c' :
  (forall op, P op = true -> isFlower op = false) ->
  extends P c c' -> flowersOn c' = flowersOn c.
Proof.
  intros HP (_ & _ & new & E & F). unfold flowersOn. rewrite E.
  rewrite filter_app, length_app.
  assert (N : filter isFlower new = []).
  { clear E. induction new as [|op new IH]; [reflexivity|].
    simpl in F. apply andb_true_iff in F. destruct F as [F1 F2].
    simpl. rewrite (HP op F1). auto. }
  rewrite N. simpl. lia.
Qed.

Lemma flowerCount_painted P w w' :
  (forall op, P op = true -> isFlower op = false) ->
  painted P w w' -> flowerCount w' = flowerCount w.
Proof.
  intros HP [_ _ _ _ _ _ _ _ _ _ _ Ho Hf]. unfold flowerCount.
  f_equal.
  - destruct (World.canvasOutside w), (World.canvasOutside w');
      simpl in Ho; try tauto. eapply flowersOn_extends; eassumption.
  - induction Hf as [|c c' l l' Hc _ IH]; [reflexivity|].
    simpl. rewrite IH, (flowersOn_extends P c c' HP Hc). reflexivity.
Qed.

Lemma stemOp_not_flower op : stemOp op = true -> isFlower op = false.
Proof. destruct op; simpl; congruence. Qed.

Lemma none_not_flower op : false = true -> isFlower op = false.
Proof. discriminate. Qed.

Lemma flowersOn_draw op c :
  flowersOn (Canvas.draw op c)
  = (flowersOn c + if isFlower op then 1 else 0)%nat.
Proof.
  unfold flowersOn, Canvas.draw. simpl.
  rewrite filter_app, length_app. simpl.
  destruct (isFlower op); reflexivity.
Qed.

Lemma flowerCount_drawOn c op w :
  (flowerCount (exec (drawOn c op) w) <= flowerCount w + 1)%nat.
Proof.
  unfold flowerCount, drawOn, modify, exec. destruct c; simpl.
  - destruct (World.canvasOutside w); simpl; [|lia].
    rewrite flowersOn_draw. destruct (isFlower op); lia.
  - assert (H : forall i l,
               (list_sum (map flowersOn (updateAt i (Canvas.draw op) l))
                <= list_sum (map flowersOn l) + 1)%nat).
    { intros i l. revert i.
      induction l as [|a l IH]; intro i; destruct i; simpl; try lia.
      - rewrite flowersOn_draw. destruct (isFlower op); lia.
      - specialize (IH i). lia. }
    specialize (H canvas (World.offscreen w)). lia.
Qed.

Lemma flowerCount_drawFlower c x y b s e p t w :
  (flowerCount (exec (drawFlower c x y b s e p t) w) <= flowerCount w + 1)%nat.
Proof.
  unfold drawFlower. rewrite !exec_bind.
  set (w2 := exec _ (exec random w)).
  assert (E : flowerCount w2 = flowerCount w).
  { apply (flowerCount_painted (fun _ => false)); [apply none_not_flower|].
    apply painted_trans with (exec random w).
    - apply painted_random.
    - subst w2. destruct t; try apply painted_randoms;
        apply keeps_ret; apply painted_refl. }
  rewrite <- E. apply flowerCount_drawOn.
Qed.

Lemma flowerCount_stepGrowing s g w :
  flowerCount (exec (stepGrowing s g) w) = flowerCount w.
Proof.
  apply (flowerCount_painted stemOp); [apply stemOp_not_flower|].
  apply painted_stepGrowing. auto.
Qed.

(** What a terminal tick does to the state. *)
Lemma stepGrower_flagged g w :
  isTerminal g = true -> truthy (Grower.hasAttemptedFlower g) = true ->
  exec (stepGrower g) w = w.
Proof.
  intros T F. unfold stepGrower. rewrite exec_bind, T.
  unfold stepTerminal. rewrite exec_bind, F. reflexivity.
Qed.

Lemma stepGrower_attempt g w :
  isTerminal g = true -> truthy (Grower.hasAttemptedFlower g) = false ->
  exec (stepGrower g) w
  = exec (attemptFlower (nth (Grower.settings g) (World.heap w) PRESET_VINE) g)
         w.
Proof.
  intros T F. unfold stepGrower. rewrite exec_bind, T.
  unfold stepTerminal. rewrite exec_bind, F. simpl negb. cbv iota.
  rewrite exec_bind. reflexivity.
Qed.

Lemma stepGrower_growing g w :
  isTerminal g = false ->
  exec (stepGrower g) w
  = exec (stepGrowing (nth (Grower.settings g) (World.heap w) PRESET_VINE) g)
         w.
Proof.
  intros T. unfold stepGrower. rewrite exec_bind, T. reflexivity.
Qed.

Lemma flowerCount_attemptFlower s g w :
  let w' := exec (attemptFlower s g) w in
  (flowerCount w' <= flowerCount w + 1)%nat
  /\ (flowerCount w' <> flowerCount w ->
      (Grower.generation g < 2)%nat
      /\ Math_random (World.randomCalls w) < PlantSettings.flowerProbability s).
Proof.
  unfold attemptFlower.
  destruct (Nat.ltb_spec (Grower.generation g) 2) as [L|L].
  - cbv zeta. rewrite exec_bind.
    change (eval random w) with (Math_random (World.randomCalls w)).
    assert (E : flowerCount (exec random w) = flowerCount w).
    { apply (flowerCount_painted (fun _ => false)); [apply none_not_flower|].
      apply painted_random. }
    destruct (Qltb (Math_random (World.randomCalls w))
                   (PlantSettings.flowerProbability s)) eqn:B; simpl when.
    + split.
      * rewrite <- E. apply flowerCount_drawFlower.
      * intros _. split; [exact L|]. apply Qltb_lt. exact B.
    + split.
      * change (exec (ret tt) (exec random w)) with (exec random w). lia.
      * intro N. exfalso. apply N. exact E.
  - cbv zeta. change (exec (ret tt) w) with w.
    split; [lia|]. intro N. exfalso. apply N. reflexivity.
Qed.

(** ** Compositing *)

Lemma covers_full (c : Canvas.t) :
  Canvas.covers 0 0 (inject_Z (Canvas.width c)) (inject_Z (Canvas.height c)) c
  = true.
Proof.
  unfold Canvas.covers.
  repeat (apply andb_true_iff; split); apply Qle_bool_iff; lra.
Qed.

Lemma fold_left_draw (f : BottlePlant.t -> DrawOp) plants c :
  fold_left (fun c plant => Canvas.draw (f plant) c) plants c
  = Canvas.mk (Canvas.width c) (Canvas.height c)
              (Canvas.ops c ++ map f plants).
Proof.
  revert c. induction plants as [|p plants IH]; intro c; simpl.
  - rewrite app_nil_r. destruct c; reflexivity.
  - rewrite IH. simpl. rewrite <- app_assoc. reflexivity.
Qed.

Lemma composite_inside w cv :
  World.canvasInside w = Some cv ->
  Canvas.width cv = Dimensions.width (World.dimensions w) ->
  Canvas.height cv = Dimensions.height (World.dimensions w) ->
  World.canvasInside (exec compositeBottlePlants w)
  = Some (Canvas.mk (Canvas.width cv) (Canvas.height cv)
                    (map (compositeOp w) (World.bottlePlants w))).
Proof.
  intros E Hw Hh. unfold compositeBottlePlants, modify, exec. simpl.
  rewrite E. simpl. unfold Canvas.clearRect, fullWidth, fullHeight.
  rewrite <- Hw, <- Hh, covers_full, fold_left_draw. reflexivity.
Qed.

Lemma composite_rest w :
  let w' := exec compositeBottlePlants w in
  World.growers w' = World.growers w
  /\ World.bottlePlants w' = World.bottlePlants w
  /\ World.canvasOutside w' = World.canvasOutside w
  /\ World.offscreen w' = World.offscreen w
  /\ World.plantHistory w' = World.plantHistory w
  /\ World.heap w' = World.heap w.
Proof.
  unfold compositeBottlePlants, modify, exec. simpl.
  destruct (World.canvasInside w); simpl; repeat split.
Qed.

Lemma processGrowers_frame w :
  let w1 := exec processGrowers w in
  World.canvasInside w1 = World.canvasInside w
  /\ World.dimensions w1 = World.dimensions w
  /\ World.bottlePlants w1 = World.bottlePlants w
  /\ World.plantHistory w1 = World.plantHistory w
  /\ World.heap w1 = World.heap w
  /\ World.settings w1 = World.settings w
  /\ World.dragState w1 = World.dragState w
  /\ World.bottleRect w1 = World.bottleRect w
  /\ extendsOpt growthOp (World.canvasOutside w) (World.canvasOutside w1)
  /\ Forall2 (extends growthOp) (World.offscreen w) (World.offscreen w1).
Proof.
  unfold processGrowers. rewrite !exec_bind.
  change (exec (get World.growers) w) with w.
  change (eval (get World.growers) w) with (World.growers w).
  destruct (grew_forEachGrower (World.growers w) w).
  unfold modify, exec at 1 2 3 4 5 6 7 8 9 10. simpl.
  repeat split; assumption.
Qed.

(** ** Dragging *)



Lemma find_setCurrentX plantId v plants plant :
  find (fun p => String.eqb (BottlePlant.id p) plantId) plants = Some plant ->
  find (fun p => String.eqb (BottlePlant.id p) plantId)
       (setCurrentX plantId v plants)
  = Some (BottlePlant.set_currentX v plant).
Proof.
  induction plants as [|p plants IH]; simpl; [discriminate|].
  destruct (String.eqb (BottlePlant.id p) plantId) eqn:E.
  - intro H. inversion H; subst. simpl. rewrite E. reflexivity.
  - intro H. simpl. rewrite E. auto.
Qed.

(** ** The heap of settings objects *)

Lemma createGrower_push_frame x y s c w2 :
  let w' := exec (g <- createGrower x y s c 0 None ;; pushGrower g) w2 in
  World.heap w' = World.heap w2
  /\ World.settings w' = World.settings w2
  /\ World.plantHistory w' = World.plantHistory w2
  /\ World.bottlePlants w' = World.bottlePlants w2.
Proof.
  cbv zeta. rewrite exec_bind.
  unfold pushGrower, modify, exec at 1 2 3 4. simpl. repeat split.
Qed.

Lemma spawnPlant_effect x y o inside now offCtx w :
  let w' := exec (spawnPlant x y o inside now offCtx) w in
  let s := match o with Some r => r | None => World.settings w end in
  World.heap w' = World.heap w ++ [nth s (World.heap w) PRESET_VINE]
  /\ World.settings w' = World.settings w
  /\ World.plantHistory w'
     = capHistory (World.plantHistory w
                   ++ [PlantHistoryItem.mk x y (List.length (World.heap w)) now])
  /\ (World.bottlePlants w' = World.bottlePlants w
      \/ exists p, World.bottlePlants w' = World.bottlePlants w ++ [p]
                   /\ BottlePlant.settings p = s)
  /\ (World.growers w' = World.growers w
      \/ exists u, World.growers w' = World.growers w ++ [u]
                   /\ Grower.settings u = s
                   /\ Grower.generation u = 0%nat
                   /\ scaled (World.heap w') u).
Proof.
  cbv zeta. unfold spawnPlant. rewrite !exec_bind.
  change (eval (get World.settings) w) with (World.settings w).
  change (exec (get World.settings) w) with w.
  set (s := match o with Some r => r | None => World.settings w end).
  set (w1 := exec (saveHistory x y s now) w).
  assert (H1 : World.heap w1
               = World.heap w ++ [nth s (World.heap w) PRESET_VINE]
               /\ World.settings w1 = World.settings w
               /\ World.plantHistory w1
                  = capHistory
                      (World.plantHistory w
                       ++ [PlantHistoryItem.mk x y (List.length (World.heap w))
                             now])
               /\ World.bottlePlants w1 = World.bottlePlants w
               /\ World.growers w1 = World.growers w)
    by (repeat split).
  destruct H1 as (Hh & Hs & Hp & Hb & Hg).
  rewrite <- Hh, <- Hs, <- Hp, <- Hb, <- Hg.
  clearbody w1. clearbody s. clear Hh Hs Hp Hb Hg.
  destruct inside.
  - rewrite exec_bind. destruct offCtx.
    + rewrite !exec_bind.
      set (c := CtxOff (eval createOffscreen w1)).
      set (p := BottlePlant.mk _ x x y _ c s).
      set (w2 := exec (modify _) _).
      assert (H2 : World.heap w2 = World.heap w1
                   /\ World.settings w2 = World.settings w1
                   /\ World.plantHistory w2 = World.plantHistory w1
                   /\ World.bottlePlants w2 = World.bottlePlants w1 ++ [p]
                   /\ World.growers w2 = World.growers w1)
        by (repeat split).
      destruct H2 as (Hh & Hs & Hp & Hb & Hg).
      rewrite <- Hh, <- Hs, <- Hp, <- Hg.
      clearbody w2.
      destruct (createGrower_push_frame x y s c w2) as (Fh & Fs & Fp & Fb).
      destruct (createGrower_push x y s c w2)
        as (u & Gu & Ggen & _ & _ & Gs & _ & Gsc).
      rewrite exec_bind in Fh, Fs, Fp, Fb, Gu, Gsc.
      rewrite Fh, Fs, Fp, Fb.
      repeat split.
      * right. exists p. split; [exact Hb | reflexivity].
      * right. exists u. rewrite <- Fh. auto.
    + repeat split; left; reflexivity.
  - rewrite exec_bind.
    change (eval (get World.canvasOutside) w1) with (World.canvasOutside w1).
    change (exec (get World.canvasOutside) w1) with w1.
    destruct (World.canvasOutside w1).
    + destruct (createGrower_push_frame x y s CtxOutside w1)
        as (Fh & Fs & Fp & Fb).
      destruct (createGrower_push x y s CtxOutside w1)
        as (u & Gu & Ggen & _ & _ & Gs & _ & Gsc).
      rewrite Fh, Fs, Fp, Fb.
      repeat split.
      * left. reflexivity.
      * right. exists u. rewrite <- Fh. auto.
    + repeat split; left; reflexivity.
Qed.

Lemma heapGrows_refl w : heapGrows w w.
Proof. exists []. rewrite app_nil_r. reflexivity. Qed.

Lemma heapGrows_trans a b c : heapGrows a b -> heapGrows b c -> heapGrows a c.
Proof.
  intros [f1 E1] [f2 E2]. exists (f1 ++ f2).
  rewrite E2, E1, app_assoc. reflexivity.
Qed.

Lemma heapGrows_same w w' : World.heap w' = World.heap w -> heapGrows w w'.
Proof. intro E. exists []. rewrite app_nil_r. exact E. Qed.

(** An object that was allocated is still there, unchanged. *)
Lemma heapGrows_nth w w' r :
  heapGrows w w' -> (r < List.length (World.heap w))%nat ->
  nth r (World.heap w') PRESET_VINE = nth r (World.heap w) PRESET_VINE.
Proof.
  intros [fresh E] H. rewrite E. apply app_nth1. exact H.
Qed.

Lemma heapGrows_presets w w' :
  heapGrows w w' -> firstn 5 (World.heap w) = presetHeap ->
  firstn 5 (World.heap w') = presetHeap.
Proof.
  intros [fresh E] H. rewrite E.
  assert (L : (5 <= List.length (World.heap w))%nat).
  { apply (f_equal (@List.length _)) in H. rewrite length_firstn in H.
    change (List.length presetHeap) with 5%nat in H. lia. }
  rewrite firstn_app.
  replace (5 - List.length (World.heap w))%nat with 0%nat by lia.
  simpl. rewrite app_nil_r. exact H.
Qed.

Lemma Forall_lt_le {A} (f : A -> nat) (n m : nat) (l : list A) :
  (n <= m)%nat -> Forall (fun a => (f a < n)%nat) l ->
  Forall (fun a => (f a < m)%nat) l.
Proof.
  intros H F. eapply Forall_impl; [|exact F]. simpl. intros a Ha. lia.
Qed.

Lemma Forall_filter {A} (P : A -> Prop) (f : A -> bool) (l : list A) :
  Forall P l -> Forall P (filter f l).
Proof.
  intro F. apply Forall_forall. intros a Ha. apply filter_In in Ha.
  destruct Ha as [Ha _]. revert a Ha. apply Forall_forall. exact F.
Qed.

Lemma Forall_capHistory {A} (P : A -> Prop) (l : list A) :
  Forall P l -> Forall P (capHistory l).
Proof.
  intro F. unfold capHistory. destruct (50 <? List.length l)%nat; [|exact F].
  destruct F; simpl; [constructor | assumption].
Qed.

Lemma Forall_pop {A} (P : A -> Prop) (l : list A) :
  Forall P l -> Forall P (snd (pop l)).
Proof.
  intro F. destruct (pop_spec l) as [[-> ->]|(rest & a & -> & ->)]; simpl.
  - constructor.
  - apply Forall_app in F. tauto.
Qed.

Lemma Forall_setCurrentX (P : BottlePlant.t -> Prop) pid v plants :
  (forall p, P p -> P (BottlePlant.set_currentX v p)) ->
  Forall P plants -> Forall P (setCurrentX pid v plants).
Proof.
  intros HP F. induction F as [|p l Hp Hl IH]; simpl; [constructor|].
  destruct (String.eqb (BottlePlant.id p) pid); constructor; auto.
Qed.

(** The other cells of a well-formed state may change freely. *)
Lemma wellFormed_same w w' :
  World.heap w' = World.heap w -> World.settings w' = World.settings w ->
  World.growers w' = World.growers w ->
  World.plantHistory w' = World.plantHistory w ->
  World.bottlePlants w' = World.bottlePlants w ->
  wellFormed w -> wellFormed w'.
Proof.
  intros Hh Hs Hg Hp Hb []. constructor; rewrite ?Hh, ?Hs, ?Hg, ?Hp, ?Hb;
    assumption.
Qed.

Lemma wellFormed_spawnPlant x y o inside now offCtx w :
  wellFormed w ->
  (forall r, o = Some r -> (r < List.length (World.heap w))%nat) ->
  wellFormed (exec (spawnPlant x y o inside now offCtx) w).
Proof.
  intros [Wp Ws Wg Wh Wb Wn] Ho.
  destruct (spawnPlant_effect x y o inside now offCtx w)
    as (Hh & Hs & Hp & Hb & Hg).
  set (w' := exec (spawnPlant x y o inside now offCtx) w) in *.
  assert (Vs : (match o with Some r => r | None => World.settings w end
                < List.length (World.heap w))%nat).
  { destruct o; [apply Ho; reflexivity | exact Ws]. }
  assert (G : heapGrows w w') by (eexists; exact Hh).
  assert (L : (List.length (World.heap w') = S (List.length (World.heap w)))%nat).
  { rewrite Hh, length_app. simpl. lia. }
  constructor.
  - apply (heapGrows_presets w w' G Wp).
  - rewrite Hs. lia.
  - destruct Hg as [->|(u & -> & Hu & _)].
    + eapply Forall_lt_le; [|exact Wg]. lia.
    + apply Forall_app. split.
      * eapply Forall_lt_le; [|exact Wg]. lia.
      * constructor; [|constructor]. rewrite Hu, L.
        apply Nat.lt_lt_succ_r, Vs.
  - rewrite Hp. apply Forall_capHistory. apply Forall_app. split.
    + eapply Forall_lt_le; [|exact Wh]. lia.
    + constructor; [|constructor]. simpl. lia.
  - destruct Hb as [->|(p & -> & Hp')].
    + eapply Forall_lt_le; [|exact Wb]. lia.
    + apply Forall_app. split.
      * eapply Forall_lt_le; [|exact Wb]. lia.
      * constructor; [|constructor]. rewrite Hp', L.
        apply Nat.lt_lt_succ_r, Vs.
  - destruct Hg as [->|(u & -> & _ & Hu & _)]; [exact Wn|].
    apply Forall_app. split; [exact Wn|].
    constructor; [|constructor]. rewrite Hu. lia.
Qed.

Lemma wellFormed_update w : wellFormed w -> wellFormed (exec update w).
Proof.
  intros [Wp Ws Wg Wh Wb Wn].
  destruct (processGrowers_frame w)
    as (_ & _ & Pb & Ph & Phe & Ps & _ & _ & _ & _).
  assert (U : exec update w = exec compositeBottlePlants (exec processGrowers w)).
  { unfold update. rewrite exec_bind. reflexivity. }
  destruct (composite_rest (exec processGrowers w))
    as (_ & Cb & _ & _ & Ch & Che).
  assert (Cs : World.settings (exec update w) = World.settings w).
  { rewrite U. unfold compositeBottlePlants, modify, exec at 1. simpl.
    destruct (World.canvasInside (exec processGrowers w)); simpl; exact Ps. }
  rewrite <- U in Cb, Ch, Che.
  destruct (forEachGrower_eval (World.growers w) w) as [F P].
  rewrite Forall_forall in Wg, Wn.
  constructor; rewrite ?Che, ?Phe, ?Cs, ?Ch, ?Ph, ?Cb, ?Pb; try assumption.
  - rewrite update_growers. apply Forall_filter.
    apply Forall_forall. intros u Hu. apply in_app_or in Hu.
    destruct Hu as [Hu|Hu].
    + destruct (Forall2_In_r _ _ _ _ F Hu) as (g & Hg & S).
      destruct (stepGrower_same _ _ S) as (_ & _ & _ & _ & _ & -> & _). auto.
    + destruct (P u Hu) as (g & w0 & Hg & _ & Hp).
      destruct (stepGrower_pushed g w0 u Hp) as (_ & _ & _ & -> & _). auto.
  - rewrite update_growers. apply Forall_filter.
    apply Forall_forall. intros u Hu. apply in_app_or in Hu.
    destruct Hu as [Hu|Hu].
    + destruct (Forall2_In_r _ _ _ _ F Hu) as (g & Hg & S).
      destruct (stepGrower_same _ _ S) as (_ & _ & _ & _ & -> & _). auto.
    + destruct (P u Hu) as (g & w0 & Hg & _ & Hp).
      destruct (stepGrower_pushed g w0 u Hp) as (_ & L & -> & _). lia.
Qed.

Lemma handlePointerDown_cases e rect now w :
  let w' := exec (handlePointerDown e rect now) w in
  w' = w
  \/ (exists d, w' = World.set_dragState (Some d) w)
  \/ (exists x y, w' = exec (spawnPlant x y None false now false) w).
Proof.
  cbv zeta. unfold handlePointerDown.
  destruct (negb (PointerEvent.button e =? 0)%Z); [left; reflexivity|].
  destruct rect as [r|]; [|left; reflexivity].
  rewrite exec_bind.
  change (eval (get World.bottlePlants) w) with (World.bottlePlants w).
  change (exec (get World.bottlePlants) w) with w.
  destruct (find _ (World.bottlePlants w)).
  - right. left. eexists. reflexivity.
  - right. right. eexists. eexists. reflexivity.
Qed.

Lemma handlePointerMove_cases e rect now w :
  let w' := exec (handlePointerMove e rect now) w in
  w' = w
  \/ (exists pid v,
        w' = World.set_bottlePlants (setCurrentX pid v (World.bottlePlants w)) w)
  \/ w' = exec random w
  \/ (exists x y,
        w' = exec (spawnPlant x y None false now false) (exec random w)).
Proof.
  cbv zeta. unfold handlePointerMove.
  destruct rect as [r|]; [|left; reflexivity].
  rewrite exec_bind.
  change (eval (get World.dragState) w) with (World.dragState w).
  change (exec (get World.dragState) w) with w.
  destruct (World.dragState w) as [d|].
  - rewrite exec_bind.
    change (eval (get World.bottlePlants) w) with (World.bottlePlants w).
    change (exec (get World.bottlePlants) w) with w.
    destruct (find _ (World.bottlePlants w)); [|left; reflexivity].
    right. left. rewrite exec_bind. eexists. eexists. reflexivity.
  - destruct (PointerEvent.buttons e =? 1)%Z; [|left; reflexivity].
    rewrite exec_bind.
    destruct (Qltb 0.6 (eval random w)).
    + right. right. right. eexists. eexists. reflexivity.
    + right. right. left. reflexivity.
Qed.

Lemma wellFormed_random w : wellFormed w -> wellFormed (exec random w).
Proof. apply wellFormed_same; reflexivity. Qed.

Lemma undo_effect w :
  let w' := exec undoLastBottlePlant w in
  World.heap w' = World.heap w
  /\ World.settings w' = World.settings w
  /\ World.plantHistory w' = World.plantHistory w
  /\ World.bottlePlants w' = snd (pop (World.bottlePlants w))
  /\ exists f, World.growers w' = filter f (World.growers w).
Proof.
  cbv zeta. unfold undoLastBottlePlant. rewrite exec_bind.
  change (eval (get World.bottlePlants) w) with (World.bottlePlants w).
  change (exec (get World.bottlePlants) w) with w.
  destruct (pop (World.bottlePlants w)) as [[popped|] rest].
  - rewrite exec_bind. repeat split. eexists. reflexivity.
  - repeat split. exists (fun _ => true). simpl.
    symmetry. apply forallb_filter_id. apply forallb_forall. reflexivity.
Qed.

Lemma clear_effect w :
  let w' := exec handleClear w in
  World.heap w' = World.heap w
  /\ World.settings w' = World.settings w
  /\ World.plantHistory w' = World.plantHistory w
  /\ World.bottlePlants w' = World.bottlePlants w
  /\ exists f, World.growers w' = filter f (World.growers w).
Proof.
  cbv zeta. unfold handleClear, clearEffect, fillOutside, modify, exec, bind.
  simpl. destruct (World.canvasOutside w); simpl; repeat split.
  - eexists. reflexivity.
  - exists (fun _ => true).
    symmetry. apply forallb_filter_id. apply forallb_forall. reflexivity.
Qed.

Lemma resize_effect d w :
  let w' := exec (handleResize d) w in
  World.heap w' = World.heap w
  /\ World.settings w' = World.settings w
  /\ World.plantHistory w' = []
  /\ World.bottlePlants w' = []
  /\ World.growers w' = [].
Proof.
  cbv zeta.
  unfold handleResize, resizeEffect, clearEffect, resetCanvases, fillOutside,
    clearInside, modify, exec, bind.
  simpl. destruct (World.canvasOutside w); simpl; repeat split.
Qed.

Lemma updateSettings_effect n w :
  exec (updateSettings n) w
  = World.set_settings (List.length (World.heap w))
      (World.set_heap
         (World.heap w
          ++ [spread (nth (World.settings w) (World.heap w) PRESET_VINE) n]) w).
Proof. reflexivity. Qed.

Lemma presetRef_bound t : (presetRef t < 5)%nat.
Proof. destruct t; simpl; lia. Qed.

Lemma wellFormed_alloc s w :
  wellFormed w ->
  wellFormed (World.set_settings (List.length (World.heap w))
                (World.set_heap (World.heap w ++ [s]) w)).
Proof.
  intros [Wp Ws Wg Wh Wb Wn].
  assert (G : heapGrows w (World.set_settings (List.length (World.heap w))
                             (World.set_heap (World.heap w ++ [s]) w)))
    by (exists [s]; reflexivity).
  constructor; simpl.
  - apply (heapGrows_presets _ _ G Wp).
  - rewrite length_app. simpl. lia.
  - eapply Forall_lt_le; [|exact Wg]. rewrite length_app. lia.
  - eapply Forall_lt_le; [|exact Wh]. rewrite length_app. lia.
  - eapply Forall_lt_le; [|exact Wb]. rewrite length_app. lia.
  - exact Wn.
Qed.

Lemma handleImport_effect parsed bottle now offCtx w :
  let w1 := World.set_settings (List.length (World.heap w))
              (World.set_heap (World.heap w ++ [Parsed.settings parsed]) w) in
  exec (handleImport parsed bottle now offCtx) w = w
  \/ exec (handleImport parsed bottle now offCtx) w = w1
  \/ exists x y,
       exec (handleImport parsed bottle now offCtx) w
       = exec (spawnPlant x y (Some (List.length (World.heap w))) true now
                 offCtx) w1.
Proof.
  cbv zeta. unfold handleImport.
  destruct (truthyString (Parsed.stemColorStart parsed)
            && present (Parsed.type parsed));
    [|left; reflexivity].
  rewrite !exec_bind.
  destruct bottle as [[x y]|].
  - right. right. exists x, y. reflexivity.
  - right. left. reflexivity.
Qed.

(** Every action keeps the references of the state valid. *)
Lemma wellFormed_act a w : wellFormed w -> wellFormed (exec (act a) w).
Proof.
  intro W. destruct a; simpl act.
  - apply wellFormed_update. exact W.
  - destruct (handlePointerDown_cases e rect now w)
      as [->|[(d & ->)|(x & y & ->)]].
    + exact W.
    + revert W. apply wellFormed_same; reflexivity.
    + apply wellFormed_spawnPlant; [exact W | discriminate].
  - destruct (handlePointerMove_cases e rect now w)
      as [->|[(pid & v & ->)|[->|(x & y & ->)]]].
    + exact W.
    + destruct W as [Wp Ws Wg Wh Wb Wn]. constructor; simpl; try assumption.
      apply Forall_setCurrentX; [|exact Wb]. intros p Hp. exact Hp.
    + apply wellFormed_random. exact W.
    + apply wellFormed_spawnPlant; [|discriminate].
      apply wellFormed_random. exact W.
  - revert W. apply wellFormed_same; reflexivity.
  - destruct (undo_effect w) as (Hh & Hs & Hp & Hb & f & Hg).
    destruct W as [Wp Ws Wg Wh Wb Wn].
    constructor; unfold handleUndo; rewrite ?Hh, ?Hs, ?Hp, ?Hb, ?Hg;
      try assumption.
    + apply Forall_filter. exact Wg.
    + apply Forall_pop. exact Wb.
    + apply Forall_filter. exact Wn.
  - destruct (clear_effect w) as (Hh & Hs & Hp & Hb & f & Hg).
    destruct W as [Wp Ws Wg Wh Wb Wn].
    constructor; rewrite ?Hh, ?Hs, ?Hp, ?Hb, ?Hg; try assumption;
      apply Forall_filter; assumption.
  - destruct (resize_effect d w) as (Hh & Hs & Hp & Hb & Hg).
    destruct W as [Wp Ws Wg Wh Wb Wn].
    constructor; rewrite ?Hh, ?Hs, ?Hp, ?Hb, ?Hg; try assumption;
      constructor.
  - revert W. apply wellFormed_same; reflexivity.
  - rewrite updateSettings_effect. apply wellFormed_alloc. exact W.
  - destruct W as [Wp Ws Wg Wh Wb Wn]. constructor; simpl; try assumption.
    assert (L : (5 <= List.length (World.heap w))%nat).
    { apply (f_equal (@List.length _)) in Wp. rewrite length_firstn in Wp.
      change (List.length presetHeap) with 5%nat in Wp. lia. }
    pose proof (presetRef_bound type). unfold Ref in *. lia.
  - destruct (handleImport_effect parsed bottle now offCtx w)
      as [->|[->|(x & y & ->)]].
    + exact W.
    + apply wellFormed_alloc. exact W.
    + apply wellFormed_spawnPlant; [apply wellFormed_alloc; exact W|].
      intros r Hr. inversion Hr; subst. simpl.
      rewrite length_app. simpl. lia.
Qed.

Lemma heapGrows_act a w : heapGrows w (exec (act a) w).
Proof.
  destruct a; simpl act.
  - apply heapGrows_same.
    destruct (processGrowers_frame w) as (_ & _ & _ & _ & Ph & _).
    unfold update. rewrite exec_bind.
    destruct (composite_rest (exec processGrowers w))
      as (_ & _ & _ & _ & _ & ->).
    exact Ph.
  - destruct (handlePointerDown_cases e rect now w)
      as [->|[(d & ->)|(x & y & ->)]].
    + apply heapGrows_same; reflexivity.
    + apply heapGrows_same; reflexivity.
    + destruct (spawnPlant_effect x y None false now false w) as (Hh & _).
      eexists. exact Hh.
  - destruct (handlePointerMove_cases e rect now w)
      as [->|[(pid & v & ->)|[->|(x & y & ->)]]].
    + apply heapGrows_same; reflexivity.
    + apply heapGrows_same; reflexivity.
    + apply heapGrows_same; reflexivity.
    + destruct (spawnPlant_effect x y None false now false (exec random w))
        as (Hh & _).
      eexists. exact Hh.
  - apply heapGrows_same; reflexivity.
  - apply heapGrows_same. apply undo_effect.
  - apply heapGrows_same. apply clear_effect.
  - apply heapGrows_same. apply resize_effect.
  - apply heapGrows_same; reflexivity.
  - rewrite updateSettings_effect. eexists. reflexivity.
  - apply heapGrows_same; reflexivity.
  - destruct (handleImport_effect parsed bottle now offCtx w)
      as [->|[->|(x & y & ->)]].
    + apply heapGrows_same; reflexivity.
    + eexists. reflexivity.
    + destruct (spawnPlant_effect x y (Some (List.length (World.heap w))) true
                  now offCtx
                  (World.set_settings (List.length (World.heap w))
                     (World.set_heap
                        (World.heap w ++ [Parsed.settings parsed]) w)))
        as (Hh & _).
      eapply heapGrows_trans; [|eexists; exact Hh].
      eexists. reflexivity.
Qed.

Lemma wellFormed_mount d : wellFormed (mount d).
Proof.
  constructor; try reflexivity; simpl; try constructor.
  unfold mount, initialWorld, presetHeap. simpl. lia.
Qed.

Lemma wellFormed_run actions w : wellFormed w -> wellFormed (run actions w).
Proof.
  revert w. induction actions as [|a actions IH]; intros w W; simpl.
  - exact W.
  - apply IH. apply wellFormed_act. exact W.
Qed.

Lemma heapGrows_run actions w : heapGrows w (run actions w).
Proof.
  revert w. induction actions as [|a actions IH]; intro w; simpl.
  - apply heapGrows_refl.
  - eapply heapGrows_trans; [apply heapGrows_act | apply IH].
Qed.

Lemma applyEdit_frame e w :
  let w' := exec (applyEdit e) w in
  World.growers w' = World.growers w
  /\ World.plantHistory w' = World.plantHistory w
  /\ World.bottlePlants w' = World.bottlePlants w
  /\ heapGrows w w'.
Proof.
  destruct e as [n|t|parsed]; cbv zeta; unfold applyEdit.
  - repeat split. eexists. reflexivity.
  - repeat split. apply heapGrows_same; reflexivity.
  - unfold handleImport.
    destruct (truthyString (Parsed.stemColorStart parsed)
              && present (Parsed.type parsed)).
    + repeat split. eexists. reflexivity.
    + repeat split. apply heapGrows_same; reflexivity.
Qed.

(** ** The canvases of the component stay mounted *)

Lemma sameCanvases_refl w : sameCanvases w w.
Proof. repeat split. Qed.

Lemma sameCanvases_trans a b c :
  sameCanvases a b -> sameCanvases b c -> sameCanvases a c.
Proof.
  intros (H1 & H2 & H3) (K1 & K2 & K3). repeat split; congruence.
Qed.

Lemma mounted_sameCanvases w w' : sameCanvases w w' -> mounted w -> mounted w'.
Proof.
  intros (Hi & Hd & Ho) [[c Hc] (cv & Hcv & Hw & Hh)]. constructor.
  - exists c. congruence.
  - exists cv. rewrite Hi, Hd. auto.
Qed.

(** Decomposes a goal [keeps sameCanvases m] down to the primitive
    computations, none of which touches the two canvases. *)
Ltac untouched :=
  repeat first
    [ apply (keeps_bind sameCanvases sameCanvases_trans); [|intro]
    | solve [intro; repeat split]
    | match goal with
      | |- keeps _ (if ?b then _ else _) => destruct b
      | |- keeps _ (match ?x with _ => _ end) => destruct x
      end ].

Lemma sameCanvases_spawnPlant x y o now offCtx :
  keeps sameCanvases (spawnPlant x y o true now offCtx).
Proof.
  unfold spawnPlant, saveHistory, createGrower, uuid. untouched.
Qed.

Lemma sameCanvases_spawnOutside x y o now offCtx w :
  sameCanvases w (exec (spawnPlant x y o false now offCtx) w).
Proof.
  unfold spawnPlant. rewrite !exec_bind.
  change (exec (get World.settings) w) with w.
  set (w1 := exec (saveHistory _ _ _ _) w).
  assert (S1 : sameCanvases w w1) by (repeat split).
  change (eval (get World.canvasOutside) w1) with (World.canvasOutside w1).
  change (exec (get World.canvasOutside) w1) with w1.
  clearbody w1.
  apply sameCanvases_trans with w1; [exact S1|].
  destruct (World.canvasOutside w1); [|apply sameCanvases_refl].
  revert w1 S1. intros w1 _. revert w1.
  change (keeps sameCanvases
            (g <- createGrower x y
                    match o with Some o0 => o0 | None => eval (get World.settings) w end
                    CtxOutside 0 None ;; pushGrower g)).
  unfold createGrower, uuid. untouched.
Qed.

Lemma mounted_update w : mounted w -> mounted (exec update w).
Proof.
  intros [[c Hc] (cv & Hcv & Hw & Hh)].
  destruct (processGrowers_frame w)
    as (Pi & Pd & _ & _ & _ & _ & _ & _ & Po & _).
  assert (U : exec update w = exec compositeBottlePlants (exec processGrowers w)).
  { unfold update. rewrite exec_bind. reflexivity. }
  rewrite U. set (w1 := exec processGrowers w) in *.
  constructor.
  - destruct (composite_rest w1) as (_ & _ & -> & _).
    rewrite Hc in Po. destruct (World.canvasOutside w1) as [c1|];
      [exists c1; reflexivity | contradiction].
  - rewrite (composite_inside w1 cv); try congruence.
    eexists. split; [reflexivity|]. simpl.
    unfold compositeBottlePlants, modify, exec. simpl.
    destruct (World.canvasInside w1); simpl; rewrite Pd; auto.
Qed.

Lemma covers_create W H :
  Canvas.covers 0 0 (inject_Z W) (inject_Z H) (Canvas.create W H) = true.
Proof. exact (covers_full (Canvas.create W H)). Qed.

Lemma mounted_resize d w : mounted w -> mounted (exec (handleResize d) w).
Proof.
  intros [[c Hc] (cv & Hcv & Hw & Hh)].
  unfold handleResize, resizeEffect, clearEffect. rewrite !exec_bind.
  set (w0 := exec (modify (World.set_dimensions d)) w).
  assert (H0 : World.canvasOutside w0 = Some c
               /\ World.canvasInside w0 = Some cv
               /\ World.dimensions w0 = d) by (repeat split; assumption).
  clearbody w0. destruct H0 as (Ho & Hi & Hd).
  set (w1 := exec resetCanvases w0).
  assert (H1 : World.canvasOutside w1
               = Some (Canvas.create (Dimensions.width d) (Dimensions.height d))
               /\ World.canvasInside w1
                  = Some (Canvas.create (Dimensions.width d)
                                        (Dimensions.height d))
               /\ World.dimensions w1 = d).
  { subst w1. unfold resetCanvases, modify, exec. simpl.
    rewrite Ho, Hi, Hd. repeat split. }
  clearbody w1. clear Ho Hi Hd. destruct H1 as (Ho & Hi & Hd).
  set (w2 := exec fillOutside w1).
  assert (H2 : (exists c2, World.canvasOutside w2 = Some c2)
               /\ World.canvasInside w2
                  = Some (Canvas.create (Dimensions.width d)
                                        (Dimensions.height d))
               /\ World.dimensions w2 = d).
  { subst w2. unfold fillOutside, modify, exec. simpl.
    rewrite Ho. split; [eexists; reflexivity|]. split; assumption. }
  clearbody w2. clear Ho Hi Hd. destruct H2 as ((c2 & Ho) & Hi & Hd).
  set (w3 := exec clearInside w2).
  assert (H3 : World.canvasOutside w3 = Some c2
               /\ World.canvasInside w3
                  = Some (Canvas.mk (Dimensions.width d) (Dimensions.height d) [])
               /\ World.dimensions w3 = d).
  { subst w3. unfold clearInside, modify, exec, fullWidth, fullHeight. simpl.
    rewrite Hi, Hd. simpl. unfold Canvas.clearRect.
    rewrite covers_create. repeat split; assumption. }
  clearbody w3. clear Ho Hi Hd. destruct H3 as (Ho & Hi & Hd).
  set (w4 := exec (modify (World.set_bottlePlants [])) _).
  assert (H4 : World.canvasOutside w4 = Some c2
               /\ World.canvasInside w4
                  = Some (Canvas.mk (Dimensions.width d) (Dimensions.height d) [])
               /\ World.dimensions w4 = d) by (repeat split; assumption).
  clearbody w4. clear Ho Hi Hd. destruct H4 as (Ho & Hi & Hd).
  unfold fillOutside, modify, exec. simpl. rewrite Ho. simpl.
  constructor; simpl.
  - eexists. reflexivity.
  - rewrite Hi, Hd. eexists. split; [reflexivity|]. split; reflexivity.
Qed.

Lemma mounted_act a w : mounted w -> mounted (exec (act a) w).
Proof.
  intro Mw. destruct a; simpl act.
  - apply mounted_update. exact Mw.
  - destruct (handlePointerDown_cases e rect now w)
      as [->|[(d & ->)|(x & y & ->)]].
    + exact Mw.
    + revert Mw. apply mounted_sameCanvases. repeat split.
    + revert Mw. apply mounted_sameCanvases, sameCanvases_spawnOutside.
  - destruct (handlePointerMove_cases e rect now w)
      as [->|[(pid & v & ->)|[->|(x & y & ->)]]].
    + exact Mw.
    + revert Mw. apply mounted_sameCanvases. repeat split.
    + revert Mw. apply mounted_sameCanvases. repeat split.
    + revert Mw. apply mounted_sameCanvases.
      apply sameCanvases_trans with (exec random w); [repeat split|].
      apply sameCanvases_spawnOutside.
  - revert Mw. apply mounted_sameCanvases. repeat split.
  - revert Mw. apply mounted_sameCanvases.
    unfold handleUndo, undoLastBottlePlant. rewrite exec_bind.
    change (eval (get World.bottlePlants) w) with (World.bottlePlants w).
    destruct (pop (World.bottlePlants w)) as [[popped|] rest]; repeat split.
  - destruct Mw as [[c Hc] (cv & Hcv & Hw & Hh)].
    unfold handleClear, clearEffect, fillOutside, modify, exec, bind. simpl.
    rewrite Hc. constructor; simpl.
    + eexists. reflexivity.
    + exists cv. auto.
  - apply mounted_resize. exact Mw.
  - revert Mw. apply mounted_sameCanvases. repeat split.
  - revert Mw. apply mounted_sameCanvases. repeat split.
  - revert Mw. apply mounted_sameCanvases. repeat split.
  - revert Mw. apply mounted_sameCanvases.
    unfold handleImport.
    destruct (truthyString (Parsed.stemColorStart parsed)
              && present (Parsed.type parsed));
      [|apply sameCanvases_refl].
    rewrite !exec_bind.
    set (w1 := exec (modify _) _).
    assert (S1 : sameCanvases w w1) by (repeat split).
    clearbody w1.
    destruct bottle as [[x y]|]; [|exact S1].
    apply sameCanvases_trans with w1; [exact S1|].
    apply sameCanvases_spawnPlant.
Qed.

Lemma mounted_initial :
  mounted (exec clearEffect (exec resizeEffect initialWorld)).
Proof.
  constructor.
  - exists (Canvas.mk 0 0 [OpFillRect paper 0 0 0 0; OpFillRect paper 0 0 0 0]).
    vm_compute. reflexivity.
  - exists (Canvas.mk 0 0 []). vm_compute. repeat split.
Qed.

Lemma mount_unfold d :
  mount d
  = exec (handleResize d) (exec clearEffect (exec resizeEffect initialWorld)).
Proof. unfold mount. do 2 rewrite exec_bind. reflexivity. Qed.

Lemma mounted_mount d : mounted (mount d).
Proof. rewrite mount_unfold. apply mounted_resize, mounted_initial. Qed.

Lemma mounted_run actions w : mounted w -> mounted (run actions w).
Proof.
  revert w. induction actions as [|a actions IH]; intros w Mw; simpl.
  - exact Mw.
  - apply IH. apply mounted_act. exact Mw.
Qed.


(** A unit that is terminal stays where it is for the rest of its life. *)
Lemma lifeline_terminal_rest g0 k g :
  isTerminal g0 = true -> lifeline g0 k g ->
  Grower.x g = Grower.x g0 /\ Grower.y g = Grower.y g0
  /\ isTerminal g = true.
Proof.
  intros T L. induction L as [|k g g' L IH S].
  - auto.
  - destruct IH as (Hx & Hy & Ht).
    destruct (stepGrower_terminal _ _ S Ht) as (Sx & Sy & _ & St).
    repeat split; congruence.
Qed.

(** ** Helper statements on any state *)


(** When the outside canvas is mounted, the clear command paints
    the paper colour over the area of the component on it and drops
    exactly the units that target it; the units that target the canvas of
    a contained plant stay, in their order, and the contained plants,
    their canvases, the inside canvas, the history and the settings are
    left as they were. *)
Lemma handleClear_effect (w : World.t) (c : Canvas.t) :
  World.canvasOutside w = Some c ->
  let w' := exec handleClear w in
  World.canvasOutside w'
  = Some (Canvas.draw (OpFillRect paper 0 0 (fullWidth w) (fullHeight w)) c)
  /\ World.growers w'
     = filter (fun g => negb (Ctx_eqb (Grower.ctx g) CtxOutside))
              (World.growers w)
  /\ (forall g, In g (World.growers w')
                <-> In g (World.growers w) /\ Grower.ctx g <> CtxOutside)
  /\ World.bottlePlants w' = World.bottlePlants w
  /\ World.offscreen w' = World.offscreen w
  /\ World.canvasInside w' = World.canvasInside w
  /\ World.plantHistory w' = World.plantHistory w
  /\ World.heap w' = World.heap w
  /\ World.settings w' = World.settings w.
Proof.
  intros E w'.
  assert (G : World.growers w'
              = filter (fun g => negb (Ctx_eqb (Grower.ctx g) CtxOutside))
                       (World.growers w)).
  { unfold w', handleClear, clearEffect, fillOutside, modify, exec, bind.
    simpl. rewrite E. reflexivity. }
  split; [|split; [exact G|split]].
  - unfold w', handleClear, clearEffect, fillOutside, modify, exec, bind.
    simpl. rewrite E. reflexivity.
  - intro g. rewrite G, filter_In, negb_true_iff.
    split; intros [Hin Hc]; split; try exact Hin.
    + intro Heq. apply Ctx_eqb_eq in Heq. congruence.
    + destruct (Ctx_eqb (Grower.ctx g) CtxOutside) eqn:Eq; [|reflexivity].
      apply Ctx_eqb_eq in Eq. contradiction.
  - unfold w', handleClear, clearEffect, fillOutside, modify, exec, bind.
    simpl. rewrite E. repeat split.
Qed.

(** * Further properties *)

(** ** What a spawn does to the surfaces *)

Lemma createGrower_push_surfaces x y s c w2 :
  let w' := exec (g <- createGrower x y s c 0 None ;; pushGrower g) w2 in
  World.offscreen w' = World.offscreen w2
  /\ World.canvasOutside w' = World.canvasOutside w2
  /\ World.canvasInside w' = World.canvasInside w2
  /\ World.dragState w' = World.dragState w2
  /\ World.bottleRect w' = World.bottleRect w2
  /\ World.dimensions w' = World.dimensions w2.
Proof.
  cbv zeta. rewrite exec_bind.
  unfold pushGrower, modify, exec at 1 2 3 4 5 6. simpl. repeat split.
Qed.

Lemma createGrower_push_unit x y s c w2 :
  World.growers (exec (g <- createGrower x y s c 0 None ;; pushGrower g) w2)
  = World.growers w2 ++ [eval (createGrower x y s c 0 None) w2].
Proof.
  rewrite exec_bind. unfold pushGrower, modify, exec at 1. reflexivity.
Qed.

(** A spawn into the bottle that obtains its context: one canvas, one
    contained plant and one unit, each appended. *)
Lemma spawnPlant_inside x y o now w :
  let w' := exec (spawnPlant x y o true now true) w in
  let s := match o with Some r => r | None => World.settings w end in
  let n := List.length (World.offscreen w) in
  exists id u,
    World.offscreen w'
    = World.offscreen w
      ++ [Canvas.create (Dimensions.width (World.dimensions w))
                        (Dimensions.height (World.dimensions w))]
    /\ World.bottlePlants w'
       = World.bottlePlants w ++ [BottlePlant.mk id x x y n (CtxOff n) s]
    /\ World.growers w' = World.growers w ++ [u]
    /\ Grower.ctx u = CtxOff n
    /\ Grower.settings u = s
    /\ Grower.generation u = 0%nat
    /\ Grower.life u = 0%nat
    /\ Grower.x u = x /\ Grower.y u = y.
Proof.
  cbv zeta. unfold spawnPlant. rewrite !exec_bind.
  change (eval (get World.settings) w) with (World.settings w).
  change (exec (get World.settings) w) with w.
  set (s := match o with Some r => r | None => World.settings w end).
  set (w1 := exec (saveHistory x y s now) w).
  assert (H1 : World.offscreen w1 = World.offscreen w
               /\ World.bottlePlants w1 = World.bottlePlants w
               /\ World.growers w1 = World.growers w
               /\ World.dimensions w1 = World.dimensions w)
    by (repeat split).
  destruct H1 as (Ho & Hb & Hg & Hd).
  rewrite <- Ho, <- Hb, <- Hg, <- Hd.
  clearbody w1. clearbody s. clear Ho Hb Hg Hd.
  change (eval createOffscreen w1) with (List.length (World.offscreen w1)).
  set (n := List.length (World.offscreen w1)).
  set (id := eval uuid (exec createOffscreen w1)).
  set (p := BottlePlant.mk id x x y n (CtxOff n) s).
  set (w2 := exec (modify _) _).
  assert (H2 : World.offscreen w2
               = World.offscreen w1
                 ++ [Canvas.create (Dimensions.width (World.dimensions w1))
                                   (Dimensions.height (World.dimensions w1))]
               /\ World.bottlePlants w2 = World.bottlePlants w1 ++ [p]
               /\ World.growers w2 = World.growers w1)
    by (repeat split).
  destruct H2 as (Ho & Hb & Hg).
  clearbody w2.
  destruct (createGrower_push_frame x y s (CtxOff n) w2) as (_ & _ & _ & Fb).
  destruct (createGrower_push_surfaces x y s (CtxOff n) w2) as (Fo & _).
  pose proof (createGrower_push_unit x y s (CtxOff n) w2) as Gu.
  destruct (createGrower_fields x y s (CtxOff n) 0 None w2)
    as (Gx & Gy & Gl & _ & _ & Gs & Ggen & Gc & _).
  rewrite exec_bind in Fb, Fo, Gu.
  exists id, (eval (createGrower x y s (CtxOff n) 0 None) w2).
  rewrite Fb, Fo, Gu, Ho, Hb, Hg.
  repeat split; assumption.
Qed.

(** A spawn outside the bottle: no canvas and no contained plant; one unit
    drawing outside if the outside canvas is mounted. *)
Lemma spawnPlant_outside x y o now offCtx w :
  let w' := exec (spawnPlant x y o false now offCtx) w in
  let s := match o with Some r => r | None => World.settings w end in
  World.offscreen w' = World.offscreen w
  /\ World.bottlePlants w' = World.bottlePlants w
  /\ match World.canvasOutside w with
     | None => World.growers w' = World.growers w
     | Some _ =>
         exists u,
           World.growers w' = World.growers w ++ [u]
           /\ Grower.ctx u = CtxOutside
           /\ Grower.settings u = s
           /\ Grower.generation u = 0%nat
           /\ Grower.life u = 0%nat
           /\ Grower.x u = x /\ Grower.y u = y
     end.
Proof.
  cbv zeta. unfold spawnPlant. rewrite !exec_bind.
  change (eval (get World.settings) w) with (World.settings w).
  change (exec (get World.settings) w) with w.
  set (s := match o with Some r => r | None => World.settings w end).
  set (w1 := exec (saveHistory x y s now) w).
  assert (H1 : World.offscreen w1 = World.offscreen w
               /\ World.bottlePlants w1 = World.bottlePlants w
               /\ World.growers w1 = World.growers w
               /\ World.canvasOutside w1 = World.canvasOutside w)
    by (repeat split).
  destruct H1 as (Ho & Hb & Hg & Hc).
  rewrite <- Ho, <- Hb, <- Hg, <- Hc.
  clearbody w1. clearbody s. clear Ho Hb Hg Hc.
  change (eval (get World.canvasOutside) w1) with (World.canvasOutside w1).
  change (exec (get World.canvasOutside) w1) with w1.
  destruct (World.canvasOutside w1) as [c|].
  - destruct (createGrower_push_frame x y s CtxOutside w1) as (_ & _ & _ & Fb).
    destruct (createGrower_push_surfaces x y s CtxOutside w1) as (Fo & _).
    pose proof (createGrower_push_unit x y s CtxOutside w1) as Gu.
    destruct (createGrower_fields x y s CtxOutside 0 None w1)
      as (Gx & Gy & Gl & _ & _ & Gs & Ggen & Gc & _).
    split; [exact Fo|]. split; [exact Fb|].
    exists (eval (createGrower x y s CtxOutside 0 None) w1).
    repeat split; assumption.
  - repeat split.
Qed.

(** A spawn into the bottle that gets no context leaves plants and
    units alone. *)
Lemma spawnPlant_noContext x y o now w :
  let w' := exec (spawnPlant x y o true now false) w in
  World.growers w' = World.growers w
  /\ World.bottlePlants w' = World.bottlePlants w
  /\ World.offscreen w'
     = World.offscreen w
       ++ [Canvas.create (Dimensions.width (World.dimensions w))
                         (Dimensions.height (World.dimensions w))].
Proof.
  unfold spawnPlant, saveHistory, createOffscreen, deref, alloc, get, modify,
    exec, bind, ret.
  simpl. repeat split.
Qed.

Lemma spawnPlant_surfaces x y o inside now offCtx w :
  let w' := exec (spawnPlant x y o inside now offCtx) w in
  let n := List.length (World.offscreen w) in
  (List.length (World.offscreen w) <= List.length (World.offscreen w'))%nat
  /\ ((World.bottlePlants w' = World.bottlePlants w
       /\ (World.growers w' = World.growers w
           \/ exists u, World.growers w' = World.growers w ++ [u]
                        /\ Grower.ctx u = CtxOutside))
      \/ exists p u,
           World.bottlePlants w' = World.bottlePlants w ++ [p]
           /\ World.growers w' = World.growers w ++ [u]
           /\ BottlePlant.canvas p = n /\ BottlePlant.ctx p = CtxOff n
           /\ Grower.ctx u = CtxOff n
           /\ List.length (World.offscreen w') = S n).
Proof.
  cbv zeta. destruct inside; [destruct offCtx|].
  - destruct (spawnPlant_inside x y o now w)
      as (id & u & Ho & Hb & Hg & Hc & _).
    set (w' := exec (spawnPlant x y o true now true) w) in *. clearbody w'.
    rewrite Ho, length_app, Hb, Hg. split; [lia|]. right.
    eexists. exists u.
    repeat split; try assumption. apply Nat.add_1_r.
  - destruct (spawnPlant_noContext x y o now w) as (Hg & Hb & Ho).
    set (w' := exec (spawnPlant x y o true now false) w) in *. clearbody w'.
    rewrite Ho, length_app. split; [lia|]. left. auto.
  - destruct (spawnPlant_outside x y o now offCtx w) as (Ho & Hb & Hg).
    set (w' := exec (spawnPlant x y o false now offCtx) w) in *. clearbody w'.
    rewrite Ho. split; [lia|]. left. split; [exact Hb|].
    destruct (World.canvasOutside w).
    + destruct Hg as (u & Hg & Hc & _). right. exists u. auto.
    + left. exact Hg.
Qed.

(** ** The invariant [tidy] *)

Lemma length_capHistory {A} (l : list A) (a : A) :
  (List.length l <= 50)%nat ->
  (List.length (capHistory (l ++ [a])) <= 50)%nat.
Proof.
  intro L. unfold capHistory. rewrite length_app. simpl.
  destruct (50 <? List.length l + 1)%nat eqn:E.
  - destruct l; simpl; [lia|]. rewrite length_app. simpl in *. lia.
  - apply Nat.ltb_ge in E. rewrite length_app. simpl. lia.
Qed.

Lemma scaled_grows heap fresh g :
  (Grower.settings g < List.length heap)%nat ->
  scaled heap g -> scaled (heap ++ fresh) g.
Proof.
  intros L S. unfold scaled in *. rewrite app_nth1; [exact S | exact L].
Qed.

Lemma map_canvas_setCurrentX pid v plants :
  map BottlePlant.canvas (setCurrentX pid v plants)
  = map BottlePlant.canvas plants.
Proof.
  induction plants as [|p plants IH]; simpl; [reflexivity|].
  destruct (String.eqb (BottlePlant.id p) pid); simpl.
  - reflexivity.
  - rewrite IH. reflexivity.
Qed.

Lemma tidy_same w w' :
  World.heap w' = World.heap w ->
  World.growers w' = World.growers w ->
  World.plantHistory w' = World.plantHistory w ->
  World.bottlePlants w' = World.bottlePlants w ->
  List.length (World.offscreen w') = List.length (World.offscreen w) ->
  tidy w -> tidy w'.
Proof.
  intros Hh Hg Hp Hb Ho [Th Ts Tp Tc Tg].
  constructor; rewrite ?Hh, ?Hg, ?Hp, ?Hb, ?Ho; assumption.
Qed.

Lemma Forall2_length_eq {A B} (R : A -> B -> Prop) l l' :
  Forall2 R l l' -> List.length l' = List.length l.
Proof. induction 1; simpl; congruence. Qed.

Lemma tidy_update w : tidy w -> tidy (exec update w).
Proof.
  intros [Th Ts Tp Tc Tg].
  destruct (processGrowers_frame w)
    as (_ & _ & Pb & Ph & Phe & _ & _ & _ & _ & Po).
  assert (U : exec update w = exec compositeBottlePlants (exec processGrowers w)).
  { unfold update. rewrite exec_bind. reflexivity. }
  destruct (composite_rest (exec processGrowers w))
    as (_ & Cb & _ & Co & Ch & Che).
  rewrite <- U in Cb, Co, Ch, Che.
  apply Forall2_length_eq in Po.
  destruct (forEachGrower_eval (World.growers w) w) as [F P].
  rewrite Forall_forall in Ts, Tg.
  constructor; rewrite ?Che, ?Phe, ?Ch, ?Ph, ?Cb, ?Pb, ?Co, ?Po;
    try assumption.
  - rewrite update_growers. apply Forall_filter.
    apply Forall_forall. intros u Hu. apply in_app_or in Hu.
    destruct Hu as [Hu|Hu].
    + destruct (Forall2_In_r _ _ _ _ F Hu) as (g & Hg & S).
      destruct (stepGrower_same _ _ S) as (_ & _ & Em & Ew & Eg & Es & _).
      specialize (Ts g Hg). unfold scaled in *.
      rewrite Em, Ew, Eg, Es. exact Ts.
    + destruct (P u Hu) as (g & w0 & Hg & G & Hp).
      destruct (stepGrower_pushed g w0 u Hp) as (_ & _ & _ & _ & _ & _ & _ & S).
      rewrite (painted_heap G) in S. exact S.
  - rewrite update_growers. apply Forall_filter.
    apply Forall_forall. intros u Hu. apply in_app_or in Hu.
    destruct Hu as [Hu|Hu].
    + destruct (Forall2_In_r _ _ _ _ F Hu) as (g & Hg & S).
      destruct (stepGrower_same _ _ S) as (_ & _ & _ & _ & _ & _ & ->).
      apply Tg, Hg.
    + destruct (P u Hu) as (g & w0 & Hg & _ & Hp).
      destruct (stepGrower_pushed g w0 u Hp) as (_ & _ & _ & _ & -> & _).
      apply Tg, Hg.
Qed.

Lemma tidy_spawnPlant x y o inside now offCtx w :
  wellFormed w -> tidy w ->
  tidy (exec (spawnPlant x y o inside now offCtx) w).
Proof.
  intros [Wp Ws Wg Wh Wb Wn] [Th Ts Tp Tc Tg].
  destruct (spawnPlant_effect x y o inside now offCtx w)
    as (Hh & _ & Hp & _ & Hg).
  destruct (spawnPlant_surfaces x y o inside now offCtx w) as (Lo & Hs).
  set (w' := exec (spawnPlant x y o inside now offCtx) w) in *.
  clearbody w'.
  assert (Sc : Forall (scaled (World.heap w')) (World.growers w)).
  { rewrite Hh. rewrite Forall_forall in Ts, Wg |- *. intros g Hg'.
    apply scaled_grows; auto. }
  assert (Sg : Forall (scaled (World.heap w')) (World.growers w')).
  { destruct Hg as [->|(u & -> & _ & _ & Su)]; [exact Sc|].
    apply Forall_app. split; [exact Sc|]. constructor; [exact Su|constructor]. }
  assert (Tp' : Forall (fun p =>
                  BottlePlant.ctx p = CtxOff (BottlePlant.canvas p)
                  /\ (BottlePlant.canvas p < List.length (World.offscreen w'))%nat)
                (World.bottlePlants w)).
  { eapply Forall_impl; [|exact Tp]. intros p (A & B). split; [exact A|lia]. }
  constructor.
  - rewrite Hp. apply length_capHistory. exact Th.
  - exact Sg.
  - destruct Hs as [(-> & _)|(p & u & -> & _ & Hc & Hx & _ & Ln)];
      [exact Tp'|].
    apply Forall_app. split; [exact Tp'|].
    constructor; [|constructor]. rewrite Hx, Hc, Ln. split; [reflexivity|lia].
  - destruct Hs as [(-> & _)|(p & u & -> & _ & Hc & _)]; [exact Tc|].
    rewrite map_app. simpl. apply NoDup_app; [exact Tc | repeat constructor; intros [] |].
    intros i Hi [<-|[]]. rewrite Hc in Hi.
    apply in_map_iff in Hi. destruct Hi as (q & Eq & Hq).
    rewrite Forall_forall in Tp. destruct (Tp q Hq) as (_ & Lq). lia.
  - destruct Hs as [(-> & [->|(u & -> & Hu)])|(p & u & -> & -> & Hc & _ & Hu & _)].
    + exact Tg.
    + apply Forall_app. split; [exact Tg|].
      constructor; [|constructor]. intros i E. congruence.
    + apply Forall_app. split.
      * eapply Forall_impl; [|exact Tg]. intros g H i E.
        rewrite map_app. apply in_or_app. left. apply H, E.
      * constructor; [|constructor]. intros i E.
        rewrite map_app. apply in_or_app. right. left.
        rewrite Hc. congruence.
Qed.

Lemma undo_unfold w :
  exec undoLastBottlePlant w
  = match pop (World.bottlePlants w) with
    | (Some popped, rest) =>
        World.set_growers
          (filter (fun g =>
                     negb (Ctx_eqb (Grower.ctx g) (BottlePlant.ctx popped)))
                  (World.growers w))
          (World.set_bottlePlants rest w)
    | (None, rest) => World.set_bottlePlants rest w
    end.
Proof.
  unfold undoLastBottlePlant. rewrite exec_bind.
  change (eval (get World.bottlePlants) w) with (World.bottlePlants w).
  change (exec (get World.bottlePlants) w) with w.
  destruct (pop (World.bottlePlants w)) as [[popped|] rest]; reflexivity.
Qed.

Lemma clear_offscreen w :
  World.offscreen (exec handleClear w) = World.offscreen w.
Proof.
  unfold handleClear, clearEffect, fillOutside, modify, exec, bind.
  simpl. destruct (World.canvasOutside w); reflexivity.
Qed.

Lemma resize_offscreen d w :
  World.offscreen (exec (handleResize d) w) = World.offscreen w.
Proof.
  unfold handleResize, resizeEffect, clearEffect, resetCanvases, fillOutside,
    clearInside, modify, exec, bind.
  simpl. destruct (World.canvasOutside w); reflexivity.
Qed.

Lemma tidy_alloc s w :
  wellFormed w -> tidy w ->
  tidy (World.set_settings (List.length (World.heap w))
          (World.set_heap (World.heap w ++ [s]) w)).
Proof.
  intros [Wp Ws Wg Wh Wb Wn] [Th Ts Tp Tc Tg].
  constructor; simpl; try assumption.
  rewrite Forall_forall in Ts, Wg |- *. intros g Hg.
  apply scaled_grows; auto.
Qed.

Lemma tidy_undo w : tidy w -> tidy (exec undoLastBottlePlant w).
Proof.
  intros [Th Ts Tp Tc Tg]. rewrite undo_unfold.
  destruct (pop_spec (World.bottlePlants w))
    as [(E & ->)|(rest & popped & E & ->)].
  - rewrite E in *. constructor; simpl; assumption.
  - rewrite E, ?map_app in *.
    apply Forall_app in Tp. destruct Tp as (Tp & Tq).
    inversion Tq as [|? ? (Hc & _) _]; subst.
    constructor; simpl.
    + exact Th.
    + apply Forall_filter. exact Ts.
    + exact Tp.
    + apply NoDup_app_remove_r in Tc. exact Tc.
    + rewrite Forall_forall in Tg |- *. intros g Hg i Ei.
      apply filter_In in Hg. destruct Hg as (Hg & Hn).
      specialize (Tg g Hg i Ei). apply in_app_or in Tg.
      destruct Tg as [Tg|[Tg|[]]]; [exact Tg|]. exfalso.
      rewrite Ei, Hc, <- Tg in Hn. simpl in Hn.
      rewrite Nat.eqb_refl in Hn. discriminate.
Qed.

Lemma tidy_act a w : wellFormed w -> tidy w -> tidy (exec (act a) w).
Proof.
  intros W T. destruct a; simpl act.
  - apply tidy_update. exact T.
  - destruct (handlePointerDown_cases e rect now w)
      as [->|[(d & ->)|(x & y & ->)]].
    + exact T.
    + revert T. apply tidy_same; reflexivity.
    + apply tidy_spawnPlant; assumption.
  - destruct (handlePointerMove_cases e rect now w)
      as [->|[(pid & v & ->)|[->|(x & y & ->)]]].
    + exact T.
    + destruct T as [Th Ts Tp Tc Tg].
      constructor; simpl; rewrite ?map_canvas_setCurrentX; try assumption.
      apply Forall_setCurrentX; [|exact Tp]. intros p Hp. exact Hp.
    + revert T. apply tidy_same; reflexivity.
    + apply tidy_spawnPlant.
      * apply wellFormed_random. exact W.
      * revert T. apply tidy_same; reflexivity.
  - revert T. apply tidy_same; reflexivity.
  - apply tidy_undo. exact T.
  - destruct (clear_effect w) as (Hh & _ & Hp & Hb & f & Hg).
    pose proof (clear_offscreen w) as Ho.
    destruct T as [Th Ts Tp Tc Tg].
    constructor; rewrite ?Hh, ?Hp, ?Hb, ?Hg, ?Ho; try assumption;
      apply Forall_filter; assumption.
  - destruct (resize_effect d w) as (Hh & _ & Hp & Hb & Hg).
    constructor; rewrite ?Hh, ?Hp, ?Hb, ?Hg; simpl; try constructor. lia.
  - revert T. apply tidy_same; reflexivity.
  - rewrite updateSettings_effect. apply tidy_alloc; assumption.
  - revert T. apply tidy_same; reflexivity.
  - destruct (handleImport_effect parsed bottle now offCtx w)
      as [->|[->|(x & y & ->)]].
    + exact T.
    + apply tidy_alloc; assumption.
    + apply tidy_spawnPlant.
      * apply wellFormed_alloc. exact W.
      * apply tidy_alloc; assumption.
Qed.

Lemma tidy_mount d : tidy (mount d).
Proof.
  rewrite mount_unfold.
  destruct (resize_effect d (exec clearEffect (exec resizeEffect initialWorld)))
    as (Hh & _ & Hp & Hb & Hg).
  constructor; rewrite ?Hh, ?Hp, ?Hb, ?Hg; simpl; try constructor. lia.
Qed.

Lemma tidy_run actions w :
  wellFormed w -> tidy w -> tidy (run actions w).
Proof.
  revert w. induction actions as [|a actions IH]; intros w W T; simpl.
  - exact T.
  - apply IH; [apply wellFormed_act | apply tidy_act]; assumption.
Qed.

Lemma tidy_reachable actions d : tidy (run actions (mount d)).
Proof. apply tidy_run; [apply wellFormed_mount | apply tidy_mount]. Qed.

(** ** The nearest item of the history *)

Section Nearest.
Variable Math_sqrt : Q -> Q.
Variables clientX clientY : Q.

Lemma closestFrom_spec items closest minDist :
  let dist := distanceTo Math_sqrt clientX clientY in
  (closestFrom Math_sqrt clientX clientY items closest minDist = closest
   /\ forall i, In i items -> minDist <= dist i)
  \/ exists before item after,
       items = before ++ item :: after
       /\ closestFrom Math_sqrt clientX clientY items closest minDist
          = Some item
       /\ dist item < minDist
       /\ (forall i, In i before -> dist item < dist i)
       /\ (forall i, In i after -> dist item <= dist i).
Proof.
  intro dist. revert closest minDist.
  induction items as [|it rest IH]; intros closest minDist.
  - left. split; [reflexivity|]. intros i [].
  - simpl. fold (dist it).
    destruct (Qltb (dist it) minDist) eqn:E.
    + apply Qltb_lt in E. right.
      destruct (IH (Some it) (dist it))
        as [(R & N)|(b & c & a & Hl & R & Hd & Hb & Ha)].
      * exists [], it, rest. repeat split; auto. intros i [].
      * exists (it :: b), c, a. subst rest. repeat split; auto.
        -- eapply Qlt_trans; eassumption.
        -- intros i [<-|Hi]; auto.
    + assert (L : minDist <= dist it).
      { apply Qnot_lt_le. intro H. apply Qltb_lt in H. congruence. }
      destruct (IH closest minDist)
        as [(R & N)|(b & c & a & Hl & R & Hd & Hb & Ha)].
      * left. split; [exact R|]. intros i [<-|Hi]; auto.
      * right. exists (it :: b), c, a. subst rest. repeat split; auto.
        intros i [<-|Hi]; auto. eapply Qlt_le_trans; eassumption.
Qed.

End Nearest.

(** ** The canvas of a context *)

Lemma extends_noOp c c' : extends noOp c c' -> c' = c.
Proof.
  intros (Hw & Hh & new & Ho & F). destruct new as [|op new].
  - rewrite app_nil_r in Ho. destruct c, c'; simpl in *. congruence.
  - discriminate.
Qed.

Lemma surface_quiet c w w' : painted noOp w w' -> surface c w' = surface c w.
Proof.
  intros [_ _ _ _ _ _ _ _ _ _ _ Po Pf]. destruct c as [|i]; simpl.
  - destruct (World.canvasOutside w), (World.canvasOutside w');
      simpl in Po; try contradiction; [|reflexivity].
    f_equal. apply extends_noOp, Po.
  - revert i. induction Pf as [|a b l l' E F IH]; intro i;
      destruct i; simpl; try reflexivity.
    + f_equal. apply extends_noOp, E.
    + apply IH.
Qed.

Lemma nth_error_updateAt {A} (f : A -> A) i l a :
  nth_error l i = Some a -> nth_error (updateAt i f l) i = Some (f a).
Proof.
  revert i. induction l as [|b l IH]; intros i H; destruct i; simpl in *;
    try discriminate.
  - congruence.
  - apply IH, H.
Qed.

Lemma surface_drawOn c op w cv :
  surface c w = Some cv ->
  surface c (exec (drawOn c op) w) = Some (Canvas.draw op cv).
Proof.
  intro H. destruct c as [|i]; unfold drawOn, modify, exec; simpl in *.
  - rewrite H. reflexivity.
  - apply nth_error_updateAt, H.
Qed.

Lemma surface_random c w : surface c (exec random w) = surface c w.
Proof. destruct c; reflexivity. Qed.

(** In a state the application can reach every live unit has a canvas to
    draw on. *)
Lemma surface_reachable d actions u :
  In u (World.growers (run actions (mount d))) ->
  exists cv, surface (Grower.ctx u) (run actions (mount d)) = Some cv.
Proof.
  generalize (tidy_reachable actions d).
  generalize (mounted_run actions (mount d) (mounted_mount d)).
  generalize (run actions (mount d)).
  intros w [(c & Hc) _] [_ _ Tp _ Tg] Hu.
  rewrite Forall_forall in Tp, Tg.
  destruct (Grower.ctx u) as [|i] eqn:E; simpl.
  - exists c. exact Hc.
  - specialize (Tg u Hu i E). apply in_map_iff in Tg.
    destruct Tg as (p & Hi & Hp). destruct (Tp p Hp) as (_ & L).
    rewrite Hi in L. apply nth_error_Some in L.
    destruct (nth_error (World.offscreen w) i) as [cv|];
      [exists cv; reflexivity | contradiction].
Qed.

(** ** The flower of a unit *)

Lemma flowerCount_drawOn_flower c op w cv :
  surface c w = Some cv -> isFlower op = true ->
  flowerCount (exec (drawOn c op) w) = S (flowerCount w).
Proof.
  intros H F. unfold flowerCount, drawOn, modify, exec.
  destruct c as [|i]; simpl in *.
  - rewrite H. simpl. rewrite flowersOn_draw, F. lia.
  - assert (E : forall l j,
               nth_error l j = Some cv ->
               list_sum (map flowersOn (updateAt j (Canvas.draw op) l))
               = S (list_sum (map flowersOn l))).
    { induction l as [|a l IH]; intros j Hj; destruct j; simpl in *;
        try discriminate.
      - rewrite flowersOn_draw, F. lia.
      - rewrite (IH j Hj). lia. }
    rewrite (E _ _ H). lia.
Qed.

Lemma drawFlower_surface c x y b s e p t w cv :
  surface c w = Some cv ->
  let w' := exec (drawFlower c x y b s e p t) w in
  flowerCount w' = S (flowerCount w)
  /\ exists draws,
       surface c w'
       = Some (Canvas.draw
                 (OpFlower x y
                    (b * (0.85 + Math_random (World.randomCalls w) * 0.3))
                    s e p t draws) cv).
Proof.
  intro H. cbv zeta. unfold drawFlower. rewrite !exec_bind.
  change (eval random w) with (Math_random (World.randomCalls w)).
  set (pick := match t with
               | GEOMETRIC => _ | BERRY => _ | UMBRELLA => _ | _ => _
               end).
  assert (Q : painted noOp w (exec pick (exec random w))).
  { apply painted_trans with (exec random w); [apply painted_random|].
    unfold pick. destruct t; try apply painted_randoms;
      apply keeps_ret; apply painted_refl. }
  pose proof (surface_quiet c _ _ Q) as Sq. rewrite H in Sq.
  pose proof (flowerCount_painted noOp _ _ none_not_flower Q) as Fq.
  set (w1 := exec pick (exec random w)) in *.
  set (draws := eval pick (exec random w)). clearbody w1 draws.
  split.
  - rewrite <- Fq. apply flowerCount_drawOn_flower with cv;
      [exact Sq | reflexivity].
  - exists draws. apply surface_drawOn. exact Sq.
Qed.

(** The flower attempt: a flower is drawn exactly when the generation is
    below 2 and the random number drawn is below flowerProbability. *)
Lemma attemptFlower_surface s g w cv :
  surface (Grower.ctx g) w = Some cv ->
  let w' := exec (attemptFlower s g) w in
  let r := Math_random (World.randomCalls w) in
  ((Grower.generation g < 2)%nat /\ r < PlantSettings.flowerProbability s ->
   flowerCount w' = S (flowerCount w)
   /\ exists draws,
        surface (Grower.ctx g) w'
        = Some (Canvas.draw
                  (OpFlower (Grower.x g) (Grower.y g)
                     (PlantSettings.flowerSize s
                      * (0.85 + Math_random (S (World.randomCalls w)) * 0.3))
                     (PlantSettings.flowerColorStart s)
                     (PlantSettings.flowerColorEnd s)
                     (PlantSettings.petalCount s)
                     (PlantSettings.type s) draws) cv))
  /\ (~ ((Grower.generation g < 2)%nat
         /\ r < PlantSettings.flowerProbability s) ->
      flowerCount w' = flowerCount w
      /\ surface (Grower.ctx g) w' = Some cv).
Proof.
  intro H. cbv zeta. unfold attemptFlower.
  destruct (Nat.ltb_spec (Grower.generation g) 2) as [L|L].
  - rewrite exec_bind.
    change (eval random w) with (Math_random (World.randomCalls w)).
    destruct (Qltb (Math_random (World.randomCalls w))
                   (PlantSettings.flowerProbability s)) eqn:B; simpl when.
    + split.
      * intros _.
        assert (H1 : surface (Grower.ctx g) (exec random w) = Some cv)
          by (rewrite surface_random; exact H).
        destruct (drawFlower_surface (Grower.ctx g) (Grower.x g) (Grower.y g)
                    (PlantSettings.flowerSize s)
                    (PlantSettings.flowerColorStart s)
                    (PlantSettings.flowerColorEnd s)
                    (PlantSettings.petalCount s) (PlantSettings.type s)
                    (exec random w) cv H1) as (Hc & draws & Hs).
        split; [exact Hc|]. exists draws. exact Hs.
      * intro N. exfalso. apply N. split; [exact L|].
        apply Qltb_lt. exact B.
    + split.
      * intros (_ & R). apply Qltb_lt in R. congruence.
      * intros _. change (exec (ret tt) (exec random w)) with (exec random w).
        split; [reflexivity|]. rewrite surface_random. exact H.
  - change (exec (ret tt) w) with w. split.
    + intros (G & _). lia.
    + intros _. split; [reflexivity | exact H].
Qed.

(** * The claims *)

(** C1. After a tick the live set holds exactly the units, stepped or
    just pushed, whose age is below maxLife + 50 (the age is the one the
    step of this tick left).  Every step adds one to the age.  A unit that
    is terminal (life >= maxLife or width < 0.1) keeps its position and
    stays terminal, so for the rest of its life it stands still while its
    age grows by one per tick, and the tick that brings the age to
    maxLife + 50 drops it.  [undoLastBottlePlant] drops every unit that
    targets the surface of the popped plant, whatever its age. *)
Theorem C1_unit_removed_after_grace (w : World.t) :
  let r := eval (forEachGrower (World.growers w)) w in
  let live := World.growers (exec update w) in
  Forall2 steppedFrom (World.growers w) (fst r)
  /\ (forall u, In u live -> In u (fst r ++ snd r))
  /\ (forall u, In u (fst r ++ snd r) ->
        (In u live <-> Qnat (Grower.life u) < Grower.maxLife u + 50))
  /\ (forall g g', steppedFrom g g' ->
        Grower.life g' = S (Grower.life g)
        /\ Grower.maxLife g' = Grower.maxLife g)
  /\ (forall g g', steppedFrom g g' -> isTerminal g = true ->
        Grower.x g' = Grower.x g /\ Grower.y g' = Grower.y g
        /\ isTerminal g' = true)
  /\ (forall g0 k g, isTerminal g0 = true -> lifeline g0 k g ->
        Grower.x g = Grower.x g0 /\ Grower.y g = Grower.y g0
        /\ Grower.life g = (Grower.life g0 + k)%nat
        /\ (keep g = true
            <-> Qnat (Grower.life g0 + k) < Grower.maxLife g0 + 50))
  /\ (forall rest popped, World.bottlePlants w = rest ++ [popped] ->
        forall u, In u (World.growers (exec undoLastBottlePlant w))
                  <-> In u (World.growers w)
                      /\ Grower.ctx u <> BottlePlant.ctx popped).
Proof.
  cbv zeta. rewrite update_growers.
  split; [apply forEachGrower_eval|].
  split; [intros u H; apply filter_In in H; tauto|].
  split.
  { intros u Hu. rewrite filter_In, keep_lt. tauto. }
  split.
  { intros g g' S. destruct (stepGrower_same _ _ S) as (Hl & _ & Hm & _).
    auto. }
  split.
  { intros g g' S T.
    destruct (stepGrower_terminal _ _ S T) as (Hx & Hy & _ & Ht). auto. }
  split.
  { intros g0 k g T L.
    destruct (lifeline_terminal_rest _ _ _ T L) as (Hx & Hy & _).
    destruct (lifeline_fields _ _ _ L) as (Hl & Hm & _).
    repeat split; try assumption;
      rewrite keep_lt, Hl, Hm; auto. }
  intros rest popped E u.
  destruct (undo_spec w _ _ E) as [_ ->].
  rewrite filter_In, negb_true_iff.
  split; intros [Hin Hc]; split; try exact Hin.
  - intro Heq. apply Ctx_eqb_eq in Heq. congruence.
  - destruct (Ctx_eqb (Grower.ctx u) (BottlePlant.ctx popped)) eqn:Eq;
      [|reflexivity].
    apply Ctx_eqb_eq in Eq. contradiction.
Qed.

(** C2. A unit made by a spawn has generation 0, a unit made by a branch
    event the generation of its parent plus one; in both cases its maxLife
    is the maxLife of its settings divided by generation + 1 and its width
    their baseWidth divided by generation + 1.  For positive maxLife and
    baseWidth both quotients strictly decrease from one generation to the
    next. *)
Theorem C2_lifetime_and_width_scale_with_generation :
  (forall x y o inside now offCtx w u,
     let w' := exec (spawnPlant x y o inside now offCtx) w in
     In u (World.growers w') ->
     In u (World.growers w)
     \/ (Grower.generation u = 0%nat /\ scaled (World.heap w') u))
  /\ (forall g w c,
        In c (snd (eval (stepGrower g) w)) ->
        Grower.generation c = (Grower.generation g + 1)%nat
        /\ (Grower.generation c <= 2)%nat
        /\ scaled (World.heap w) c)
  /\ (forall x y ps c a w generation,
        let s := nth ps (World.heap w) PRESET_VINE in
        let parent := eval (createGrower x y ps c generation a) w in
        let child := eval (createGrower x y ps c (S generation) a) w in
        0 < PlantSettings.maxLife s -> 0 < PlantSettings.baseWidth s ->
        Grower.maxLife child < Grower.maxLife parent
        /\ Grower.width child < Grower.width parent).
Proof.
  split; [|split].
  - intros x y o inside now offCtx w u w' Hin. subst w'.
    destruct (spawnPlant_growers x y o inside now offCtx w)
      as [E|(v & E & Hg & _ & _ & _ & Sc)]; rewrite E in Hin.
    + left. exact Hin.
    + apply in_app_or in Hin. destruct Hin as [Hin|[<-|[]]]; auto.
  - intros g w c Hc.
    destruct (stepGrower_pushed g w c Hc) as (_ & L & Hg & _ & _ & _ & _ & Sc).
    repeat split; try apply Sc; lia.
  - intros x y ps c a w generation s parent child Hm Hw.
    destruct (createGrower_fields x y ps c generation a w)
      as (_ & _ & _ & Pm & Pw & _).
    destruct (createGrower_fields x y ps c (S generation) a w)
      as (_ & _ & _ & Cm & Cw & _).
    subst parent child. rewrite Pm, Pw, Cm, Cw.
    split; apply Qdiv_Qnat_decreasing; assumption.
Qed.

(** C3. The child of a branch event has the generation of its parent
    plus one, and a unit of generation 2 (or more) pushes nothing: its
    branch trial does not even draw a random number.  Hence every unit
    live after a tick is a unit that was live before, stepped, or the
    child of a live unit of generation below 2, and in every state the
    application can reach all units are of generation 0, 1 or 2. *)
Theorem C3_branch_raises_generation_up_to_two :
  (forall g w c,
     In c (snd (eval (stepGrower g) w)) ->
     (Grower.generation g < 2)%nat
     /\ Grower.generation c = (Grower.generation g + 1)%nat)
  /\ (forall g w s,
        (2 <= Grower.generation g)%nat ->
        snd (eval (stepGrower g) w) = []
        /\ branchTrial s g w = ([], w))
  /\ (forall w u,
        In u (World.growers (exec update w)) ->
        (exists g, In g (World.growers w) /\ steppedFrom g u
                   /\ Grower.generation u = Grower.generation g)
        \/ (exists g, In g (World.growers w)
                      /\ (Grower.generation g < 2)%nat
                      /\ Grower.generation u = (Grower.generation g + 1)%nat))
  /\ (forall d actions u,
        In u (World.growers (run actions (mount d))) ->
        (Grower.generation u <= 2)%nat).
Proof.
  split; [|split; [|split]].
  - intros g w c Hc.
    destruct (stepGrower_pushed g w c Hc) as (_ & L & Hg & _). auto.
  - intros g w s H. split; [|apply branchTrial_last_generation; exact H].
    destruct (snd (eval (stepGrower g) w)) as [|c l] eqn:E; [reflexivity|].
    assert (Hc : In c (snd (eval (stepGrower g) w)))
      by (rewrite E; left; reflexivity).
    destruct (stepGrower_pushed g w c Hc) as (_ & L & _). lia.
  - intros w u Hu. rewrite update_growers in Hu.
    apply filter_In in Hu. destruct Hu as [Hu _].
    destruct (forEachGrower_eval (World.growers w) w) as [F P].
    apply in_app_or in Hu. destruct Hu as [Hu|Hu].
    + left. destruct (Forall2_In_r _ _ _ _ F Hu) as (g & Hg & S).
      exists g. repeat split; try assumption.
      apply (stepGrower_same _ _ S).
    + right. destruct (P u Hu) as (g & w0 & Hg & _ & Hp).
      destruct (stepGrower_pushed g w0 u Hp) as (_ & L & Hgen & _).
      exists g. auto.
  - intros d actions u Hu.
    destruct (wellFormed_run actions (mount d) (wellFormed_mount d))
      as [_ _ _ _ _ Wn].
    rewrite Forall_forall in Wn. apply Wn, Hu.
Qed.

(** C4. A unit is created without the flag.  Along its life the flag,
    once set, stays set, and it goes from unset to set on one tick only:
    the first tick that finds the unit terminal.  A tick draws at most one
    flower; it draws one only on that first terminal tick, for a unit of
    generation below 2 and when the random number drawn there is below
    flowerProbability; what the tick does then is exactly the one flower
    attempt.  On any later tick the unit leaves the state of the world as
    it is: no flower and no random draw.  On the first terminal tick of a
    unit whose canvas exists the flower is drawn if and only if the
    generation is below 2 and the random number drawn is below
    flowerProbability: then the canvas of the unit gets exactly one more
    request, a flower at the position of the unit with the colours,
    petal count and type of its settings and the flowerSize scaled by
    the next random number, and otherwise the canvas is left as it was.
    In every state the application can reach each live unit has its
    canvas. *)
Theorem C4_single_flower_attempt :
  (forall x y ps c generation a w,
     Grower.hasAttemptedFlower (eval (createGrower x y ps c generation a) w)
     = None)
  /\ (forall g0 k g g',
        truthy (Grower.hasAttemptedFlower g0) = false ->
        lifeline g0 k g -> steppedFrom g g' ->
        (truthy (Grower.hasAttemptedFlower g) = true ->
         truthy (Grower.hasAttemptedFlower g') = true)
        /\ ((truthy (Grower.hasAttemptedFlower g) = false
             /\ truthy (Grower.hasAttemptedFlower g') = true)
            <-> (terminalAt g0 k = true
                 /\ forall j, (j < k)%nat -> terminalAt g0 j = false)))
  /\ (forall g0 k g w,
        truthy (Grower.hasAttemptedFlower g0) = false ->
        lifeline g0 k g ->
        let w' := exec (stepGrower g) w in
        let s := nth (Grower.settings g) (World.heap w) PRESET_VINE in
        (flowerCount w' <= flowerCount w + 1)%nat
        /\ (flowerCount w' <> flowerCount w ->
            terminalAt g0 k = true
            /\ (forall j, (j < k)%nat -> terminalAt g0 j = false)
            /\ (Grower.generation g < 2)%nat
            /\ Math_random (World.randomCalls w)
               < PlantSettings.flowerProbability s)
        /\ (terminalAt g0 k = true ->
            (forall j, (j < k)%nat -> terminalAt g0 j = false) ->
            w' = exec (attemptFlower s g) w)
        /\ ((exists j, (j < k)%nat /\ terminalAt g0 j = true) -> w' = w))
  /\ (forall g0 k g w cv,
        truthy (Grower.hasAttemptedFlower g0) = false ->
        lifeline g0 k g ->
        terminalAt g0 k = true ->
        (forall j, (j < k)%nat -> terminalAt g0 j = false) ->
        surface (Grower.ctx g) w = Some cv ->
        let w' := exec (stepGrower g) w in
        let s := nth (Grower.settings g) (World.heap w) PRESET_VINE in
        let r := Math_random (World.randomCalls w) in
        ((Grower.generation g < 2)%nat
         /\ r < PlantSettings.flowerProbability s ->
         flowerCount w' = S (flowerCount w)
         /\ exists draws,
              surface (Grower.ctx g) w'
              = Some (Canvas.draw
                        (OpFlower (Grower.x g) (Grower.y g)
                           (PlantSettings.flowerSize s
                            * (0.85
                               + Math_random (S (World.randomCalls w)) * 0.3))
                           (PlantSettings.flowerColorStart s)
                           (PlantSettings.flowerColorEnd s)
                           (PlantSettings.petalCount s)
                           (PlantSettings.type s) draws) cv))
        /\ (~ ((Grower.generation g < 2)%nat
               /\ r < PlantSettings.flowerProbability s) ->
            flowerCount w' = flowerCount w
            /\ surface (Grower.ctx g) w' = Some cv))
  /\ (forall d actions u,
        In u (World.growers (run actions (mount d))) ->
        exists cv, surface (Grower.ctx u) (run actions (mount d)) = Some cv).
Proof.
  split; [|split; [|split; [|split]]]; [| | |
    intros g0 k g w cv F0 L Tk Hnone Hs w' s r;
    assert (Fg : truthy (Grower.hasAttemptedFlower g) = false)
      by (destruct (truthy (Grower.hasAttemptedFlower g)) eqn:E;
          [|reflexivity];
          apply (lifeline_flag _ _ _ F0 L) in E;
          destruct E as (j & Hj & Tj);
          rewrite (Hnone j Hj) in Tj; discriminate);
    assert (Tg : isTerminal g = true)
      by (rewrite (lifeline_terminal _ _ _ L); exact Tk);
    subst w'; rewrite (stepGrower_attempt g w Tg Fg);
    apply attemptFlower_surface; exact Hs
  | exact surface_reachable ].
  - intros. apply createGrower_fields.
  - intros g0 k g g' F0 L S.
    pose proof (stepGrower_flag _ _ S) as F.
    pose proof (lifeline_terminal _ _ _ L) as T.
    pose proof (lifeline_flag _ _ _ F0 L) as Fk.
    rewrite T in F.
    split.
    + intro H. rewrite F, H. reflexivity.
    + split.
      * intros [Hg Hg']. rewrite Hg in F. simpl in F.
        split; [congruence|].
        intros j Hj. destruct (terminalAt g0 j) eqn:E; [|reflexivity].
        assert (X : truthy (Grower.hasAttemptedFlower g) = true)
          by (apply Fk; eauto).
        congruence.
      * intros [Tk Hnone]. split.
        -- destruct (truthy (Grower.hasAttemptedFlower g)) eqn:E;
             [|reflexivity].
           destruct (proj1 Fk eq_refl) as (j & Hj & Tj).
           rewrite (Hnone j Hj) in Tj. discriminate.
        -- rewrite F, Tk. apply orb_true_r.
  - intros g0 k g w F0 L w' s.
    pose proof (lifeline_terminal _ _ _ L) as T.
    pose proof (lifeline_flag _ _ _ F0 L) as Fk.
    assert (before : (exists j, (j < k)%nat /\ terminalAt g0 j = true) ->
                     terminalAt g0 k = true).
    { intros (j & Hj & Tj). apply (terminalAt_mono g0 j k); [lia | exact Tj]. }
    assert (none : truthy (Grower.hasAttemptedFlower g) = false ->
                   forall j, (j < k)%nat -> terminalAt g0 j = false).
    { intros Hf j Hj. destruct (terminalAt g0 j) eqn:E; [|reflexivity].
      assert (X : truthy (Grower.hasAttemptedFlower g) = true)
        by (apply Fk; eauto).
      congruence. }
    destruct (isTerminal g) eqn:Tg.
    + destruct (truthy (Grower.hasAttemptedFlower g)) eqn:Fg.
      * assert (E : w' = w) by (apply stepGrower_flagged; assumption).
        rewrite E.
        split; [lia|]. split; [intro N; exfalso; apply N; reflexivity|].
        split; [|reflexivity].
        intros _ Hnone. exfalso.
        destruct (proj1 Fk eq_refl) as (j & Hj & Tj).
        rewrite (Hnone j Hj) in Tj. discriminate.
      * assert (E : w' = exec (attemptFlower s g) w)
          by (apply stepGrower_attempt; assumption).
        rewrite E.
        destruct (flowerCount_attemptFlower s g w) as [Hle Hne].
        split; [exact Hle|].
        split; [|split].
        -- intro N. destruct (Hne N) as [Hgen Hr].
           split; [congruence|]. split; [exact (none eq_refl)|]. auto.
        -- reflexivity.
        -- intro Hex. apply Fk in Hex. discriminate Hex.
    + assert (E : flowerCount w' = flowerCount w).
      { subst w'. rewrite stepGrower_growing by exact Tg.
        apply flowerCount_stepGrowing. }
      assert (Tk : terminalAt g0 k = false) by congruence.
      split; [lia|].
      split; [intro N; exfalso; apply N; exact E|].
      split.
      * intro X. congruence.
      * intro Hex. apply before in Hex. congruence.
Qed.

(** C5, as the code has it.  A spawn does not copy the settings for the
    unit: the unit it creates, and the contained plant, hold the very
    reference the spawn worked with, which is the live settings when no
    override is given; only the history item holds a copy, a fresh
    object that reads as the settings read at the spawn.  Still no edit
    reaches a unit: in every state the application can reach, each unit,
    each history item and each contained plant refers to an allocated
    settings object, and no later action changes an allocated object.
    In particular an edit of the live genome (a change of fields, a
    preset, an import) leaves the units, the history and the contained
    plants as they are, and every settings object they refer to reads
    the same after the edit as before. *)
Theorem C5_edits_do_not_reach_spawned_settings
    (d : Dimensions.t) (actions : list Action) :
  let w := run actions (mount d) in
  wellFormed w
  /\ (forall later r,
        (r < List.length (World.heap w))%nat ->
        nth r (World.heap (run later w)) PRESET_VINE
        = nth r (World.heap w) PRESET_VINE)
  /\ (forall e,
        let w' := exec (applyEdit e) w in
        World.growers w' = World.growers w
        /\ World.plantHistory w' = World.plantHistory w
        /\ World.bottlePlants w' = World.bottlePlants w
        /\ (forall g, In g (World.growers w) ->
              nth (Grower.settings g) (World.heap w') PRESET_VINE
              = nth (Grower.settings g) (World.heap w) PRESET_VINE)
        /\ (forall h, In h (World.plantHistory w) ->
              nth (PlantHistoryItem.settings h) (World.heap w') PRESET_VINE
              = nth (PlantHistoryItem.settings h) (World.heap w) PRESET_VINE)
        /\ (forall p, In p (World.bottlePlants w) ->
              nth (BottlePlant.settings p) (World.heap w') PRESET_VINE
              = nth (BottlePlant.settings p) (World.heap w) PRESET_VINE))
  /\ (forall x y o inside now offCtx,
        let w' := exec (spawnPlant x y o inside now offCtx) w in
        let s := match o with Some r => r | None => World.settings w end in
        let copy := List.length (World.heap w) in
        (forall u, In u (World.growers w') ->
           In u (World.growers w) \/ Grower.settings u = s)
        /\ (forall p, In p (World.bottlePlants w') ->
              In p (World.bottlePlants w) \/ BottlePlant.settings p = s)
        /\ World.plantHistory w'
           = capHistory (World.plantHistory w
                         ++ [PlantHistoryItem.mk x y copy now])
        /\ World.heap w' = World.heap w ++ [nth s (World.heap w) PRESET_VINE]
        /\ nth copy (World.heap w') PRESET_VINE
           = nth s (World.heap w) PRESET_VINE
        /\ (o = None -> World.settings w' = s /\ copy <> s)).
Proof.
  intro w.
  assert (W : wellFormed w)
    by (apply wellFormed_run, wellFormed_mount).
  split; [exact W|]. split; [|split]; [| |
    intros x y o inside now offCtx w' s copy;
    destruct (spawnPlant_effect x y o inside now offCtx w)
      as (Hh & Hs & Hp & Hb & Hg);
    fold w' s copy in Hh, Hs, Hp, Hb, Hg;
    split; [intros u Hu; destruct Hg as [Hg|(v & Hg & Hv & _)];
            rewrite Hg in Hu; [left; exact Hu|];
            apply in_app_or in Hu; destruct Hu as [Hu|[<-|[]]]; auto|];
    split; [intros p Hp'; destruct Hb as [Hb|(q & Hb & Hq)];
            rewrite Hb in Hp'; [left; exact Hp'|];
            apply in_app_or in Hp'; destruct Hp' as [Hp'|[<-|[]]]; auto|];
    split; [exact Hp|]; split; [exact Hh|];
    split; [rewrite Hh; apply nth_middle|];
    intros ->; split; [exact Hs|];
    pose proof (wf_settings W) as Ws; unfold copy, s, Ref in *; lia ].
  - intros later r Hr. apply heapGrows_nth; [apply heapGrows_run | exact Hr].
  - intros e w'.
    destruct (applyEdit_frame e w) as (Hg & Hh & Hb & G).
    destruct W as [_ _ Wg Wh Wb _].
    rewrite Forall_forall in Wg, Wh, Wb.
    repeat split; try assumption.
    + intros g Hin. apply heapGrows_nth; [exact G | apply Wg, Hin].
    + intros h Hin. apply heapGrows_nth; [exact G | apply Wh, Hin].
    + intros p Hin. apply heapGrows_nth; [exact G | apply Wb, Hin].
Qed.



(** C8, as the code has it.  When the context of the new offscreen
    canvas cannot be obtained, a spawn into the bottle creates no
    contained plant and no unit and draws no random number; the units, the
    contained plants, the outside and inside canvases, every canvas that
    existed, the drag session and the live settings are unchanged.  It
    has still recorded its history item, with a fresh copy of the
    settings, and the canvas element it created is left unused. *)
Theorem C8_spawn_without_context (x y : Q) (o : option Ref) (now : Z)
    (w : World.t) :
  let w' := exec (spawnPlant x y o true now false) w in
  let s := match o with Some r => r | None => World.settings w end in
  World.growers w' = World.growers w
  /\ World.bottlePlants w' = World.bottlePlants w
  /\ World.canvasOutside w' = World.canvasOutside w
  /\ World.canvasInside w' = World.canvasInside w
  /\ World.offscreen w'
     = World.offscreen w
       ++ [Canvas.create (Dimensions.width (World.dimensions w))
                         (Dimensions.height (World.dimensions w))]
  /\ World.randomCalls w' = World.randomCalls w
  /\ World.dragState w' = World.dragState w
  /\ World.settings w' = World.settings w
  /\ World.heap w' = World.heap w ++ [nth s (World.heap w) PRESET_VINE]
  /\ World.plantHistory w'
     = capHistory (World.plantHistory w
                   ++ [PlantHistoryItem.mk x y (List.length (World.heap w)) now]).
Proof.
  unfold spawnPlant, saveHistory, createOffscreen, deref, alloc, get, modify,
    exec, bind, ret.
  simpl. repeat split.
Qed.

(** C9, as the code has it.  While the plant of the drag session does
    not exist, a pointer-move changes nothing at all: no plant is moved,
    nothing is spawned, no random number is drawn, and the session is
    still there.  The session is ended by the pointer-up (or
    pointer-leave) handler, which changes nothing else. *)
Theorem C9_stale_drag_session
    (w : World.t) (d : DragState.t) (e : PointerEvent.t)
    (rect : option DOMRect.t) (now : Z) :
  World.dragState w = Some d ->
  find (fun p => String.eqb (BottlePlant.id p) (DragState.plantId d))
       (World.bottlePlants w) = None ->
  exec (handlePointerMove e rect now) w = w
  /\ exec handlePointerUp w = World.set_dragState None w
  /\ World.dragState (exec handlePointerUp (exec (handlePointerMove e rect now) w))
     = None.
Proof.
  intros Hd Hf.
  assert (E : exec (handlePointerMove e rect now) w = w).
  { unfold handlePointerMove. destruct rect as [r|]; [|reflexivity].
    rewrite !exec_bind.
    change (eval (get World.dragState) w) with (World.dragState w).
    rewrite Hd. rewrite !exec_bind.
    change (exec (get World.dragState) w) with w.
    change (eval (get World.bottlePlants) w) with (World.bottlePlants w).
    rewrite Hf. reflexivity. }
  split; [exact E|]. split; [reflexivity|]. rewrite E. reflexivity.
Qed.

(** C10.  In every state the application can reach, the clear command
    paints the paper colour over the area of the component on the outside
    canvas, adding to what the canvas holds, and drops exactly the units
    that target the outside canvas; the units that target the canvas of a
    contained plant stay, in their order, and the contained plants, their
    canvases, the inside canvas, the history and the settings are left as
    they were. *)
Theorem C10_clear_drops_ambient_units
    (d : Dimensions.t) (actions : list Action) :
  let w := run actions (mount d) in
  let w' := exec handleClear w in
  (exists c, World.canvasOutside w = Some c
             /\ World.canvasOutside w'
                = Some (Canvas.draw
                          (OpFillRect paper 0 0 (fullWidth w) (fullHeight w)) c))
  /\ World.growers w'
     = filter (fun g => negb (Ctx_eqb (Grower.ctx g) CtxOutside))
              (World.growers w)
  /\ (forall g, In g (World.growers w')
                <-> In g (World.growers w) /\ Grower.ctx g <> CtxOutside)
  /\ World.bottlePlants w' = World.bottlePlants w
  /\ World.offscreen w' = World.offscreen w
  /\ World.canvasInside w' = World.canvasInside w
  /\ World.plantHistory w' = World.plantHistory w
  /\ World.heap w' = World.heap w
  /\ World.settings w' = World.settings w.
Proof.
  intros w w'.
  destruct (mounted_run actions (mount d) (mounted_mount d)) as [[c Hc] _].
  fold w in Hc.
  destruct (handleClear_effect w c Hc) as (Ho & Hrest).
  split; [|exact Hrest].
  exists c. split; [exact Hc | exact Ho].
Qed.

(** * Further results *)

(** X1.  The history is a buffer of the last 50 spawns: in every state
    the application can reach it holds at most 50 items, and a spawn (of
    either kind, whether or not it creates a unit) appends its item at the
    end, dropping the oldest item exactly when 50 are already there. *)
Theorem X1_history_holds_the_last_fifty_spawns
    (d : Dimensions.t) (actions : list Action)
    (x y : Q) (o : option Ref) (inside : bool) (now : Z) (offCtx : bool) :
  let w := run actions (mount d) in
  let w' := exec (spawnPlant x y o inside now offCtx) w in
  let item := PlantHistoryItem.mk x y (List.length (World.heap w)) now in
  (List.length (World.plantHistory w) <= 50)%nat
  /\ World.plantHistory w'
     = (if (List.length (World.plantHistory w) <? 50)%nat
        then World.plantHistory w
        else tl (World.plantHistory w)) ++ [item].
Proof.
  intros w w' item.
  pose proof (tidy_history (tidy_reachable actions d)) as L. fold w in L.
  split; [exact L|].
  destruct (spawnPlant_effect x y o inside now offCtx w) as (_ & _ & Hp & _).
  fold w' item in Hp. rewrite Hp. unfold capHistory.
  rewrite length_app. simpl.
  destruct (List.length (World.plantHistory w) <? 50)%nat eqn:E.
  - apply Nat.ltb_lt in E.
    destruct (50 <? List.length (World.plantHistory w) + 1)%nat eqn:F;
      [|reflexivity].
    apply Nat.ltb_lt in F. lia.
  - apply Nat.ltb_ge in E.
    destruct (50 <? List.length (World.plantHistory w) + 1)%nat eqn:F.
    + destruct (World.plantHistory w); [simpl in E; lia | reflexivity].
    + apply Nat.ltb_ge in F. lia.
Qed.

(** X2.  The context menu copies the settings of the history item
    nearest to the pointer, in container coordinates, among those at a
    distance below 100: the item it picks is strictly nearer than every
    older item and at least as near as every newer one.  When no item is
    that near it copies the live settings.  Without a bounding rectangle
    of the container it copies nothing.  It never changes the state.  This
    holds whatever function stands for [Math.sqrt]. *)
Theorem X2_context_menu_copies_nearest
    (Math_sqrt : Q -> Q) (e : PointerEvent.t) (rect : DOMRect.t)
    (w : World.t) :
  let clientX := PointerEvent.clientX e - DOMRect.left rect in
  let clientY := PointerEvent.clientY e - DOMRect.top rect in
  let dist := distanceTo Math_sqrt clientX clientY in
  let copied := eval (handleContextMenu Math_sqrt e (Some rect)) w in
  handleContextMenu Math_sqrt e None w = (None, w)
  /\ exec (handleContextMenu Math_sqrt e (Some rect)) w = w
  /\ ((copied = Some (World.settings w)
       /\ forall i, In i (World.plantHistory w) -> 100 <= dist i)
      \/ exists before item after,
           World.plantHistory w = before ++ item :: after
           /\ copied = Some (PlantHistoryItem.settings item)
           /\ dist item < 100
           /\ (forall i, In i before -> dist item < dist i)
           /\ (forall i, In i after -> dist item <= dist i)).
Proof.
  intros clientX clientY dist copied. split; [reflexivity|].
  assert (U : handleContextMenu Math_sqrt e (Some rect) w
              = (match closestFrom Math_sqrt clientX clientY
                         (World.plantHistory w) None 100 with
                 | Some closest => Some (PlantHistoryItem.settings closest)
                 | None => Some (World.settings w)
                 end, w)).
  { unfold handleContextMenu, bind, get, ret. fold clientX clientY.
    destruct (closestFrom Math_sqrt clientX clientY (World.plantHistory w)
                None 100); reflexivity. }
  subst copied. unfold exec, eval. rewrite U. simpl.
  split; [reflexivity|].
  destruct (closestFrom_spec Math_sqrt clientX clientY
              (World.plantHistory w) None 100)
    as [(R & N)|(b & c & a & Hl & R & Hd & Hb & Ha)]; rewrite R.
  - left. split; [reflexivity | exact N].
  - right. exists b, c, a. repeat split; assumption.
Qed.

(** X3.  In every state the application can reach, each contained plant
    draws on a canvas of its own: its context is the context of its
    canvas, the canvas is allocated, and no two contained plants have the
    same canvas.  Every unit that does not draw on the outside canvas
    draws on the canvas of a contained plant that still exists. *)
Theorem X3_contained_plants_own_their_canvases
    (d : Dimensions.t) (actions : list Action) :
  let w := run actions (mount d) in
  (forall p, In p (World.bottlePlants w) ->
     BottlePlant.ctx p = CtxOff (BottlePlant.canvas p)
     /\ (BottlePlant.canvas p < List.length (World.offscreen w))%nat)
  /\ NoDup (map BottlePlant.canvas (World.bottlePlants w))
  /\ (forall g, In g (World.growers w) ->
        Grower.ctx g = CtxOutside
        \/ exists p, In p (World.bottlePlants w)
                     /\ Grower.ctx g = BottlePlant.ctx p).
Proof.
  intro w. destruct (tidy_reachable actions d) as [_ _ Tp Tc Tg].
  fold w in Tp, Tc, Tg. rewrite Forall_forall in Tp, Tg.
  split; [exact Tp|]. split; [exact Tc|].
  intros g Hg. destruct (Grower.ctx g) as [|i] eqn:E; [left; reflexivity|].
  right. specialize (Tg g Hg i E).
  apply in_map_iff in Tg. destruct Tg as (p & Hc & Hp).
  exists p. split; [exact Hp|].
  destruct (Tp p Hp) as (-> & _). rewrite Hc. reflexivity.
Qed.

(** ** What a spawn leaves alone *)

Lemma sameSession_refl w : sameSession w w.
Proof. repeat split. Qed.

Lemma sameSession_trans w1 w2 w3 :
  sameSession w1 w2 -> sameSession w2 w3 -> sameSession w1 w3.
Proof.
  intros (A1 & A2 & A3 & A4) (B1 & B2 & B3 & B4).
  repeat split; congruence.
Qed.

Ltac unmoved :=
  repeat first
    [ apply (keeps_bind sameSession sameSession_trans); [|intro]
    | solve [intro; repeat split]
    | match goal with
      | |- keeps _ (if ?b then _ else _) => destruct b
      | |- keeps _ (match ?x with _ => _ end) => destruct x
      end ].

Lemma sameSession_spawnPlant x y o inside now offCtx :
  keeps sameSession (spawnPlant x y o inside now offCtx).
Proof.
  unfold spawnPlant, saveHistory, createGrower, uuid. unmoved.
Qed.

(** ** Undo *)

Lemma undo_frame w :
  let w' := exec undoLastBottlePlant w in
  World.canvasOutside w' = World.canvasOutside w
  /\ World.canvasInside w' = World.canvasInside w
  /\ World.offscreen w' = World.offscreen w
  /\ World.dragState w' = World.dragState w
  /\ World.bottleRect w' = World.bottleRect w
  /\ World.dimensions w' = World.dimensions w
  /\ World.randomCalls w' = World.randomCalls w
  /\ World.clearTrigger w' = World.clearTrigger w.
Proof.
  cbv zeta. rewrite undo_unfold.
  destruct (pop (World.bottlePlants w)) as [[popped|] rest]; repeat split.
Qed.

(** Undoing right after a plant and its unit were appended. *)
Lemma undo_appended w w1 p u :
  tidy w ->
  World.bottlePlants w1 = World.bottlePlants w ++ [p] ->
  World.growers w1 = World.growers w ++ [u] ->
  BottlePlant.ctx p = CtxOff (List.length (World.offscreen w)) ->
  Grower.ctx u = CtxOff (List.length (World.offscreen w)) ->
  World.bottlePlants (exec undoLastBottlePlant w1) = World.bottlePlants w
  /\ World.growers (exec undoLastBottlePlant w1) = World.growers w.
Proof.
  intros [_ _ Tp _ Tg] Hb Hg Hp Hu.
  destruct (undo_spec w1 _ _ Hb) as (-> & ->). split; [reflexivity|].
  rewrite Hg, filter_app, Hp. simpl. rewrite Hu. simpl.
  rewrite Nat.eqb_refl. simpl. rewrite app_nil_r.
  apply forallb_filter_id. apply forallb_forall. intros g Hin.
  rewrite Forall_forall in Tp, Tg.
  destruct (Grower.ctx g) as [|i] eqn:E; [reflexivity|]. simpl.
  specialize (Tg g Hin i E). apply in_map_iff in Tg.
  destruct Tg as (q & Hi & Hq). destruct (Tp q Hq) as (_ & L).
  rewrite Hi in L. apply negb_true_iff, Nat.eqb_neq. lia.
Qed.

(** X4.  Undo retracts a spawn into the bottle.  In every state the
    application can reach, spawning into the bottle and then undoing
    gives back the contained plants and the units as they were, in their
    order: the undo removes the new plant and its unit and nothing else.
    The two canvases of the component, the drag session and the live
    settings are as before, and every canvas that existed is unchanged.
    The history item of the spawn stays. *)
Theorem X4_undo_retracts_a_spawn_into_the_bottle
    (d : Dimensions.t) (actions : list Action)
    (x y : Q) (o : option Ref) (now : Z) :
  let w := run actions (mount d) in
  let w1 := exec (spawnPlant x y o true now true) w in
  let w2 := exec undoLastBottlePlant w1 in
  World.bottlePlants w2 = World.bottlePlants w
  /\ World.growers w2 = World.growers w
  /\ World.canvasOutside w2 = World.canvasOutside w
  /\ World.canvasInside w2 = World.canvasInside w
  /\ World.dragState w2 = World.dragState w
  /\ World.settings w2 = World.settings w
  /\ firstn (List.length (World.offscreen w)) (World.offscreen w2)
     = World.offscreen w
  /\ World.plantHistory w2
     = capHistory (World.plantHistory w
                   ++ [PlantHistoryItem.mk x y (List.length (World.heap w)) now]).
Proof.
  cbv zeta.
  generalize (tidy_reachable actions d).
  generalize (run actions (mount d)). intros w T.
  destruct (spawnPlant_inside x y o now w)
    as (id & u & Ho & Hb & Hg & Hc & _).
  destruct (sameCanvases_spawnPlant x y o now true w) as (Si & _ & So).
  destruct (sameSession_spawnPlant x y o true now true w) as (Sd & _ & Ss & _).
  destruct (spawnPlant_effect x y o true now true w) as (_ & _ & Hp & _).
  revert Ho Hb Hg Si So Sd Ss Hp.
  generalize (exec (spawnPlant x y o true now true) w).
  intros w1 Ho Hb Hg Si So Sd Ss Hp.
  destruct (undo_appended w w1 _ u T Hb Hg eq_refl Hc) as (Ub & Ug).
  destruct (undo_frame w1) as (Uo & Ui & Uf & Ud & _).
  destruct (undo_effect w1) as (_ & Us & Uh & _).
  rewrite Ub, Ug, Uo, Ui, Uf, Ud, Us, Uh, So, Si, Sd, Ss, Hp, Ho.
  rewrite firstn_app, Nat.sub_diag, firstn_all, app_nil_r.
  repeat split.
Qed.

(** ** Growth comes to an end *)

Lemma Qnat_lt_inv (a b : nat) : Qnat a < Qnat b -> (a < b)%nat.
Proof.
  unfold Qnat. rewrite <- Zlt_Qlt. lia.
Qed.

Lemma Qnat_add (a b : nat) : Qnat (a + b) == Qnat a + Qnat b.
Proof.
  unfold Qnat. rewrite Nat2Z.inj_add, inject_Z_plus. reflexivity.
Qed.

Lemma Qdiv_Qnat_le (a : Q) (M n : nat) :
  a <= Qnat M -> a / Qnat (n + 1) <= Qnat M.
Proof.
  intro H. pose proof (Qnat_pos n) as P.
  assert (P1 : 1 <= Qnat (n + 1)).
  { unfold Qnat. change 1 with (inject_Z 1). rewrite <- Zle_Qle. lia. }
  assert (M0 : 0 <= Qnat M).
  { unfold Qnat. change 0 with (inject_Z 0). rewrite <- Zle_Qle. lia. }
  apply Qle_shift_div_r; [exact P|].
  generalize dependent (Qnat (n + 1)). generalize dependent (Qnat M).
  intros m H M0 q P P1. nra.
Qed.

Lemma update_heap w : World.heap (exec update w) = World.heap w.
Proof.
  destruct (processGrowers_frame w) as (_ & _ & _ & _ & Ph & _).
  unfold update. rewrite exec_bind.
  destruct (composite_rest (exec processGrowers w))
    as (_ & _ & _ & _ & _ & ->).
  exact Ph.
Qed.

Section Remaining.
Variable M : nat.

Lemma unit_maxLife_bound w g :
  wellFormed w -> tidy w -> boundedLife M w -> In g (World.growers w) ->
  Grower.maxLife g <= Qnat M.
Proof.
  intros W T B Hg.
  pose proof (tidy_scaled T) as Ts. pose proof (wf_growers W) as Wg.
  unfold boundedLife in B. rewrite Forall_forall in Ts, Wg, B.
  destruct (Ts g Hg) as (-> & _).
  apply Qdiv_Qnat_le. apply B. apply nth_In. apply Wg, Hg.
Qed.

Lemma update_remaining k w :
  wellFormed w -> tidy w -> boundedLife M w ->
  Forall (fun g => (remaining M g + k <= 3 * (M + 50))%nat) (World.growers w) ->
  Forall (fun g => (remaining M g + S k <= 3 * (M + 50))%nat
                   /\ (Grower.life g < M + 50)%nat)
         (World.growers (exec update w)).
Proof.
  intros W T B R.
  assert (B' : boundedLife M (exec update w))
    by (unfold boundedLife; rewrite update_heap; exact B).
  pose proof (wellFormed_update w W) as W'.
  pose proof (tidy_update w T) as T'.
  assert (Young : forall u, In u (World.growers (exec update w)) ->
                            (Grower.life u < M + 50)%nat).
  { intros u Hu.
    pose proof (unit_maxLife_bound _ u W' T' B' Hu) as Hm.
    rewrite update_growers in Hu. apply filter_In in Hu.
    destruct Hu as (_ & K). apply keep_lt in K.
    apply Qnat_lt_inv. rewrite Qnat_add.
    eapply Qlt_le_trans; [exact K|].
    change (Qnat 50) with 50. lra. }
  apply Forall_forall. intros u Hu. split; [|apply Young, Hu].
  pose proof (Young u Hu) as Y.
  rewrite update_growers in Hu. apply filter_In in Hu. destruct Hu as (Hu & _).
  destruct (forEachGrower_eval (World.growers w) w) as [F P].
  rewrite Forall_forall in R.
  apply in_app_or in Hu. destruct Hu as [Hu|Hu].
  - destruct (Forall2_In_r _ _ _ _ F Hu) as (g & Hg & S).
    destruct (stepGrower_same _ _ S) as (El & _ & _ & _ & Eg & _).
    specialize (R g Hg). unfold remaining in *. rewrite El, Eg in *. lia.
  - destruct (P u Hu) as (g & w0 & Hg & _ & Hp).
    destruct (stepGrower_pushed g w0 u Hp) as (Nt & L & Eg & _ & _ & El & _).
    pose proof (unit_maxLife_bound _ g W T B Hg) as Hm.
    assert (Lg : (Grower.life g < M)%nat).
    { apply Qnat_lt_inv. eapply Qlt_le_trans; [|exact Hm].
      unfold isTerminal in Nt. apply orb_false_iff in Nt.
      destruct Nt as (Nt & _).
      apply Qnot_le_lt. intro H. apply Qle_bool_iff in H. congruence. }
    specialize (R g Hg). unfold remaining in *. rewrite El, Eg in *.
    destruct (Grower.generation g) as [|[|n]]; simpl in *; lia.
Qed.

Lemma frames_remaining n k w :
  wellFormed w -> tidy w -> boundedLife M w ->
  Forall (fun g => (remaining M g + k <= 3 * (M + 50))%nat
                   /\ (k = 0 \/ Grower.life g < M + 50)%nat)
         (World.growers w) ->
  Forall (fun g => (remaining M g + (k + n) <= 3 * (M + 50))%nat
                   /\ (k + n = 0 \/ Grower.life g < M + 50)%nat)
         (World.growers (run (frames n) w)).
Proof.
  revert k w. induction n as [|n IH]; intros k w W T B R.
  - simpl. rewrite Nat.add_0_r. exact R.
  - change (run (frames (S n)) w) with (run (frames n) (exec update w)).
    replace (k + S n)%nat with (S k + n)%nat by lia.
    apply IH.
    + apply wellFormed_update, W.
    + apply tidy_update, T.
    + unfold boundedLife. rewrite update_heap. exact B.
    + eapply Forall_impl; [|apply (update_remaining k w W T B)].
      * intros g (A & C). split; [exact A | right; exact C].
      * eapply Forall_impl; [|exact R]. intros g (A & _). exact A.
Qed.

Lemma frames_empty n w :
  wellFormed w -> tidy w -> boundedLife M w -> (3 * (M + 50) <= n)%nat ->
  World.growers (run (frames n) w) = [].
Proof.
  intros W T B L.
  assert (R : Forall (fun g => (remaining M g + 0 <= 3 * (M + 50))%nat
                               /\ (0 = 0 \/ Grower.life g < M + 50)%nat)
                     (World.growers w)).
  { apply Forall_forall. intros g _. split; [|left; reflexivity].
    unfold remaining.
    assert ((2 - Grower.generation g) * (M + 50) <= 2 * (M + 50))%nat
      by (apply Nat.mul_le_mono_r; lia).
    lia. }
  pose proof (frames_remaining n 0 w W T B R) as F.
  destruct (World.growers (run (frames n) w)) as [|g l]; [reflexivity|].
  exfalso. inversion F as [|? ? (A & C) _]; subst.
  unfold remaining in A.
  generalize dependent ((2 - Grower.generation g) * (M + 50))%nat.
  intros q A. simpl in C. destruct C as [C|C]; lia.
Qed.

End Remaining.

(** X5.  Growth comes to an end.  From any state the application can
    reach, if no settings object has a maxLife above M, then 3 * (M + 50)
    animation frames, or more, with no other event in between leave no
    live unit: every unit and every branch it made has been dropped. *)
Theorem X5_growth_comes_to_an_end
    (d : Dimensions.t) (actions : list Action) (M n : nat) :
  let w := run actions (mount d) in
  Forall (fun s => PlantSettings.maxLife s <= Qnat M) (World.heap w) ->
  (3 * (M + 50) <= n)%nat ->
  World.growers (run (frames n) w) = [].
Proof.
  intros w B L. apply (frames_empty M); try assumption.
  - apply wellFormed_run, wellFormed_mount.
  - apply tidy_reachable.
Qed.

(** ** A garden at rest *)

Lemma composite_unfold w cv :
  World.canvasInside w = Some cv ->
  Canvas.width cv = Dimensions.width (World.dimensions w) ->
  Canvas.height cv = Dimensions.height (World.dimensions w) ->
  exec compositeBottlePlants w
  = World.set_canvasInside
      (Some (Canvas.mk (Canvas.width cv) (Canvas.height cv)
                       (map (compositeOp w) (World.bottlePlants w)))) w.
Proof.
  intros E Hw Hh. unfold compositeBottlePlants, modify, exec. simpl.
  rewrite E. unfold Canvas.clearRect, fullWidth, fullHeight.
  rewrite <- Hw, <- Hh, covers_full, fold_left_draw. reflexivity.
Qed.

Lemma processGrowers_idle w :
  World.growers w = [] -> exec processGrowers w = World.set_growers [] w.
Proof.
  intro E. unfold processGrowers. rewrite exec_bind.
  change (eval (get World.growers) w) with (World.growers w).
  change (exec (get World.growers) w) with w.
  rewrite E. reflexivity.
Qed.

Lemma update_idle w cv :
  World.growers w = [] ->
  World.canvasInside w = Some cv ->
  Canvas.width cv = Dimensions.width (World.dimensions w) ->
  Canvas.height cv = Dimensions.height (World.dimensions w) ->
  exec update w
  = World.set_canvasInside
      (Some (Canvas.mk (Canvas.width cv) (Canvas.height cv)
                       (map (compositeOp w) (World.bottlePlants w))))
      (World.set_growers [] w).
Proof.
  intros E Hc Hw Hh. unfold update. rewrite exec_bind.
  rewrite (processGrowers_idle w E).
  rewrite (composite_unfold (World.set_growers [] w) cv Hc Hw Hh).
  reflexivity.
Qed.

(** X6.  A garden at rest stays at rest.  In every state the application
    can reach in which no unit is live, an animation frame draws no
    random number and leaves the outside canvas and the canvases of the
    plants as they are; it only composites the view: one image per
    contained plant.  A second frame then changes nothing at all. *)
Theorem X6_idle_frame_changes_nothing
    (d : Dimensions.t) (actions : list Action) :
  let w := run actions (mount d) in
  World.growers w = [] ->
  let w' := exec update w in
  World.randomCalls w' = World.randomCalls w
  /\ World.canvasOutside w' = World.canvasOutside w
  /\ World.offscreen w' = World.offscreen w
  /\ World.growers w' = []
  /\ World.canvasInside w'
     = Some (Canvas.mk (Dimensions.width (World.dimensions w))
               (Dimensions.height (World.dimensions w))
               (map (compositeOp w) (World.bottlePlants w)))
  /\ exec update w' = w'.
Proof.
  cbv zeta. generalize (mounted_run actions (mount d) (mounted_mount d)).
  generalize (run actions (mount d)).
  intros w [_ (cv & Hc & Hw & Hh)] E.
  rewrite (update_idle w cv E Hc Hw Hh).
  set (cv' := Canvas.mk (Canvas.width cv) (Canvas.height cv)
                (map (compositeOp w) (World.bottlePlants w))).
  set (w' := World.set_canvasInside (Some cv') (World.set_growers [] w)).
  repeat split.
  - unfold w', cv'. simpl. rewrite Hw, Hh. reflexivity.
  - rewrite (update_idle w' cv' eq_refl eq_refl Hw Hh). reflexivity.
Qed.

(** ** A drag gesture *)

Lemma setCurrentX_twice pid v1 v2 l :
  setCurrentX pid v2 (setCurrentX pid v1 l) = setCurrentX pid v2 l.
Proof.
  induction l as [|p l IH]; simpl; [reflexivity|].
  destruct (String.eqb (BottlePlant.id p) pid) eqn:E; simpl; rewrite E.
  - reflexivity.
  - rewrite IH. reflexivity.
Qed.

Lemma setCurrentX_middle t before p after :
  ~ In (BottlePlant.id p) (map BottlePlant.id before) ->
  setCurrentX (BottlePlant.id p) t (before ++ p :: after)
  = before ++ BottlePlant.set_currentX t p :: after.
Proof.
  induction before as [|q before IH]; intro N; simpl.
  - rewrite String.eqb_refl. reflexivity.
  - destruct (String.eqb (BottlePlant.id q) (BottlePlant.id p)) eqn:E.
    + apply String.eqb_eq in E. exfalso. apply N. left. exact E.
    + rewrite IH; [reflexivity|]. intro H. apply N. right. exact H.
Qed.

Lemma find_id_In p l :
  In p l ->
  exists q, find (fun q => String.eqb (BottlePlant.id q) (BottlePlant.id p)) l
            = Some q.
Proof.
  induction l as [|a l IH]; intros [].
  - subst a. simpl. rewrite String.eqb_refl. eexists. reflexivity.
  - simpl. destruct (String.eqb (BottlePlant.id a) (BottlePlant.id p)).
    + eexists. reflexivity.
    + apply IH. assumption.
Qed.

Lemma move_dragging e rect now w d plant :
  World.dragState w = Some d ->
  find (fun p => String.eqb (BottlePlant.id p) (DragState.plantId d))
       (World.bottlePlants w) = Some plant ->
  exec (handlePointerMove e (Some rect) now) w
  = World.set_bottlePlants
      (setCurrentX (DragState.plantId d)
         (dragTarget d (PointerEvent.clientX e - DOMRect.left rect)
                     (World.bottleRect w) rect)
         (World.bottlePlants w)) w.
Proof.
  intros Hd Hf. unfold handlePointerMove. rewrite !exec_bind.
  change (eval (get World.dragState) w) with (World.dragState w).
  change (exec (get World.dragState) w) with w.
  rewrite Hd. rewrite !exec_bind.
  change (eval (get World.bottlePlants) w) with (World.bottlePlants w).
  change (exec (get World.bottlePlants) w) with w.
  rewrite Hf. reflexivity.
Qed.

Section Dragging.
Variable d : DragState.t.
Variable w1 : World.t.
Hypothesis session : World.dragState w1 = Some d.

Lemma dragging_move e rect now w :
  dragging d w1 w ->
  exec (handlePointerMove e (Some rect) now) w
  = World.set_bottlePlants
      (setCurrentX (DragState.plantId d)
         (dragTarget d (PointerEvent.clientX e - DOMRect.left rect)
                     (World.bottleRect w1) rect)
         (World.bottlePlants w1)) w1.
Proof.
  intros (E & S & q & F).
  assert (Hd : World.dragState w = Some d) by (rewrite E; exact session).
  assert (Hr : World.bottleRect w = World.bottleRect w1)
    by (rewrite E; reflexivity).
  rewrite (move_dragging e rect now w d q Hd F), Hr, S.
  rewrite E at 1. reflexivity.
Qed.

Lemma dragging_step m w :
  dragging d w1 w -> dragging d w1 (exec (act (moveAction m)) w).
Proof.
  intro D. destruct m as [[e [rect|]] now]; [|exact D].
  change (dragging d w1 (exec (handlePointerMove e (Some rect) now) w)).
  rewrite (dragging_move e rect now w D).
  destruct D as (E & S & q & F).
  split; [reflexivity|]. split.
  - intro t. simpl. rewrite setCurrentX_twice. reflexivity.
  - simpl.
    assert (exists q1, find (fun p => String.eqb (BottlePlant.id p)
                                        (DragState.plantId d))
                            (World.bottlePlants w1) = Some q1) as (q1 & F1).
    { destruct (find (fun p => String.eqb (BottlePlant.id p)
                                          (DragState.plantId d))
                     (World.bottlePlants w1)) as [q1|] eqn:F1;
        [eexists; reflexivity|].
      exfalso.
      assert (Z : forall l t,
                find (fun p => String.eqb (BottlePlant.id p)
                                          (DragState.plantId d)) l = None ->
                setCurrentX (DragState.plantId d) t l = l).
      { induction l as [|a l IH]; intros t H; simpl in *; [reflexivity|].
        destruct (String.eqb (BottlePlant.id a) (DragState.plantId d));
          [discriminate|]. rewrite IH; [reflexivity | exact H]. }
      pose proof (S 0) as S0. rewrite (Z _ 0 F1) in S0.
      pose proof (find_setCurrentX _ 0 _ _ F) as F'.
      rewrite S0, F1 in F'. discriminate. }
    eexists. apply find_setCurrentX. exact F1.
Qed.

Lemma dragging_run ms w :
  dragging d w1 w -> dragging d w1 (run (map moveAction ms) w).
Proof.
  revert w. induction ms as [|m ms IH]; intros w D; simpl; [exact D|].
  apply IH, dragging_step, D.
Qed.

Lemma dragging_start q :
  find (fun p => String.eqb (BottlePlant.id p) (DragState.plantId d))
       (World.bottlePlants w1) = Some q ->
  dragging d w1 w1.
Proof.
  intro F. split; [destruct w1; reflexivity|]. split; [reflexivity|].
  exists q. exact F.
Qed.

End Dragging.

Lemma run_app l1 l2 w : run (l1 ++ l2) w = run l2 (run l1 w).
Proof.
  revert w. induction l1 as [|a l1 IH]; intro w; simpl; [reflexivity|].
  apply IH.
Qed.

Lemma handlePointerDown_hit e rect now w p :
  PointerEvent.button e = 0%Z ->
  find (hitTest (PointerEvent.clientX e - DOMRect.left rect)
                (PointerEvent.clientY e - DOMRect.top rect))
       (World.bottlePlants w) = Some p ->
  exec (handlePointerDown e (Some rect) now) w
  = World.set_dragState
      (Some (DragState.mk (BottlePlant.id p)
               (PointerEvent.clientX e - DOMRect.left rect)
               (BottlePlant.currentX p))) w.
Proof.
  intros Hb Hf. unfold handlePointerDown. rewrite Hb. simpl negb. cbv iota.
  rewrite exec_bind.
  change (eval (get World.bottlePlants) w) with (World.bottlePlants w).
  change (exec (get World.bottlePlants) w) with w.
  rewrite Hf. reflexivity.
Qed.

(** X7.  A drag gesture.  A press with the primary button on a contained
    plant (the first plant whose current position is less than 40 beside
    the pointer and whose base is less than 400 below it) starts a
    session and does nothing else.  If the
    plants have distinct ids, then after any number of pointer-moves the
    plant that was pressed sits at the target of the last move with a
    bounding rectangle: the position it had at the press plus the
    distance from the press to that move, constrained to the bottle.
    Moves do not add up, every other plant stays where it was, and
    nothing else in the state changes: no spawn, no random draw, the
    session still active.  The release ends the session and moves
    nothing. *)
Theorem X7_drag_follows_the_pointer
    (w : World.t) (e0 : PointerEvent.t) (rect0 : DOMRect.t) (now0 : Z)
    (p : BottlePlant.t)
    (moves : list (PointerEvent.t * option DOMRect.t * Z))
    (e : PointerEvent.t) (rect : DOMRect.t) (now : Z) :
  let x0 := PointerEvent.clientX e0 - DOMRect.left rect0 in
  let y0 := PointerEvent.clientY e0 - DOMRect.top rect0 in
  let x := PointerEvent.clientX e - DOMRect.left rect in
  PointerEvent.button e0 = 0%Z ->
  find (hitTest x0 y0) (World.bottlePlants w) = Some p ->
  NoDup (map BottlePlant.id (World.bottlePlants w)) ->
  let d := DragState.mk (BottlePlant.id p) x0 (BottlePlant.currentX p) in
  let w1 := exec (handlePointerDown e0 (Some rect0) now0) w in
  let w2 := run (map moveAction moves ++ [PointerMove e (Some rect) now]) w1 in
  let target := dragTarget d x (World.bottleRect w) rect in
  w1 = World.set_dragState (Some d) w
  /\ (exists before after,
        World.bottlePlants w = before ++ p :: after
        /\ World.bottlePlants w2
           = before ++ BottlePlant.set_currentX target p :: after)
  /\ w2 = World.set_bottlePlants (World.bottlePlants w2) w1
  /\ (World.bottleRect w = None -> target = BottlePlant.currentX p + (x - x0))
  /\ exec handlePointerUp w2 = World.set_dragState None w2.
Proof.
  intros x0 y0 x Hb Hf Hn d w1 w2 target.
  assert (E1 : w1 = World.set_dragState (Some d) w)
    by (apply handlePointerDown_hit; assumption).
  subst w2. rewrite E1. clear E1 w1.
  set (w1 := World.set_dragState (Some d) w).
  split; [reflexivity|].
  destruct (find_some _ _ Hf) as (Hin & _).
  destruct (find_id_In p _ Hin) as (q & Hq).
  assert (D : dragging d w1 (run (map moveAction moves) w1)).
  { apply dragging_run; [reflexivity|].
    apply (dragging_start d w1 eq_refl q). exact Hq. }
  rewrite run_app.
  change (run [PointerMove e (Some rect) now] (run (map moveAction moves) w1))
    with (exec (handlePointerMove e (Some rect) now)
               (run (map moveAction moves) w1)).
  rewrite (dragging_move d w1 eq_refl e rect now _ D).
  fold x. change (World.bottleRect w1) with (World.bottleRect w).
  change (World.bottlePlants w1) with (World.bottlePlants w).
  change (DragState.plantId d) with (BottlePlant.id p). fold target.
  split; [|split; [reflexivity|split; [|reflexivity]]].
  - destruct (in_split _ _ Hin) as (before & after & Hs).
    exists before, after. split; [exact Hs|].
    simpl. rewrite Hs. apply setCurrentX_middle.
    rewrite Hs, map_app in Hn. simpl in Hn.
    apply NoDup_remove_2 in Hn. intro H. apply Hn.
    apply in_or_app. left. exact H.
  - intro Hr. unfold target, dragTarget. rewrite Hr. reflexivity.
Qed.

(** ** Import and presets *)

Lemma handleImport_guard parsed :
  truthyString (Parsed.stemColorStart parsed) && present (Parsed.type parsed)
  = true
  <-> exists c t, Parsed.stemColorStart parsed = Some c /\ c <> ""%string
                  /\ Parsed.type parsed = Some t.
Proof.
  unfold truthyString, present. split.
  - destruct (Parsed.stemColorStart parsed) as [c|]; [|discriminate].
    destruct (Parsed.type parsed) as [t|];
      [|rewrite andb_false_r; discriminate].
    rewrite andb_true_r, negb_true_iff. intro E.
    exists c, t. split; [reflexivity|]. split; [|reflexivity].
    apply String.eqb_neq. exact E.
  - intros (c & t & -> & N & ->). apply String.eqb_neq in N.
    rewrite N. reflexivity.
Qed.

Lemma handleImport_valid parsed x y now offCtx w :
  truthyString (Parsed.stemColorStart parsed) && present (Parsed.type parsed)
  = true ->
  exec (handleImport parsed (Some (x, y)) now offCtx) w
  = exec (spawnPlant x y (Some (List.length (World.heap w))) true now offCtx)
         (World.set_settings (List.length (World.heap w))
            (World.set_heap (World.heap w ++ [Parsed.settings parsed]) w)).
Proof.
  intro H. unfold handleImport. rewrite H, !exec_bind. reflexivity.
Qed.

(** X8.  Importing a genome plants it.  A decoded value whose
    stemColorStart is missing or empty, or whose type is missing, is
    ignored: nothing changes.  A value with both becomes the live
    settings, as a new object; that is all when the bottle is not
    mounted.  When it is, and the canvas of the plant gets its context,
    one contained plant is appended at the spawn point together with one
    unit of generation 0 and age 0 there, drawing on the new canvas of
    that plant; plant and unit refer to the imported object, the unit has
    its maxLife and baseWidth undivided, and the history gets an item
    with a copy of it. *)
Theorem X8_import_plants_the_genome
    (parsed : Parsed.t) (x y : Q) (now : Z) (w : World.t) :
  let s := Parsed.settings parsed in
  let w' := exec (handleImport parsed (Some (x, y)) now true) w in
  let r := List.length (World.heap w) in
  let n := List.length (World.offscreen w) in
  (Parsed.stemColorStart parsed = None
   \/ Parsed.stemColorStart parsed = Some EmptyString
   \/ Parsed.type parsed = None ->
   forall bottle offCtx, exec (handleImport parsed bottle now offCtx) w = w)
  /\ (forall c t,
        Parsed.stemColorStart parsed = Some c -> c <> ""%string ->
        Parsed.type parsed = Some t ->
        PlantSettings.type s = t
        /\ PlantSettings.stemColorStart s = c
        /\ exec (handleImport parsed None now true) w
           = World.set_settings r (World.set_heap (World.heap w ++ [s]) w)
        /\ World.settings w' = r
        /\ World.heap w' = World.heap w ++ [s; s]
        /\ World.plantHistory w'
           = capHistory
               (World.plantHistory w ++ [PlantHistoryItem.mk x y (S r) now])
        /\ exists id u,
             World.bottlePlants w'
             = World.bottlePlants w
               ++ [BottlePlant.mk id x x y n (CtxOff n) r]
             /\ World.growers w' = World.growers w ++ [u]
             /\ Grower.settings u = r /\ Grower.ctx u = CtxOff n
             /\ Grower.generation u = 0%nat /\ Grower.life u = 0%nat
             /\ Grower.x u = x /\ Grower.y u = y
             /\ Grower.maxLife u == Parsed.maxLife parsed
             /\ Grower.width u == Parsed.baseWidth parsed).
Proof.
  intros s w' r n. split.
  { intros E bottle offCtx. unfold handleImport.
    destruct (truthyString (Parsed.stemColorStart parsed)
              && present (Parsed.type parsed)) eqn:G; [|reflexivity].
    apply handleImport_guard in G. destruct G as (c & t & Hc & N & Ht).
    destruct E as [E|[E|E]]; congruence. }
  intros c t Hc N Ht.
  assert (G : truthyString (Parsed.stemColorStart parsed)
              && present (Parsed.type parsed) = true)
    by (apply handleImport_guard; exists c, t; auto).
  split; [unfold s, Parsed.settings; rewrite Ht; reflexivity|].
  split; [unfold s, Parsed.settings; rewrite Hc; reflexivity|].
  split.
  { unfold handleImport. rewrite G. reflexivity. }
  subst w'. rewrite (handleImport_valid _ _ _ _ _ _ G).
  assert (Em : PlantSettings.maxLife s = Parsed.maxLife parsed
               /\ PlantSettings.baseWidth s = Parsed.baseWidth parsed)
    by (split; reflexivity).
  fold r. fold s. clearbody s.
  set (w1 := World.set_settings r (World.set_heap (World.heap w ++ [s]) w)).
  destruct (spawnPlant_effect x y (Some r) true now true w1)
    as (Hh & Hs & Hp & _ & Hg).
  destruct (spawnPlant_inside x y (Some r) now w1)
    as (id & u & _ & Hb & Hu & Hcx & Hus & Hgen & Hl & Hx & Hy).
  assert (L : List.length (World.heap w1) = S r).
  { unfold w1. simpl. rewrite length_app. simpl. unfold r. lia. }
  assert (Nr : nth r (World.heap w1) PRESET_VINE = s).
  { unfold w1. simpl. unfold r. rewrite nth_middle. reflexivity. }
  revert Hh Hs Hp Hg Hb Hu Hcx Hus Hgen Hl Hx Hy.
  generalize (exec (spawnPlant x y (Some r) true now true) w1).
  intros w' Hh Hs Hp Hg Hb Hu Hcx Hus Hgen Hl Hx Hy.
  rewrite Nr in Hh. rewrite L in Hp.
  split; [exact Hs|]. split.
  { rewrite Hh. unfold w1. simpl. rewrite <- app_assoc. reflexivity. }
  split; [exact Hp|].
  assert (Sc : scaled (World.heap w') u).
  { destruct Hg as [Hg|(v & Hg & _ & _ & Sc)].
    - exfalso. rewrite Hu in Hg.
      apply (f_equal (@List.length _)) in Hg. rewrite length_app in Hg.
      simpl in Hg. lia.
    - rewrite Hu in Hg. apply app_inj_tail in Hg. destruct Hg as (_ & <-).
      exact Sc. }
  assert (Ns : nth (Grower.settings u) (World.heap w') PRESET_VINE = s).
  { rewrite Hus, Hh. rewrite app_nth1 by (rewrite L; unfold r; lia).
    exact Nr. }
  destruct Sc as (Sm & Sw). rewrite Ns, Hgen in Sm, Sw.
  exists id, u. repeat split; try assumption.
  - rewrite Sm. change (Qnat (0 + 1)) with 1. destruct Em as (-> & _). field.
  - rewrite Sw. change (Qnat (0 + 1)) with 1. destruct Em as (_ & ->). field.
Qed.

(** X9.  The presets are never overwritten.  In every state the
    application can reach, whatever edits, imports and spawns came
    before, applying a preset makes the live settings read exactly as
    the preset of that type was defined; it allocates nothing and leaves
    units, contained plants and history alone. *)
Theorem X9_presets_are_never_overwritten
    (d : Dimensions.t) (actions : list Action) (type : PlantType) :
  let w := run actions (mount d) in
  let w' := exec (applyPreset type) w in
  nth (World.settings w') (World.heap w') PRESET_VINE
  = nth (presetRef type) presetHeap PRESET_VINE
  /\ PlantSettings.type (nth (World.settings w') (World.heap w') PRESET_VINE)
     = type
  /\ World.heap w' = World.heap w
  /\ World.growers w' = World.growers w
  /\ World.bottlePlants w' = World.bottlePlants w
  /\ World.plantHistory w' = World.plantHistory w.
Proof.
  cbv zeta. generalize (wellFormed_run actions (mount d) (wellFormed_mount d)).
  generalize (run actions (mount d)). intros w [Wp _ _ _ _ _].
  change (exec (applyPreset type) w)
    with (World.set_settings (presetRef type) w).
  simpl.
  assert (E : nth (presetRef type) (World.heap w) PRESET_VINE
              = nth (presetRef type) presetHeap PRESET_VINE).
  { rewrite <- Wp. rewrite <- (firstn_skipn 5 (World.heap w)) at 1.
    apply app_nth1. pose proof (presetRef_bound type) as B.
    rewrite Wp. exact B. }
  rewrite E. repeat split. destruct type; reflexivity.
Qed.

(** ** Colour gradients *)

Lemma Math_round_lower (m : Z) (v : Q) : inject_Z m <= v -> (m <= Math_round v)%Z.
Proof.
  intro H. unfold Math_round. rewrite <- (Qfloor_Z m).
  apply Qfloor_resp_le. lra.
Qed.

Lemma Math_round_upper (m : Z) (v : Q) : v <= inject_Z m -> (Math_round v <= m)%Z.
Proof.
  intro H. unfold Math_round.
  pose proof (Qfloor_le (v + 0.5)) as F.
  assert (L : inject_Z (Qfloor (v + 0.5)) < inject_Z (m + 1)).
  { rewrite inject_Z_plus. change (inject_Z 1) with 1. lra. }
  rewrite <- Zlt_Qlt in L. lia.
Qed.

Lemma Math_round_Z (m : Z) (v : Q) : v == inject_Z m -> Math_round v = m.
Proof.
  intro H. apply Z.le_antisymm.
  - apply Math_round_upper. rewrite H. apply Qle_refl.
  - apply Math_round_lower. rewrite H. apply Qle_refl.
Qed.

Lemma clamp_unit (t : Q) :
  let c := Qmax 0 (Qmin 1 t) in
  0 <= c /\ c <= 1 /\ (t <= 0 -> c == 0) /\ (1 <= t -> c == 1).
Proof.
  cbv zeta.
  destruct (Q.max_spec 0 (Qmin 1 t)) as [(A & ->)|(A & ->)];
    destruct (Q.min_spec 1 t) as [(B & E)|(B & E)]; rewrite ?E in *;
    repeat split; intros; try lra.
Qed.

Lemma lerpChannel_between (a b : Z) (t : Q) :
  0 <= t -> t <= 1 ->
  exists c, lerpChannel (Some a) (Some b) t = Some c
            /\ (Z.min a b <= c <= Z.max a b)%Z
            /\ (t == 0 -> c = a) /\ (t == 1 -> c = b).
Proof.
  intros T0 T1. eexists. split; [reflexivity|].
  assert (Hab : forall x y : Z, (x <= y)%Z -> inject_Z x <= inject_Z y)
    by (intros; rewrite <- Zle_Qle; assumption).
  split; [|split].
  - destruct (Z.le_ge_cases a b) as [L|L]; pose proof (Hab _ _ L) as Q.
    + rewrite Z.min_l, Z.max_r by exact L. split.
      * apply Math_round_lower. nra.
      * apply Math_round_upper. nra.
    + rewrite Z.min_r, Z.max_l by exact L. split.
      * apply Math_round_lower. nra.
      * apply Math_round_upper. nra.
  - intro E. apply Math_round_Z. rewrite E. ring.
  - intro E. apply Math_round_Z. rewrite E. ring.
Qed.

(** X10.  A gradient colour stays between its end colours.  When both
    colour strings parse, every channel of [lerpColor start end t] is an
    integer between the channel of the start colour and that of the end
    colour, for every t, also outside [0, 1]; for t <= 0 the result is the
    start colour and for t >= 1 the end colour. *)
Theorem X10_lerpColor_stays_between_the_endpoints
    (start end_ : string) (t : Q) (sr sg sb er eg eb : Z) :
  parse start = (Some sr, Some sg, Some sb) ->
  parse end_ = (Some er, Some eg, Some eb) ->
  exists r g b,
    lerpColor start end_ t = Rgb (Some r) (Some g) (Some b)
    /\ (Z.min sr er <= r <= Z.max sr er)%Z
    /\ (Z.min sg eg <= g <= Z.max sg eg)%Z
    /\ (Z.min sb eb <= b <= Z.max sb eb)%Z
    /\ (t <= 0 -> r = sr /\ g = sg /\ b = sb)
    /\ (1 <= t -> r = er /\ g = eg /\ b = eb).
Proof.
  intros Hs He. unfold lerpColor. rewrite Hs, He.
  destruct (clamp_unit t) as (C0 & C1 & Cl & Cr).
  set (c := Qmax 0 (Qmin 1 t)) in *. clearbody c.
  destruct (lerpChannel_between sr er c C0 C1) as (r & -> & Br & Lr & Rr).
  destruct (lerpChannel_between sg eg c C0 C1) as (g & -> & Bg & Lg & Rg).
  destruct (lerpChannel_between sb eb c C0 C1) as (b & -> & Bb & Lb & Rb).
  exists r, g, b. repeat split; try tauto; auto.
Qed.

(** ** The canvases of the plants are never erased *)

Lemma keptSurfaces_app w w' fresh :
  World.offscreen w' = World.offscreen w ++ fresh -> keptSurfaces w w'.
Proof.
  intros E i c H. exists c. split; [|apply extends_refl].
  rewrite E, nth_error_app1; [exact H|].
  apply nth_error_Some. congruence.
Qed.

Lemma keptSurfaces_same w w' :
  World.offscreen w' = World.offscreen w -> keptSurfaces w w'.
Proof.
  intro E. apply keptSurfaces_app with []. rewrite app_nil_r. exact E.
Qed.

Lemma keptSurfaces_trans w1 w2 w3 :
  keptSurfaces w1 w2 -> keptSurfaces w2 w3 -> keptSurfaces w1 w3.
Proof.
  intros A B i c H.
  destruct (A i c H) as (c2 & H2 & E2).
  destruct (B i c2 H2) as (c3 & H3 & E3).
  exists c3. split; [exact H3|]. eapply extends_trans; eassumption.
Qed.

Lemma keptSurfaces_Forall2 w w' :
  Forall2 (extends growthOp) (World.offscreen w) (World.offscreen w') ->
  keptSurfaces w w'.
Proof.
  intros F i. revert F. generalize (World.offscreen w) (World.offscreen w').
  induction i as [|i IH]; intros l l' F c H; destruct F; simpl in *;
    try discriminate.
  - inversion H; subst. eexists. split; [reflexivity | assumption].
  - eapply IH; eassumption.
Qed.

Lemma keptSurfaces_spawnPlant x y o inside now offCtx w :
  keptSurfaces w (exec (spawnPlant x y o inside now offCtx) w).
Proof.
  destruct inside; [destruct offCtx|].
  - destruct (spawnPlant_inside x y o now w) as (id & u & Ho & _).
    eapply keptSurfaces_app. exact Ho.
  - destruct (spawnPlant_noContext x y o now w) as (_ & _ & Ho).
    eapply keptSurfaces_app. exact Ho.
  - destruct (spawnPlant_outside x y o now offCtx w) as (Ho & _).
    apply keptSurfaces_same. exact Ho.
Qed.

Lemma keptSurfaces_act a w : keptSurfaces w (exec (act a) w).
Proof.
  destruct a; simpl act.
  - apply keptSurfaces_Forall2.
    destruct (processGrowers_frame w) as (_ & _ & _ & _ & _ & _ & _ & _ & _ & Po).
    unfold update. rewrite exec_bind.
    destruct (composite_rest (exec processGrowers w)) as (_ & _ & _ & -> & _).
    exact Po.
  - destruct (handlePointerDown_cases e rect now w)
      as [->|[(d & ->)|(x & y & ->)]].
    + apply keptSurfaces_same; reflexivity.
    + apply keptSurfaces_same; reflexivity.
    + apply keptSurfaces_spawnPlant.
  - destruct (handlePointerMove_cases e rect now w)
      as [->|[(pid & v & ->)|[->|(x & y & ->)]]].
    + apply keptSurfaces_same; reflexivity.
    + apply keptSurfaces_same; reflexivity.
    + apply keptSurfaces_same; reflexivity.
    + apply keptSurfaces_trans with (exec random w).
      * apply keptSurfaces_same; reflexivity.
      * apply keptSurfaces_spawnPlant.
  - apply keptSurfaces_same; reflexivity.
  - apply keptSurfaces_same. apply undo_frame.
  - apply keptSurfaces_same. apply clear_offscreen.
  - apply keptSurfaces_same. apply resize_offscreen.
  - apply keptSurfaces_same; reflexivity.
  - apply keptSurfaces_same; reflexivity.
  - apply keptSurfaces_same; reflexivity.
  - destruct (handleImport_effect parsed bottle now offCtx w)
      as [->|[->|(x & y & ->)]].
    + apply keptSurfaces_same; reflexivity.
    + apply keptSurfaces_same; reflexivity.
    + eapply keptSurfaces_trans; [|apply keptSurfaces_spawnPlant].
      apply keptSurfaces_same; reflexivity.
Qed.

(** X11.  The canvas of a plant is never erased.  From any state and
    through any sequence of events (frames, pointer events, undo, clear,
    resize, edits, imports), every canvas allocated for a contained plant
    stays allocated at its index, keeps its size, and holds what it held
    before followed by strokes, leaves and flowers only. *)
Theorem X11_plant_canvases_are_never_erased
    (w : World.t) (actions : list Action) (i : nat) (c : Canvas.t) :
  nth_error (World.offscreen w) i = Some c ->
  exists c',
    nth_error (World.offscreen (run actions w)) i = Some c'
    /\ Canvas.width c' = Canvas.width c
    /\ Canvas.height c' = Canvas.height c
    /\ exists new, Canvas.ops c' = Canvas.ops c ++ new
                   /\ forallb growthOp new = true.
Proof.
  assert (K : keptSurfaces w (run actions w)).
  { revert w. induction actions as [|a actions IH]; intro w; simpl.
    - apply keptSurfaces_same; reflexivity.
    - eapply keptSurfaces_trans; [apply keptSurfaces_act | apply IH]. }
  intro H. destruct (K i c H) as (c' & H' & E).
  exists c'. split; [exact H' | exact E].
Qed.

(** ** Resize *)

Lemma resize_canvases d w c cv :
  World.canvasOutside w = Some c -> World.canvasInside w = Some cv ->
  let w' := exec (handleResize d) w in
  let fill := OpFillRect paper 0 0 (inject_Z (Dimensions.width d))
                (inject_Z (Dimensions.height d)) in
  World.dimensions w' = d
  /\ World.canvasOutside w'
     = Some (Canvas.mk (Dimensions.width d) (Dimensions.height d) [fill; fill])
  /\ World.canvasInside w'
     = Some (Canvas.create (Dimensions.width d) (Dimensions.height d))
  /\ World.dragState w' = World.dragState w
  /\ World.bottleRect w' = World.bottleRect w
  /\ World.randomCalls w' = World.randomCalls w
  /\ World.clearTrigger w' = World.clearTrigger w.
Proof.
  intros Hc Hcv. cbv zeta.
  unfold handleResize, resizeEffect, clearEffect, resetCanvases, fillOutside,
    clearInside, modify, exec, bind.
  simpl. rewrite Hc, Hcv. simpl.
  unfold Canvas.clearRect, fullWidth, fullHeight. simpl.
  pose proof (covers_full (Canvas.create (Dimensions.width d)
                                         (Dimensions.height d))) as F.
  simpl in F. rewrite F. repeat split.
Qed.

(** X12.  A resize wipes the garden.  In every state the application can
    reach, a change of the size of the container drops every unit, every
    contained plant and the whole history, so that there is nothing left
    to undo or to copy; both canvases get the new size and lose their
    content, the outside canvas being painted with the paper colour by
    both effects that depend on the size.  The settings, the registered
    rectangle of the bottle and a drag session under way are kept. *)
Theorem X12_resize_wipes_the_garden
    (d : Dimensions.t) (actions : list Action) (d' : Dimensions.t) :
  let w := run actions (mount d) in
  let w' := exec (handleResize d') w in
  let fill := OpFillRect paper 0 0 (inject_Z (Dimensions.width d'))
                (inject_Z (Dimensions.height d')) in
  World.growers w' = []
  /\ World.bottlePlants w' = []
  /\ World.plantHistory w' = []
  /\ World.dimensions w' = d'
  /\ World.canvasOutside w'
     = Some (Canvas.mk (Dimensions.width d') (Dimensions.height d')
               [fill; fill])
  /\ World.canvasInside w'
     = Some (Canvas.create (Dimensions.width d') (Dimensions.height d'))
  /\ World.bottlePlants (exec undoLastBottlePlant w') = []
  /\ World.settings w' = World.settings w
  /\ World.heap w' = World.heap w
  /\ World.dragState w' = World.dragState w
  /\ World.bottleRect w' = World.bottleRect w.
Proof.
  cbv zeta. generalize (mounted_run actions (mount d) (mounted_mount d)).
  generalize (run actions (mount d)).
  intros w [(c & Hc) (cv & Hcv & _)].
  destruct (resize_effect d' w) as (Hh & Hs & Hp & Hb & Hg).
  destruct (resize_canvases d' w c cv Hc Hcv) as (Hd & Ho & Hi & Hds & Hr & _).
  destruct (undo_effect (exec (handleResize d') w)) as (_ & _ & _ & Hu & _).
  rewrite Hu, Hb. repeat split; assumption.
Qed.

(** ** What a growing tick draws *)

Lemma leafTrial_surface s progress g w cv :
  surface (Grower.ctx g) w = Some cv ->
  surface (Grower.ctx g) (exec (leafTrial s progress g) w) = Some cv
  \/ exists angle size,
       surface (Grower.ctx g) (exec (leafTrial s progress g) w)
       = Some (Canvas.draw
                 (OpLeaf (Grower.x g) (Grower.y g) angle size
                    (lerpColor (PlantSettings.leafColorStart s)
                               (PlantSettings.leafColorEnd s) progress)
                    (PlantSettings.type s)) cv).
Proof.
  intro H. unfold leafTrial. rewrite exec_bind.
  destruct (Qltb (eval random w) (PlantSettings.leafFrequency s)).
  - right. rewrite exec_bind.
    set (pick := match PlantSettings.type s with
                 | PALM => _ | GEOMETRIC => _ | UMBRELLA => _ | _ => _
                 end).
    assert (Q : keeps (painted noOp) pick).
    { unfold pick. destruct (PlantSettings.type s);
        repeat (apply painted_bind; [apply painted_random | intro]);
        apply keeps_ret; apply painted_refl. }
    specialize (Q (exec random w)).
    apply (surface_quiet (Grower.ctx g)) in Q.
    rewrite surface_random, H in Q.
    set (w1 := exec pick (exec random w)) in *.
    set (a := eval pick (exec random w)). clearbody w1 a.
    unfold drawLeaf. rewrite exec_bind.
    exists a. eexists. apply surface_drawOn.
    rewrite surface_random. exact Q.
  - left. change (exec (ret tt) (exec random w)) with (exec random w).
    rewrite surface_random. exact H.
Qed.

Lemma stepGrower_growing_unfold g w :
  isTerminal g = false ->
  stepGrower g w
  = stepGrowing (nth (Grower.settings g) (World.heap w) PRESET_VINE) g w.
Proof.
  intro T. unfold stepGrower, bind, deref, get. rewrite T. reflexivity.
Qed.

(** X13.  What a growing tick draws.  A unit that is not terminal and
    whose canvas exists adds to that canvas exactly one stroke and after
    it at most one leaf, and nothing else.  The stroke goes from the
    position the unit had to the position it has after the tick, which
    lies one speed along its new heading, so that the strokes of a unit
    form one connected line; its width is the width of the unit scaled by
    the share of life left, never below 0.5, its colour the stem gradient
    at the progress of the unit, its opacity 0.9.  The leaf, when there is
    one, sits at the start of the stroke and has the leaf gradient
    colour. *)
Theorem X13_growing_tick_draws_one_segment
    (g : Grower.t) (w : World.t) (cv : Canvas.t) :
  isTerminal g = false ->
  surface (Grower.ctx g) w = Some cv ->
  let s := nth (Grower.settings g) (World.heap w) PRESET_VINE in
  let progress := Qnat (Grower.life g) / Grower.maxLife g in
  let g' := fst (eval (stepGrower g) w) in
  let w' := exec (stepGrower g) w in
  let stroke :=
    OpStroke (Grower.x g) (Grower.y g) (Grower.x g') (Grower.y g')
      (Qmax 0.5 (Grower.width g * (1 - progress)))
      (lerpColor (PlantSettings.stemColorStart s)
                 (PlantSettings.stemColorEnd s) progress)
      0.9 in
  Grower.x g' = Grower.x g + Math_cos (Grower.angle g') * Grower.speed g
  /\ Grower.y g' = Grower.y g + Math_sin (Grower.angle g') * Grower.speed g
  /\ 0.5 <= Qmax 0.5 (Grower.width g * (1 - progress))
  /\ exists leaves,
       surface (Grower.ctx g) w'
       = Some (Canvas.mk (Canvas.width cv) (Canvas.height cv)
                 (Canvas.ops cv ++ stroke :: leaves))
       /\ (leaves = []
           \/ exists angle size,
                leaves
                = [OpLeaf (Grower.x g) (Grower.y g) angle size
                     (lerpColor (PlantSettings.leafColorStart s)
                                (PlantSettings.leafColorEnd s) progress)
                     (PlantSettings.type s)]).
Proof.
  intros T H s progress g' w' stroke.
  assert (Ee : eval (stepGrower g) w = eval (stepGrowing s g) w)
    by (unfold eval; rewrite (stepGrower_growing_unfold g w T); reflexivity).
  assert (Ex : exec (stepGrower g) w = exec (stepGrowing s g) w)
    by (unfold exec; rewrite (stepGrower_growing_unfold g w T); reflexivity).
  subst stroke g' w'. rewrite Ee, Ex. clear Ee Ex.
  unfold stepGrowing. fold progress.
  rewrite eval_bind, exec_bind.
  pose proof (painted_steer noOp s progress g w) as P1.
  apply (surface_quiet (Grower.ctx g)) in P1. rewrite H in P1.
  set (a := eval (steer s progress g) w) in *.
  set (w1 := exec (steer s progress g) w) in *. clearbody a w1.
  rewrite !eval_bind, !exec_bind.
  set (g1 := Grower.set_angle a g).
  set (nx := Grower.x g1 + Math_cos (Grower.angle g1) * Grower.speed g1).
  set (ny := Grower.y g1 + Math_sin (Grower.angle g1) * Grower.speed g1).
  set (op := OpStroke (Grower.x g1) (Grower.y g1) nx ny _ _ _).
  pose proof (surface_drawOn (Grower.ctx g1) op w1 cv P1) as P2.
  set (w2 := exec (drawOn (Grower.ctx g1) op) w1) in *. clearbody w2.
  pose proof (leafTrial_surface s progress g1 w2 _ P2) as P3.
  set (w3 := exec (leafTrial s progress g1) w2) in *. clearbody w3.
  pose proof (painted_branchTrial noOp s g1 w3) as P4.
  apply (surface_quiet (Grower.ctx g1)) in P4.
  set (w4 := exec (branchTrial s g1) w3) in *.
  set (pushed := eval (branchTrial s g1) w3). clearbody w4 pushed.
  change (eval (ret (Grower.incr_life (Grower.set_xy nx ny g1), pushed)) w4)
    with (Grower.incr_life (Grower.set_xy nx ny g1), pushed).
  change (exec (ret (Grower.incr_life (Grower.set_xy nx ny g1), pushed)) w4)
    with w4.
  split; [reflexivity|]. split; [reflexivity|].
  split; [apply Q.le_max_l|].
  change (Grower.ctx g1) with (Grower.ctx g) in *.
  rewrite P4.
  destruct P3 as [P3|(angle & size & P3)]; rewrite P3.
  - exists []. split; [reflexivity|]. left. reflexivity.
  - eexists. split; [|right; exists angle, size; reflexivity].
    unfold Canvas.draw. simpl. rewrite <- app_assoc. reflexivity.
Qed.

(** ** Painting outside *)

Lemma hitTest_spec x y p :
  hitTest x y p = true
  <-> Qabs (x - BottlePlant.currentX p) < 40
      /\ BottlePlant.y p - 400 < y /\ y < BottlePlant.y p.
Proof.
  unfold hitTest. rewrite !andb_true_iff, !Qltb_lt. tauto.
Qed.

Lemma handlePointerDown_miss e rect now w :
  PointerEvent.button e = 0%Z ->
  find (hitTest (PointerEvent.clientX e - DOMRect.left rect)
                (PointerEvent.clientY e - DOMRect.top rect))
       (World.bottlePlants w) = None ->
  exec (handlePointerDown e (Some rect) now) w
  = exec (spawnPlant (PointerEvent.clientX e - DOMRect.left rect)
                     (PointerEvent.clientY e - DOMRect.top rect)
                     None false now false) w.
Proof.
  intros Hb Hf. unfold handlePointerDown. rewrite Hb. simpl negb. cbv iota.
  rewrite exec_bind.
  change (eval (get World.bottlePlants) w) with (World.bottlePlants w).
  change (exec (get World.bottlePlants) w) with w.
  rewrite Hf. reflexivity.
Qed.

(** A spawn outside while the outside canvas is mounted. *)
Lemma paint_effect x y now w :
  mounted w ->
  let w' := exec (spawnPlant x y None false now false) w in
  (exists u,
     World.growers w' = World.growers w ++ [u]
     /\ Grower.x u = x /\ Grower.y u = y
     /\ Grower.generation u = 0%nat /\ Grower.life u = 0%nat
     /\ Grower.ctx u = CtxOutside
     /\ Grower.settings u = World.settings w)
  /\ World.plantHistory w'
     = capHistory (World.plantHistory w
                   ++ [PlantHistoryItem.mk x y (List.length (World.heap w)) now])
  /\ World.bottlePlants w' = World.bottlePlants w
  /\ World.offscreen w' = World.offscreen w
  /\ World.dragState w' = World.dragState w
  /\ World.settings w' = World.settings w
  /\ sameCanvases w w'.
Proof.
  intros [(c & Hc) _]. cbv zeta.
  destruct (spawnPlant_outside x y None now false w) as (Ho & Hb & Hg).
  destruct (spawnPlant_effect x y None false now false w) as (_ & _ & Hp & _).
  destruct (sameSession_spawnPlant x y None false now false w)
    as (Sd & _ & Ss & _).
  pose proof (sameCanvases_spawnOutside x y None now false w) as Sc.
  rewrite Hc in Hg. destruct Hg as (u & Hg & Hu & Hs & Hgen & Hl & Hx & Hy).
  split; [exists u; repeat split; assumption|].
  repeat split; try assumption; apply Sc.
Qed.

(** X14.  A press outside every contained plant plants a unit.  A press
    hits a plant when the pointer, in container coordinates, is less than
    40 beside the current position of the plant and less than 400 above
    its base.  In every state the application can reach, a press with the
    primary button that hits no contained plant appends exactly one unit,
    at the pointer, of generation 0 and age 0, drawing on the outside
    canvas with the live settings, and records one history item; it
    starts no drag session and creates no contained plant and no canvas.
    A press with another button, or while the container has no bounding
    rectangle, changes nothing. *)
Theorem X14_press_outside_plants_a_unit
    (d : Dimensions.t) (actions : list Action)
    (e : PointerEvent.t) (rect : DOMRect.t) (now : Z) :
  let w := run actions (mount d) in
  let x := PointerEvent.clientX e - DOMRect.left rect in
  let y := PointerEvent.clientY e - DOMRect.top rect in
  (forall p, hitTest x y p = true
             <-> Qabs (x - BottlePlant.currentX p) < 40
                 /\ BottlePlant.y p - 400 < y /\ y < BottlePlant.y p)
  /\ (PointerEvent.button e <> 0%Z ->
      exec (handlePointerDown e (Some rect) now) w = w)
  /\ exec (handlePointerDown e None now) w = w
  /\ (PointerEvent.button e = 0%Z ->
      (forall p, In p (World.bottlePlants w) -> hitTest x y p = false) ->
      let w' := exec (handlePointerDown e (Some rect) now) w in
      (exists u,
         World.growers w' = World.growers w ++ [u]
         /\ Grower.x u = x /\ Grower.y u = y
         /\ Grower.generation u = 0%nat /\ Grower.life u = 0%nat
         /\ Grower.ctx u = CtxOutside
         /\ Grower.settings u = World.settings w)
      /\ World.plantHistory w'
         = capHistory
             (World.plantHistory w
              ++ [PlantHistoryItem.mk x y (List.length (World.heap w)) now])
      /\ World.bottlePlants w' = World.bottlePlants w
      /\ World.offscreen w' = World.offscreen w
      /\ World.dragState w' = World.dragState w
      /\ World.settings w' = World.settings w
      /\ sameCanvases w w').
Proof.
  cbv zeta. generalize (mounted_run actions (mount d) (mounted_mount d)).
  generalize (run actions (mount d)). intros w Mw.
  split; [intro p; apply hitTest_spec|]. split; [|split].
  - intro Hb. unfold handlePointerDown.
    apply Z.eqb_neq in Hb. rewrite Hb. reflexivity.
  - unfold handlePointerDown.
    destruct (negb (PointerEvent.button e =? 0)%Z); reflexivity.
  - intros Hb Hmiss.
    rewrite handlePointerDown_miss; [|exact Hb|].
    + apply paint_effect. exact Mw.
    + destruct (find _ (World.bottlePlants w)) as [p|] eqn:F; [|reflexivity].
      apply find_some in F. destruct F as (Hin & Hhit).
      rewrite (Hmiss p Hin) in Hhit. discriminate.
Qed.

Lemma handlePointerMove_idle e rect now w :
  World.dragState w = None ->
  exec (handlePointerMove e (Some rect) now) w
  = if (PointerEvent.buttons e =? 1)%Z then
      if Qltb 0.6 (Math_random (World.randomCalls w)) then
        exec (spawnPlant (PointerEvent.clientX e - DOMRect.left rect)
                         (PointerEvent.clientY e - DOMRect.top rect)
                         None false now false) (exec random w)
      else exec random w
    else w.
Proof.
  intro Hd. unfold handlePointerMove. rewrite exec_bind.
  change (eval (get World.dragState) w) with (World.dragState w).
  change (exec (get World.dragState) w) with w.
  rewrite Hd. destruct (PointerEvent.buttons e =? 1)%Z; [|reflexivity].
  rewrite exec_bind.
  change (eval random w) with (Math_random (World.randomCalls w)).
  destruct (Qltb 0.6 (Math_random (World.randomCalls w))); reflexivity.
Qed.

(** X15.  Painting by moving the pointer.  In every state the
    application can reach, while no drag session is active, a
    pointer-move with exactly the primary button held draws one random
    number; when it is above 0.6 the move plants one unit outside at the
    pointer, as a press does, and otherwise it does nothing more.  A
    pointer-move with any other combination of buttons changes nothing
    and draws no random number. *)
Theorem X15_painting_by_moving
    (d : Dimensions.t) (actions : list Action)
    (e : PointerEvent.t) (rect : DOMRect.t) (now : Z) :
  let w := run actions (mount d) in
  let x := PointerEvent.clientX e - DOMRect.left rect in
  let y := PointerEvent.clientY e - DOMRect.top rect in
  let w' := exec (handlePointerMove e (Some rect) now) w in
  let r := Math_random (World.randomCalls w) in
  World.dragState w = None ->
  (PointerEvent.buttons e <> 1%Z -> w' = w)
  /\ (PointerEvent.buttons e = 1%Z ->
      World.bottlePlants w' = World.bottlePlants w
      /\ World.dragState w' = None
      /\ (r <= 0.6 -> w' = exec random w)
      /\ (0.6 < r ->
          (exists u,
             World.growers w' = World.growers w ++ [u]
             /\ Grower.x u = x /\ Grower.y u = y
             /\ Grower.generation u = 0%nat /\ Grower.life u = 0%nat
             /\ Grower.ctx u = CtxOutside
             /\ Grower.settings u = World.settings w)
          /\ World.plantHistory w'
             = capHistory
                 (World.plantHistory w
                  ++ [PlantHistoryItem.mk x y (List.length (World.heap w))
                        now]))).
Proof.
  cbv zeta. generalize (mounted_run actions (mount d) (mounted_mount d)).
  generalize (run actions (mount d)). intros w Mw Hd.
  rewrite (handlePointerMove_idle e rect now w Hd).
  split.
  - intro Hb. apply Z.eqb_neq in Hb. rewrite Hb. reflexivity.
  - intro Hb. apply Z.eqb_eq in Hb. rewrite Hb.
    assert (Mr : mounted (exec random w)).
    { destruct Mw as [Mo Mi]. constructor; assumption. }
    destruct (paint_effect (PointerEvent.clientX e - DOMRect.left rect)
                (PointerEvent.clientY e - DOMRect.top rect) now
                (exec random w) Mr)
      as (Hu & Hp & Hbp & _ & Hds & _).
    destruct (Qltb 0.6 (Math_random (World.randomCalls w))) eqn:R.
    + apply Qltb_lt in R.
      split; [exact Hbp|]. split; [rewrite Hds; exact Hd|]. split.
      * intro L. exfalso. apply (Qlt_not_le _ _ R L).
      * intros _. split; [exact Hu | exact Hp].
    + assert (L : Math_random (World.randomCalls w) <= 0.6).
      { apply Qnot_lt_le. intro H. apply Qltb_lt in H. congruence. }
      split; [reflexivity|]. split; [exact Hd|]. split.
      * intros _. reflexivity.
      * intro H. exfalso. apply (Qlt_not_le _ _ H L).
Qed.

(** ** Units in the reachable states *)

(** X16.  In every state the application can reach, whatever was
    edited, imported or undone since a unit was made, the maxLife of every
    live unit is the maxLife its settings object holds divided by its
    generation plus one, and its width their baseWidth divided likewise:
    a unit of generation 1 lives half as long and is half as wide as the
    settings say, one of generation 2 a third. *)
Theorem X16_every_unit_is_scaled_by_its_generation
    (d : Dimensions.t) (actions : list Action) (u : Grower.t) :
  let w := run actions (mount d) in
  let s := nth (Grower.settings u) (World.heap w) PRESET_VINE in
  In u (World.growers w) ->
  (Grower.settings u < List.length (World.heap w))%nat
  /\ (Grower.generation u <= 2)%nat
  /\ Grower.maxLife u
     = PlantSettings.maxLife s / Qnat (Grower.generation u + 1)
  /\ Grower.width u
     = PlantSettings.baseWidth s / Qnat (Grower.generation u + 1).
Proof.
  cbv zeta. generalize (tidy_reachable actions d).
  generalize (wellFormed_run actions (mount d) (wellFormed_mount d)).
  generalize (run actions (mount d)).
  intros w [_ _ Wg _ _ Wn] [_ Ts _ _ _] Hu.
  rewrite Forall_forall in Wg, Wn, Ts.
  split; [apply Wg, Hu|]. split; [apply Wn, Hu|]. apply Ts, Hu.
Qed.

(** ** Branches *)

Lemma branchTrial_child s g w c :
  In c (eval (branchTrial s g) w) ->
  eval (branchTrial s g) w = [c]
  /\ exists a w1,
       World.heap w1 = World.heap w
       /\ (a = Grower.angle g + branchAngleOffset (PlantSettings.type s)
           \/ a = Grower.angle g + - branchAngleOffset (PlantSettings.type s))
       /\ c = eval (createGrower (Grower.x g) (Grower.y g)
                      (Grower.settings g) (Grower.ctx g)
                      (Grower.generation g + 1) (Some a)) w1.
Proof.
  unfold branchTrial.
  destruct (Grower.generation g <? 2)%nat; [|intros []].
  rewrite eval_bind.
  destruct (Qltb (eval random w) (branchChance (PlantSettings.type s)));
    [|intros []].
  rewrite !eval_bind.
  set (r1 := eval random (exec random w)).
  set (w1 := exec random (exec random w)).
  set (a := Grower.angle g
            + (if Qltb 0.5 r1 then branchAngleOffset (PlantSettings.type s)
               else - branchAngleOffset (PlantSettings.type s))).
  change (eval (ret [eval (createGrower (Grower.x g) (Grower.y g)
                             (Grower.settings g) (Grower.ctx g)
                             (Grower.generation g + 1) (Some a)) w1])
               (exec (createGrower (Grower.x g) (Grower.y g)
                        (Grower.settings g) (Grower.ctx g)
                        (Grower.generation g + 1) (Some a)) w1))
    with [eval (createGrower (Grower.x g) (Grower.y g)
                  (Grower.settings g) (Grower.ctx g)
                  (Grower.generation g + 1) (Some a)) w1].
  intros [<-|[]]. split; [reflexivity|].
  exists a, w1. split; [reflexivity|]. split; [|reflexivity].
  unfold a. destruct (Qltb 0.5 r1); [left | right]; reflexivity.
Qed.

Lemma createGrower_heading x y ps c generation a w :
  let u := eval (createGrower x y ps c generation (Some a)) w in
  Grower.angle u = a
  /\ Grower.speed u
     = PlantSettings.growthSpeed (nth ps (World.heap w) PRESET_VINE).
Proof. split; reflexivity. Qed.

Lemma stepGrower_child g w c :
  In c (snd (eval (stepGrower g) w)) ->
  let s := nth (Grower.settings g) (World.heap w) PRESET_VINE in
  let g' := fst (eval (stepGrower g) w) in
  let off := branchAngleOffset (PlantSettings.type s) in
  snd (eval (stepGrower g) w) = [c]
  /\ Grower.x c = Grower.x g /\ Grower.y c = Grower.y g
  /\ (Grower.angle c = Grower.angle g' + off
      \/ Grower.angle c = Grower.angle g' + - off)
  /\ Grower.speed c = PlantSettings.growthSpeed s.
Proof.
  intros Hc s g' off.
  destruct (stepGrower_pushed g w c Hc) as (T & _).
  assert (Ee : eval (stepGrower g) w = eval (stepGrowing s g) w)
    by (unfold eval; rewrite (stepGrower_growing_unfold g w T); reflexivity).
  subst g'. rewrite Ee in *. clear Ee.
  destruct (stepGrowing_eval s g w) as (a & nx & ny & w3 & G & _ & _ & E).
  rewrite E in *. simpl fst. simpl snd. simpl snd in Hc.
  destruct (branchTrial_child s (Grower.set_angle a g) w3 c Hc)
    as (E1 & b & w1 & Hh & Hb & ->).
  split; [exact E1|].
  set (g1 := Grower.set_angle a g) in *.
  destruct (createGrower_fields (Grower.x g1) (Grower.y g1)
              (Grower.settings g1) (Grower.ctx g1) (Grower.generation g1 + 1)
              (Some b) w1)
    as (Hx & Hy & _).
  destruct (createGrower_heading (Grower.x g1) (Grower.y g1)
              (Grower.settings g1) (Grower.ctx g1) (Grower.generation g1 + 1)
              b w1) as (Ha & Hs).
  split; [exact Hx|]. split; [exact Hy|]. split.
  - rewrite Ha. exact Hb.
  - rewrite Hs, Hh, (painted_heap G). reflexivity.
Qed.

Lemma stepGrower_children g w :
  (List.length (snd (eval (stepGrower g) w)) <= 1)%nat.
Proof.
  destruct (snd (eval (stepGrower g) w)) as [|c l] eqn:E; [simpl; lia|].
  assert (Hc : In c (snd (eval (stepGrower g) w)))
    by (rewrite E; left; reflexivity).
  destruct (stepGrower_child g w c Hc) as (E1 & _).
  rewrite E1 in E. inversion E. simpl. lia.
Qed.

Lemma forEachGrower_length gs w :
  List.length (fst (eval (forEachGrower gs) w)) = List.length gs
  /\ (List.length (snd (eval (forEachGrower gs) w)) <= List.length gs)%nat.
Proof.
  revert w. induction gs as [|g gs IH]; intro w; simpl forEachGrower.
  - split; simpl; lia.
  - rewrite !eval_bind.
    destruct (IH (exec (stepGrower g) w)) as (A & B).
    pose proof (stepGrower_children g w) as C.
    set (r := eval (stepGrower g) w) in *.
    set (rs := eval (forEachGrower gs) (exec (stepGrower g) w)) in *.
    change (eval (ret (fst r :: fst rs, snd r ++ snd rs))
                 (exec (forEachGrower gs) (exec (stepGrower g) w)))
      with (fst r :: fst rs, snd r ++ snd rs).
    simpl. rewrite length_app. split; lia.
Qed.

(** X17.  A branch starts on the stem.  A tick makes a unit push at most
    one child.  The child starts where the parent stood before the tick
    moved it, that is at the start of the stroke of this tick, heading
    off the new heading of the parent by exactly the branch angle of the
    plant type (0.8 for geometric, 0.9 for berry, 0.6 otherwise) to one
    side or the other, at the growth speed of the settings.  Hence a
    frame can at most double the number of live units. *)
Theorem X17_branch_starts_on_the_stem (g : Grower.t) (w : World.t) :
  let s := nth (Grower.settings g) (World.heap w) PRESET_VINE in
  let g' := fst (eval (stepGrower g) w) in
  let off := branchAngleOffset (PlantSettings.type s) in
  (List.length (snd (eval (stepGrower g) w)) <= 1)%nat
  /\ (forall c, In c (snd (eval (stepGrower g) w)) ->
        Grower.x c = Grower.x g /\ Grower.y c = Grower.y g
        /\ (Grower.angle c = Grower.angle g' + off
            \/ Grower.angle c = Grower.angle g' + - off)
        /\ Grower.speed c = PlantSettings.growthSpeed s
        /\ Grower.life c = 0%nat
        /\ Grower.ctx c = Grower.ctx g
        /\ Grower.settings c = Grower.settings g)
  /\ (List.length (World.growers (exec update w))
      <= 2 * List.length (World.growers w))%nat.
Proof.
  cbv zeta. split; [apply stepGrower_children|]. split.
  - intros c Hc.
    destruct (stepGrower_child g w c Hc) as (_ & Hx & Hy & Ha & Hs).
    destruct (stepGrower_pushed g w c Hc) as (_ & _ & _ & Hse & Hct & Hl & _).
    repeat split; assumption.
  - rewrite update_growers.
    destruct (forEachGrower_length (World.growers w) w) as (A & B).
    eapply Nat.le_trans; [apply filter_length_le|].
    rewrite length_app. lia.
Qed.

(** ** Heading in the straight phase *)

Lemma steer_straight s progress g w :
  PlantSettings.type s <> GEOMETRIC -> PlantSettings.type s <> BERRY ->
  progress < PlantSettings.straightness s ->
  eval (steer s progress g) w
  = Grower.angle g
    + ((targetAngle - Grower.angle g) * 0.1
       + (Math_random (World.randomCalls w) - 0.5) * 0.05).
Proof.
  intros Hg Hb Hp. apply Qltb_lt in Hp. unfold steer.
  destruct (PlantSettings.type s); try congruence; rewrite Hp; reflexivity.
Qed.

Lemma stepGrower_heading g w :
  isTerminal g = false ->
  let s := nth (Grower.settings g) (World.heap w) PRESET_VINE in
  Grower.angle (fst (eval (stepGrower g) w))
  = eval (steer s (Qnat (Grower.life g) / Grower.maxLife g) g) w.
Proof.
  intros T s.
  assert (Ee : eval (stepGrower g) w = eval (stepGrowing s g) w)
    by (unfold eval; rewrite (stepGrower_growing_unfold g w T); reflexivity).
  rewrite Ee. unfold stepGrowing. rewrite !eval_bind. reflexivity.
Qed.

(** X18.  In its straight phase a stem turns upright.  For a plant that
    is neither geometric nor berry, a tick of a unit that is not terminal
    and whose progress life / maxLife is below the straightness of its
    settings brings the heading towards straight up: the deviation from
    -pi/2 shrinks to nine tenths, up to a wobble of at most 0.025, as long
    as the random source returns numbers between 0 and 1. *)
Theorem X18_straight_phase_turns_upright (g : Grower.t) (w : World.t) :
  let s := nth (Grower.settings g) (World.heap w) PRESET_VINE in
  let g' := fst (eval (stepGrower g) w) in
  isTerminal g = false ->
  PlantSettings.type s <> GEOMETRIC -> PlantSettings.type s <> BERRY ->
  Qnat (Grower.life g) / Grower.maxLife g < PlantSettings.straightness s ->
  0 <= Math_random (World.randomCalls w) <= 1 ->
  Qabs (Grower.angle g' - targetAngle)
  <= 0.9 * Qabs (Grower.angle g - targetAngle) + 0.025.
Proof.
  intros s g' T Hg Hb Hp (R0 & R1). subst g'.
  rewrite (stepGrower_heading g w T). fold s.
  rewrite (steer_straight s _ g w Hg Hb Hp).
  generalize dependent (Math_random (World.randomCalls w)).
  generalize (Grower.angle g). generalize targetAngle.
  intros t a r R0 R1.
  apply Qabs_Qle_condition.
  pose proof (Qle_Qabs (a - t)) as U.
  pose proof (Qle_Qabs (- (a - t))) as L. rewrite Qabs_opp in L.
  split; lra.
Qed.

(** ** What a frame leaves alone *)

Lemma composite_session w :
  let w' := exec compositeBottlePlants w in
  World.settings w' = World.settings w
  /\ World.dragState w' = World.dragState w
  /\ World.bottleRect w' = World.bottleRect w
  /\ World.dimensions w' = World.dimensions w
  /\ World.clearTrigger w' = World.clearTrigger w
  /\ World.randomCalls w' = World.randomCalls w.
Proof.
  unfold compositeBottlePlants, modify, exec. simpl.
  destruct (World.canvasInside w); simpl; repeat split.
Qed.

(** X19.  A frame only draws.  Whatever the state, an animation frame
    changes nothing but the canvases, the live units and the count of
    random draws: the settings objects and the live settings, the
    contained plants with their positions, the history, the drag session,
    the rectangle of the bottle and the size are as before, and random
    numbers are only consumed. *)
Theorem X19_frame_only_draws (w : World.t) :
  let w' := exec update w in
  World.heap w' = World.heap w
  /\ World.settings w' = World.settings w
  /\ World.bottlePlants w' = World.bottlePlants w
  /\ World.plantHistory w' = World.plantHistory w
  /\ World.dragState w' = World.dragState w
  /\ World.bottleRect w' = World.bottleRect w
  /\ World.dimensions w' = World.dimensions w
  /\ (World.randomCalls w <= World.randomCalls w')%nat
  /\ List.length (World.offscreen w') = List.length (World.offscreen w).
Proof.
  cbv zeta.
  destruct (processGrowers_frame w)
    as (_ & Pd & Pb & Ph & Phe & Ps & Pds & Pr & _ & Po).
  assert (Pn : (World.randomCalls w
                <= World.randomCalls (exec processGrowers w))%nat).
  { unfold processGrowers. rewrite !exec_bind.
    change (exec (get World.growers) w) with w.
    change (eval (get World.growers) w) with (World.growers w).
    pose proof (grew_forEachGrower (World.growers w) w) as G.
    apply painted_randomCalls in G. exact G. }
  unfold update. rewrite exec_bind.
  destruct (composite_rest (exec processGrowers w))
    as (_ & Cb & _ & Co & Ch & Che).
  destruct (composite_session (exec processGrowers w))
    as (Cs & Cds & Cr & Cd & _ & Cn).
  apply Forall2_length_eq in Po.
  rewrite Che, Cs, Cb, Ch, Cds, Cr, Cd, Cn, Co.
  repeat split; assumption.
Qed.

End Properties.

(** * The statements on sample states *)

Lemma C1_unit_removed_after_grace_witness :
  let host := idleHost in
  let elder' := Grower.incr_life elder in
  steppedFrom elder elder'
  /\ Grower.x elder' = Grower.x elder /\ Grower.y elder' = Grower.y elder
  /\ isTerminal elder' = true
  /\ ~ In elder' (World.growers (exec update gardenWorld))
  /\ ~ In elder (World.growers (exec undoLastBottlePlant gardenWorld))
  /\ In sprout (World.growers (exec undoLastBottlePlant gardenWorld)).
Proof.
  intros host elder'.
  destruct (@C1_unit_removed_after_grace host gardenWorld)
    as (_ & _ & Hlive & _ & Hterm & _ & Hundo).
  assert (S : steppedFrom elder elder') by (exists gardenWorld; vm_compute; reflexivity).
  destruct (Hterm elder elder' S eq_refl) as (Hx & Hy & Ht).
  split; [exact S|]. split; [exact Hx|]. split; [exact Hy|].
  split; [exact Ht|].
  split; [|split].
  - intro Hin.
    apply (Hlive elder') in Hin; [|left; reflexivity].
    vm_compute in Hin. discriminate Hin.
  - intro Hin. apply (Hundo [] pot eq_refl elder) in Hin.
    destruct Hin as [_ Hc]. apply Hc. reflexivity.
  - apply (Hundo [] pot eq_refl sprout). split.
    + right. left. reflexivity.
    + discriminate.
Defined.

Lemma C2_lifetime_and_width_scale_with_generation_witness :
  let spawned :=
    exec (@spawnPlant idleHost 100 100 None false 5%Z false) sampleWorld in
  (exists u, In u (World.growers spawned)
             /\ Grower.generation u = 0%nat
             /\ scaled (World.heap spawned) u)
  /\ (exists c, In c (snd (eval (@stepGrower eagerHost sprout) gardenWorld))
                /\ Grower.generation c = 1%nat
                /\ scaled (World.heap gardenWorld) c)
  /\ Grower.maxLife
       (eval (@createGrower idleHost 0 0 0%nat CtxOutside 1 None) sampleWorld)
     < Grower.maxLife
         (eval (@createGrower idleHost 0 0 0%nat CtxOutside 0 None) sampleWorld).
Proof.
  intro spawned.
  destruct (@C2_lifetime_and_width_scale_with_generation idleHost)
    as (Hspawn & _ & Hdec).
  destruct (@C2_lifetime_and_width_scale_with_generation eagerHost)
    as (_ & Hbranch & _).
  split; [|split].
  - exists (nth 0 (World.growers spawned) elder).
    assert (Hin : In (nth 0 (World.growers spawned) elder)
                     (World.growers spawned)) by (vm_compute; left; reflexivity).
    split; [exact Hin|].
    destruct (Hspawn 100 100 None false 5%Z false sampleWorld _ Hin)
      as [[]|H]; exact H.
  - exists (nth 0 (snd (eval (@stepGrower eagerHost sprout) gardenWorld)) elder).
    assert (Hin : In (nth 0 (snd (eval (@stepGrower eagerHost sprout)
                                       gardenWorld)) elder)
                     (snd (eval (@stepGrower eagerHost sprout) gardenWorld)))
      by (vm_compute; left; reflexivity).
    split; [exact Hin|].
    destruct (Hbranch sprout gardenWorld _ Hin) as (Hg & _ & Sc).
    split; [exact Hg | exact Sc].
  - apply (Hdec 0 0 0%nat CtxOutside None sampleWorld 0%nat);
      reflexivity.
Defined.

Lemma C3_branch_raises_generation_up_to_two_witness :
  (exists c, In c (snd (eval (@stepGrower eagerHost sprout) gardenWorld))
             /\ Grower.generation c = 1%nat)
  /\ snd (eval (@stepGrower eagerHost twig) gardenWorld) = []
  /\ (forall u,
        In u (World.growers (exec (@update eagerHost) gardenWorld)) ->
        (Grower.generation u <= 2)%nat).
Proof.
  destruct (@C3_branch_raises_generation_up_to_two eagerHost)
    as (Hchild & Hlast & Hlive & _).
  split; [|split].
  - exists (nth 0 (snd (eval (@stepGrower eagerHost sprout) gardenWorld)) elder).
    assert (Hin : In (nth 0 (snd (eval (@stepGrower eagerHost sprout)
                                       gardenWorld)) elder)
                     (snd (eval (@stepGrower eagerHost sprout) gardenWorld)))
      by (vm_compute; left; reflexivity).
    split; [exact Hin|].
    apply (Hchild sprout gardenWorld _ Hin).
  - apply (Hlast twig gardenWorld PRESET_VINE). apply le_n.
  - intros u Hu.
    destruct (Hlive gardenWorld u Hu)
      as [(g & Hg & _ & E)|(g & Hg & L & E)]; rewrite E.
    + change (In g [elder; sprout; twig]) in Hg.
      destruct Hg as [<-|[<-|[<-|[]]]]; vm_compute; lia.
    + lia.
Defined.

Lemma C4_single_flower_attempt_witness :
  let host := eagerHost in
  let g1 := fst (eval (stepGrower bud) gardenWorld) in
  let g2 := fst (eval (stepGrower g1) gardenWorld) in
  let g3 := fst (eval (stepGrower g2) gardenWorld) in
  let cv := match World.canvasOutside gardenWorld with
            | Some c => c
            | None => Canvas.create 0 0
            end in
  (truthy (Grower.hasAttemptedFlower g2) = false
   /\ truthy (Grower.hasAttemptedFlower g3) = true)
  /\ exec (stepGrower g2) gardenWorld
     = exec (attemptFlower PRESET_VINE g2) gardenWorld
  /\ flowerCount (exec (stepGrower g2) gardenWorld)
     = S (flowerCount gardenWorld)
  /\ (exists op,
        isFlower op = true
        /\ surface (Grower.ctx g2) (exec (stepGrower g2) gardenWorld)
           = Some (Canvas.draw op cv))
  /\ exec (stepGrower g3) gardenWorld = gardenWorld.
Proof.
  intros host g1 g2 g3 cv.
  destruct (@C4_single_flower_attempt host)
    as (_ & Hflip & Hdraw & Hbloom & _).
  assert (L1 : lifeline bud 1 g1).
  { apply lifeline_step with bud; [apply lifeline_start|].
    exists gardenWorld. reflexivity. }
  assert (L2 : lifeline bud 2 g2).
  { apply lifeline_step with g1; [exact L1|].
    exists gardenWorld. reflexivity. }
  assert (L3 : lifeline bud 3 g3).
  { apply lifeline_step with g2; [exact L2|].
    exists gardenWorld. reflexivity. }
  assert (S23 : steppedFrom g2 g3) by (exists gardenWorld; reflexivity).
  assert (first : forall j, (j < 2)%nat -> terminalAt bud j = false).
  { intros j Hj. destruct j as [|[|j]]; [reflexivity | reflexivity | lia]. }
  assert (Hcv : surface (Grower.ctx g2) gardenWorld = Some cv)
    by (vm_compute; reflexivity).
  destruct (Hbloom bud 2%nat g2 gardenWorld cv eq_refl L2 eq_refl first Hcv)
    as (Hyes & _).
  destruct Hyes as (Hcount & draws & Hop).
  { split; [vm_compute; lia | vm_compute; reflexivity]. }
  split; [|split; [|split; [|split]]].
  - apply (Hflip bud 2%nat g2 g3 eq_refl L2 S23).
    split; [reflexivity | exact first].
  - apply (Hdraw bud 2%nat g2 gardenWorld eq_refl L2); [reflexivity | exact first].
  - exact Hcount.
  - match type of Hop with
    | _ = Some (Canvas.draw ?op _) => exists op
    end.
    split; [reflexivity | exact Hop].
  - apply (Hdraw bud 3%nat g3 gardenWorld eq_refl L3).
    exists 2%nat. split; [lia | reflexivity].
Defined.

Lemma C5_edits_do_not_reach_spawned_settings_witness :
  let host := eagerHost in
  let w := run sampleSession (mount sampleDimensions) in
  let w' := exec (applyEdit (EditFields shorterLife)) w in
  let unit := nth 0 (World.growers w) elder in
  let item := nth 0 (World.plantHistory w) (PlantHistoryItem.mk 0 0 0%nat 0) in
  In unit (World.growers w')
  /\ nth (Grower.settings unit) (World.heap w') PRESET_VINE
     = nth (Grower.settings unit) (World.heap w) PRESET_VINE
  /\ nth (PlantHistoryItem.settings item) (World.heap w') PRESET_VINE
     = nth (PlantHistoryItem.settings item) (World.heap w) PRESET_VINE
  /\ PlantSettings.maxLife (nth (World.settings w') (World.heap w') PRESET_VINE)
     = 50.
Proof.
  intros host w w' unit item.
  destruct (@C5_edits_do_not_reach_spawned_settings host sampleDimensions
              sampleSession) as (_ & _ & Hedit & _).
  destruct (Hedit (EditFields shorterLife)) as (Hg & _ & _ & Hu & Hi & _).
  fold w in Hg, Hu, Hi. fold w' in Hg, Hu, Hi.
  assert (Iu : In unit (World.growers w)) by (vm_compute; left; reflexivity).
  assert (Ii : In item (World.plantHistory w))
    by (vm_compute; left; reflexivity).
  split; [rewrite Hg; exact Iu|].
  split; [exact (Hu unit Iu)|].
  split; [exact (Hi item Ii)|].
  vm_compute. reflexivity.
Defined.

(** C5 as the specification words it: the settings are not passed by
    value.  After a spawn into the bottle with the live settings, the unit
    and the contained plant hold the reference of the live settings
    themselves, here the preset object at address 0; the only copy, at
    the fresh address 5, is the one of the history item. *)
Lemma C5_counterexample :
  let w' := exec (@spawnPlant idleHost 150 280 None true 5%Z true)
                 sampleWorld in
  World.settings sampleWorld = 0%nat
  /\ World.settings w' = 0%nat
  /\ map Grower.settings (World.growers w') = [World.settings w']
  /\ map BottlePlant.settings (World.bottlePlants w') = [World.settings w']
  /\ map PlantHistoryItem.settings (World.plantHistory w') = [5%nat]
  /\ ~ (forall u, In u (World.growers w') ->
          Grower.settings u <> World.settings w').
Proof.
  split; [reflexivity|]. split; [vm_compute; reflexivity|].
  split; [vm_compute; reflexivity|]. split; [vm_compute; reflexivity|].
  split; [vm_compute; reflexivity|].
  intro H.
  apply (H (nth 0 (World.growers
                     (exec (@spawnPlant idleHost 150 280 None true 5%Z true)
                           sampleWorld)) elder)).
  - vm_compute. left. reflexivity.
  - vm_compute. reflexivity.
Qed.




(** C8 as the specification words it: the spawn is not a no-op.  A spawn
    into the bottle whose context cannot be obtained leaves a history
    item behind. *)
Lemma C8_counterexample :
  let w' := exec (@spawnPlant idleHost 150 100 None true 5%Z false)
                 sampleWorld in
  World.plantHistory sampleWorld = []
  /\ World.plantHistory w' = [PlantHistoryItem.mk 150 100 5%nat 5%Z]
  /\ w' <> sampleWorld.
Proof.
  split; [reflexivity|]. split; [vm_compute; reflexivity|].
  intro H. apply (f_equal World.plantHistory) in H.
  vm_compute in H. discriminate H.
Qed.

Lemma C9_stale_drag_session_witness :
  let host := eagerHost in
  exec (handlePointerMove (press 60 50) (Some origin) 7%Z) staleWorld
  = staleWorld
  /\ World.dragState
       (exec handlePointerUp
          (exec (handlePointerMove (press 60 50) (Some origin) 7%Z) staleWorld))
     = None.
Proof.
  intro host.
  destruct (@C9_stale_drag_session host staleWorld (DragState.mk "pot" 50 50)
              (press 60 50) (Some origin) 7%Z eq_refl eq_refl)
    as (Hmove & _ & Hup).
  split; [exact Hmove | exact Hup].
Defined.

(** C9 as the specification words it: the session does not end on the
    next pointer-move.  After the plant was undone, a pointer-move leaves
    the session of that plant in place. *)
Lemma C9_counterexample :
  let w' := exec (@handlePointerMove eagerHost (press 60 50) (Some origin) 7%Z)
                 staleWorld in
  World.bottlePlants staleWorld = []
  /\ World.dragState staleWorld = Some (DragState.mk "pot" 50 50)
  /\ World.dragState w' = Some (DragState.mk "pot" 50 50)
  /\ World.dragState w' <> None.
Proof.
  split; [reflexivity|]. split; [reflexivity|].
  split; [vm_compute; reflexivity|].
  vm_compute. discriminate.
Qed.

Lemma C10_clear_drops_ambient_units_witness :
  let host := eagerHost in
  let w := run sampleSession (mount sampleDimensions) in
  let w' := exec handleClear w in
  List.length (World.growers w) = 3%nat
  /\ World.growers w'
     = filter (fun g => negb (Ctx_eqb (Grower.ctx g) CtxOutside))
              (World.growers w)
  /\ List.length (World.growers w') = 1%nat
  /\ World.bottlePlants w' = World.bottlePlants w
  /\ World.plantHistory w' = World.plantHistory w.
Proof.
  intros host w w'.
  destruct (@C10_clear_drops_ambient_units host sampleDimensions sampleSession)
    as (_ & Hg & _ & Hb & _ & _ & Hh & _).
  fold w in Hg, Hb, Hh. fold w' in Hg, Hb, Hh.
  split; [vm_compute; reflexivity|].
  split; [exact Hg|].
  split; [rewrite Hg; vm_compute; reflexivity|].
  split; [exact Hb | exact Hh].
Defined.

Lemma X5_growth_comes_to_an_end_witness :
  let host := eagerHost in
  let w := run sampleSession (mount sampleDimensions) in
  World.growers w <> []
  /\ World.growers (run (frames 1350) w) = [].
Proof.
  intros host w. split; [vm_compute; discriminate|].
  apply (@X5_growth_comes_to_an_end host sampleDimensions sampleSession
           400 1350).
  - apply Forall_forall. intros s Hs. apply Qle_bool_iff.
    revert s Hs. apply forallb_forall. vm_compute. reflexivity.
  - apply Nat.leb_le. vm_compute. reflexivity.
Defined.

Lemma X6_idle_frame_changes_nothing_witness :
  let host := idleHost in
  let w := run quietSession (mount sampleDimensions) in
  let w' := exec update w in
  World.randomCalls w' = World.randomCalls w
  /\ World.canvasOutside w' = World.canvasOutside w
  /\ exec update w' = w'.
Proof.
  intros host w w'.
  destruct (@X6_idle_frame_changes_nothing host sampleDimensions quietSession)
    as (Hr & Ho & _ & _ & _ & Hf); [vm_compute; reflexivity|].
  split; [exact Hr|]. split; [exact Ho | exact Hf].
Defined.

Lemma X7_drag_follows_the_pointer_witness :
  let host := idleHost in
  let d := DragState.mk "pot" 60 50 in
  let w1 := exec (handlePointerDown (press 60 50) (Some origin) 5%Z)
                 gardenWorld in
  let w2 := run (map moveAction strokes
                 ++ [PointerMove (press 90 50) (Some origin) 8%Z]) w1 in
  let target := dragTarget d (90 - 0) (World.bottleRect gardenWorld) origin in
  target == 80
  /\ w1 = World.set_dragState (Some d) gardenWorld
  /\ exists before after,
       World.bottlePlants gardenWorld = before ++ pot :: after
       /\ World.bottlePlants w2
          = before ++ BottlePlant.set_currentX target pot :: after.
Proof.
  intros host d w1 w2 target.
  split; [vm_compute; reflexivity|].
  destruct (@X7_drag_follows_the_pointer host gardenWorld (press 60 50) origin
              5%Z pot strokes (press 90 50) origin 8%Z)
    as (H1 & H2 & _).
  - reflexivity.
  - vm_compute. reflexivity.
  - vm_compute. repeat constructor. intros [].
  - split; [exact H1 | exact H2].
Defined.

Lemma X8_import_plants_the_genome_witness :
  let host := idleHost in
  let w' := exec (handleImport (Parsed.ofSettings PRESET_PALM)
                    (Some (150, 280)) 6%Z true)
                 sampleWorld in
  exec (handleImport blankGenome (Some (150, 280)) 6%Z true) sampleWorld
  = sampleWorld
  /\ exec (handleImport untypedGenome (Some (150, 280)) 6%Z true) sampleWorld
     = sampleWorld
  /\ World.settings w' = 5%nat
  /\ World.heap w' = presetHeap ++ [PRESET_PALM; PRESET_PALM]
  /\ exists id u,
       World.bottlePlants w'
       = [BottlePlant.mk id 150 150 280 0 (CtxOff 0) 5%nat]
       /\ World.growers w' = [u]
       /\ Grower.maxLife u == 350.
Proof.
  intros host w'.
  destruct (@X8_import_plants_the_genome host blankGenome 150 280 6%Z
              sampleWorld) as (Hblank & _).
  destruct (@X8_import_plants_the_genome host untypedGenome 150 280 6%Z
              sampleWorld) as (Huntyped & _).
  destruct (@X8_import_plants_the_genome host (Parsed.ofSettings PRESET_PALM)
              150 280 6%Z sampleWorld) as (_ & Hvalid).
  split; [apply Hblank; right; left; reflexivity|].
  split; [apply Huntyped; right; right; reflexivity|].
  destruct (Hvalid "#78716c"%string PALM eq_refl)
    as (_ & _ & _ & Hs & Hh & _ & id & u & Hb & Hg & _ & _ & _ & _ & _
        & _ & Hm & _); [discriminate | reflexivity |].
  split; [exact Hs|]. split; [exact Hh|].
  exists id, u. split; [exact Hb|]. split; [exact Hg | exact Hm].
Defined.

Lemma X10_lerpColor_stays_between_the_endpoints_witness :
  let host := hexHost in
  lerpColor "#000000" "#ffffff" 0.5 = Rgb (Some 128%Z) (Some 128%Z) (Some 128%Z)
  /\ lerpColor "#86efac" "#2dd4bf" 7 = Rgb (Some 45%Z) (Some 212%Z) (Some 191%Z)
  /\ exists r g b,
       lerpColor "#86efac" "#2dd4bf" 0.3 = Rgb (Some r) (Some g) (Some b)
       /\ (45 <= r <= 134)%Z /\ (212 <= g <= 239)%Z /\ (172 <= b <= 191)%Z.
Proof.
  intro host.
  split; [vm_compute; reflexivity|].
  destruct (@X10_lerpColor_stays_between_the_endpoints host
              "#86efac" "#2dd4bf" 7 134 239 172 45 212 191)
    as (r7 & g7 & b7 & E7 & _ & _ & _ & _ & Hend);
    [vm_compute; reflexivity | vm_compute; reflexivity |].
  destruct Hend as (-> & -> & ->); [vm_compute; discriminate|].
  split; [exact E7|].
  destruct (@X10_lerpColor_stays_between_the_endpoints host
              "#86efac" "#2dd4bf" 0.3 134 239 172 45 212 191)
    as (r & g & b & E & Hr & Hg & Hb & _);
    [vm_compute; reflexivity | vm_compute; reflexivity |].
  exists r, g, b. split; [exact E|].
  split; [exact Hr|]. split; [exact Hg | exact Hb].
Defined.

Lemma X11_plant_canvases_are_never_erased_witness :
  let host := eagerHost in
  exists c',
    nth_error (World.offscreen (run sampleSession gardenWorld)) 0 = Some c'
    /\ Canvas.width c' = 800%Z /\ Canvas.height c' = 600%Z.
Proof.
  intro host.
  destruct (@X11_plant_canvases_are_never_erased host gardenWorld
              sampleSession 0 (Canvas.create 800 600))
    as (c' & H & Hw & Hh & _); [reflexivity|].
  exists c'. split; [exact H|]. split; [exact Hw | exact Hh].
Defined.

Lemma X13_growing_tick_draws_one_segment_witness :
  let host := eagerHost in
  let g' := fst (eval (stepGrower sprout) gardenWorld) in
  Grower.x g'
  = Grower.x sprout + Math_cos (Grower.angle g') * Grower.speed sprout
  /\ Grower.y g'
     = Grower.y sprout + Math_sin (Grower.angle g') * Grower.speed sprout
  /\ exists cv stroke leaves,
       surface CtxOutside gardenWorld = Some cv
       /\ surface CtxOutside (exec (stepGrower sprout) gardenWorld)
          = Some (Canvas.mk (Canvas.width cv) (Canvas.height cv)
                    (Canvas.ops cv ++ stroke :: leaves))
       /\ (List.length leaves <= 1)%nat.
Proof.
  intros host g'.
  pose (cv := match surface CtxOutside gardenWorld with
              | Some c => c
              | None => Canvas.create 0 0
              end).
  assert (Hcv : surface (Grower.ctx sprout) gardenWorld = Some cv)
    by (vm_compute; reflexivity).
  destruct (@X13_growing_tick_draws_one_segment host sprout gardenWorld cv
              eq_refl Hcv)
    as (Hx & Hy & _ & leaves & Hs & Hl).
  split; [exact Hx|]. split; [exact Hy|].
  exists cv. eexists. exists leaves.
  split; [exact Hcv|]. split; [exact Hs|].
  destruct Hl as [->|(a & s & ->)]; simpl; lia.
Defined.

Lemma X14_press_outside_plants_a_unit_witness :
  let host := idleHost in
  let w := run sampleSession (mount sampleDimensions) in
  let w' := exec (handlePointerDown (press 400 300) (Some origin) 9%Z) w in
  List.length (World.bottlePlants w) = 1%nat
  /\ exists u,
       World.growers w' = World.growers w ++ [u]
       /\ Grower.x u = 400 - 0 /\ Grower.y u = 300 - 0
       /\ Grower.ctx u = CtxOutside.
Proof.
  intros host w w'.
  split; [vm_compute; reflexivity|].
  destruct (@X14_press_outside_plants_a_unit host sampleDimensions
              sampleSession (press 400 300) origin 9%Z)
    as (_ & _ & _ & Hmiss).
  destruct Hmiss as ((u & Hg & Hx & Hy & _ & _ & Hc & _) & _).
  - reflexivity.
  - intros p Hp. apply negb_true_iff. revert p Hp. apply forallb_forall.
    vm_compute. reflexivity.
  - exists u. split; [exact Hg|]. split; [exact Hx|]. split; assumption.
Defined.

Lemma X15_painting_by_moving_witness :
  let host := idleHost in
  let w := run sampleSession (mount sampleDimensions) in
  let w' := exec (handlePointerMove (press 400 300) (Some origin) 9%Z) w in
  exists u,
    World.growers w' = World.growers w ++ [u]
    /\ Grower.x u = 400 - 0 /\ Grower.y u = 300 - 0.
Proof.
  intros host w w'.
  destruct (@X15_painting_by_moving host sampleDimensions sampleSession
              (press 400 300) origin 9%Z) as (_ & Hheld);
    [vm_compute; reflexivity|].
  destruct Hheld as (_ & _ & _ & Hspawn); [reflexivity|].
  destruct Hspawn as ((u & Hg & Hx & Hy & _) & _); [vm_compute; reflexivity|].
  exists u. split; [exact Hg|]. split; assumption.
Defined.

Lemma X16_every_unit_is_scaled_by_its_generation_witness :
  let host := eagerHost in
  let w := run sampleSession (mount sampleDimensions) in
  let u := nth 0 (World.growers w) elder in
  Grower.maxLife u
  = PlantSettings.maxLife (nth (Grower.settings u) (World.heap w) PRESET_VINE)
    / Qnat (Grower.generation u + 1).
Proof.
  intros host w u.
  destruct (@X16_every_unit_is_scaled_by_its_generation host sampleDimensions
              sampleSession u) as (_ & _ & Hm & _);
    [vm_compute; left; reflexivity|].
  exact Hm.
Defined.

Lemma X17_branch_starts_on_the_stem_witness :
  let host := eagerHost in
  exists c,
    snd (eval (stepGrower sprout) gardenWorld) = [c]
    /\ Grower.x c = 100 /\ Grower.y c = 100.
Proof.
  intro host.
  destruct (@X17_branch_starts_on_the_stem host sprout gardenWorld)
    as (_ & Hchild & _).
  exists (nth 0 (snd (eval (stepGrower sprout) gardenWorld)) elder).
  assert (Hin : In (nth 0 (snd (eval (stepGrower sprout) gardenWorld)) elder)
                   (snd (eval (stepGrower sprout) gardenWorld)))
    by (vm_compute; left; reflexivity).
  destruct (Hchild _ Hin) as (Hx & Hy & _).
  split; [vm_compute; reflexivity|]. split; [exact Hx | exact Hy].
Defined.

Lemma X18_straight_phase_turns_upright_witness :
  let host := eagerHost in
  let g' := fst (eval (stepGrower sprout) gardenWorld) in
  Qabs (Grower.angle g' - targetAngle)
  <= 0.9 * Qabs (Grower.angle sprout - targetAngle) + 0.025.
Proof.
  intros host g'.
  apply (@X18_straight_phase_turns_upright host sprout gardenWorld).
  - reflexivity.
  - vm_compute. discriminate.
  - vm_compute. discriminate.
  - vm_compute. reflexivity.
  - split; vm_compute; discriminate.
Defined.
